(** * cloudsync: save-file synchronisation between a directory and a bucket

    A shallow embedding of the Go sources of cloudsync: the legacy
    single-file program (main.go) and the refactored packages [watcher],
    [sync] and [storage].  The pure helpers are plain functions, the
    stateful code is written in a small state monad over an explicit
    [World] (local file system, bucket, clock, process table, fault
    schedule and a trace of the external operations performed). *)

From Stdlib Require Import ZArith Lia Ascii String List.
From stdpp Require Import base option strings list gmap.

Open Scope string_scope.
Open Scope Z_scope.

(** ** Go base types: int64, time.Duration, time.Time, strings *)

Module Go.

Definition minInt64 : Z := - 2 ^ 63.
Definition maxInt64 : Z := 2 ^ 63 - 1.
Definition maxUint64 : Z := 2 ^ 64 - 1.

(** Two's complement wrap-around of a mathematical integer to int64. *)
Definition wrap64 (z : Z) : Z := (z + 2 ^ 63) mod 2 ^ 64 - 2 ^ 63.

(** [time.Duration] is an int64 count of nanoseconds. *)
Definition Duration : Type := Z.
Definition Millisecond : Duration := 1000000.
Definition Second : Duration := 1000000000.
Definition minDuration : Duration := minInt64.
Definition maxDuration : Duration := maxInt64.

(** Unary minus on a Duration, as Go computes it on int64. *)
Definition neg (d : Duration) : Duration := wrap64 (- d).

(** [time.Time]: an instant, as nanoseconds since the Unix epoch.  The range
    of Go's Time is far wider than that of Duration, so the instant is an
    unbounded integer; [UTC] changes the location only, not the instant. *)
Definition Time : Type := Z.
Definition UTC (t : Time) : Time := t.

(** [t.Sub(u)]: the difference, saturated to the Duration range. *)
Definition Sub (t u : Time) : Duration :=
  let d := t - u in
  if d <? minDuration then minDuration
  else if maxDuration <? d then maxDuration
  else d.

(** [t.UnixNano()]: int64 arithmetic, wraps outside the years 1678..2262. *)
Definition UnixNano (t : Time) : Z := wrap64 t.

(** [time.Unix(0, nsec)]. *)
Definition Unix0 (nsec : Z) : Time := nsec.

(** *** strings *)

Definition HasSuffix (s suffix : string) : bool :=
  (String.length suffix <=? String.length s)%nat &&
  String.eqb
    (substring (String.length s - String.length suffix) (String.length suffix) s)
    suffix.

Fixpoint HasPrefix (s prefix : string) : bool :=
  match prefix, s with
  | EmptyString, _ => true
  | String c p, String d t => Ascii.eqb c d && HasPrefix t p
  | String _ _, EmptyString => false
  end.

(** [strings.Contains]. *)
Fixpoint Contains (s substr : string) : bool :=
  HasPrefix s substr ||
  match s with
  | EmptyString => false
  | String _ t => Contains t substr
  end.

(** [strings.ToLower], on the ASCII letters. *)
Definition lowerByte (c : ascii) : ascii :=
  let n := nat_of_ascii c in
  if ((65 <=? n) && (n <=? 90))%nat then ascii_of_nat (n + 32) else c.

Fixpoint ToLower (s : string) : string :=
  match s with
  | EmptyString => EmptyString
  | String c t => String (lowerByte c) (ToLower t)
  end.

(** *** path/filepath, with '/' as the separator *)

Definition IsPathSeparator (c : ascii) : bool := Ascii.eqb c "/"%char.

Fixpoint dropSeps (l : list ascii) : list ascii :=
  match l with
  | c :: t => if IsPathSeparator c then dropSeps t else l
  | [] => []
  end.

Fixpoint takeElem (l : list ascii) : list ascii :=
  match l with
  | c :: t => if IsPathSeparator c then [] else c :: takeElem t
  | [] => []
  end.

(** [filepath.Base]: strip the trailing separators, keep what follows the
    last separator; "." for the empty path and "/" for a path of
    separators only.  The path is scanned from its end. *)
Definition Base (path : string) : string :=
  match path with
  | EmptyString => "."
  | _ =>
      let stripped := dropSeps (rev (list_ascii_of_string path)) in
      match takeElem stripped with
      | [] => "/"
      | e => string_of_list_ascii (rev e)
      end
  end.

Fixpoint dropElem (l : list ascii) : list ascii :=
  match l with
  | c :: t => if IsPathSeparator c then l else dropElem t
  | [] => []
  end.

(** The parent [os.MkdirAll] recurses on: the path without its trailing
    separators and without its last element ([path[:i+1]] after the two
    backward scans), named as the directory is named elsewhere, without
    trailing separators; "/" for the root and "" when there is none. *)
Definition parentDir (path : string) : string :=
  let rest := dropElem (dropSeps (rev (list_ascii_of_string path))) in
  match dropSeps rest with
  | [] => match rest with [] => "" | _ => "/" end
  | r => string_of_list_ascii (rev r)
  end.

(** *** strconv: decimal formatting and parsing of int64 *)

Definition digitChar (d : Z) : ascii := ascii_of_nat (48 + Z.to_nat d).

Definition digitVal (c : ascii) : option Z :=
  let n := nat_of_ascii c in
  if ((48 <=? n) && (n <=? 57))%nat then Some (Z.of_nat n - 48) else None.

(** The digits of [n >= 0], least significant first into the front of [acc];
    twenty rounds cover every 64-bit value. *)
Fixpoint fmtBits (fuel : nat) (n : Z) (acc : string) : string :=
  match fuel with
  | O => acc
  | S f =>
      let acc' := String (digitChar (n mod 10)) acc in
      if n <? 10 then acc' else fmtBits f (n / 10) acc'
  end.

(** [fmt.Sprintf("%d", z)] for an int64 [z]. *)
Definition FormatInt (z : Z) : string :=
  if z <? 0 then String "-"%char (fmtBits 20 (- z) "") else fmtBits 20 z "".

Inductive NumError : Type := ErrSyntax | ErrRange.

(** The digit loop of [strconv.ParseUint(s, 10, 64)]. *)
Fixpoint parseDigits (s : string) (n : Z) : NumError + Z :=
  match s with
  | EmptyString => inr n
  | String c t =>
      match digitVal c with
      | None => inl ErrSyntax
      | Some d =>
          let n1 := n * 10 + d in
          if maxUint64 <? n1 then inl ErrRange else parseDigits t n1
      end
  end.

Definition ParseUint (s : string) : NumError + Z :=
  match s with
  | EmptyString => inl ErrSyntax
  | _ => parseDigits s 0
  end.

(** [strconv.ParseInt(s, 10, 64)]. *)
Definition ParseInt (s : string) : NumError + Z :=
  match s with
  | EmptyString => inl ErrSyntax
  | String c t =>
      let '(isNeg, s') :=
        if Ascii.eqb c "+"%char then (false, t)
        else if Ascii.eqb c "-"%char then (true, t)
        else (false, s) in
      match ParseUint s' with
      | inl e => inl e
      | inr un =>
          let cutoff := 2 ^ 63 in
          if negb isNeg && (cutoff <=? un) then inl ErrRange
          else if isNeg && (cutoff <? un) then inl ErrRange
          else inr (if isNeg then - un else un)
      end
  end.

End Go.

(** ** The world the program runs in *)

Inductive error : Type :=
| ENotExist                 (* os: no such file or directory *)
| EExist                    (* os: file exists *)
| EIsDir                    (* os: is a directory *)
| ENotDir                   (* os: not a directory *)
| ENoSuchKey                (* store: the object does not exist *)
| ENoSuchBucket             (* store: the bucket does not exist *)
| EBucketExists             (* store: the bucket already exists *)
| EFault                    (* an I/O or network failure *)
| Errorf (msg : string)                 (* fmt.Errorf without %w *)
| Wrapf (msg : string) (e : error).     (* fmt.Errorf("...: %w", e) *)

(** [os.IsNotExist]. *)
Definition IsNotExist (e : error) : bool :=
  match e with ENotExist => true | _ => false end.

(** A local file or directory. *)
Record File : Type := mkFile {
  data : string;
  mtime : Go.Time;
  isDir : bool
}.

(** A stored object; [userMeta] holds the user metadata under the keys the
    store reports them with, that is without the "X-Amz-Meta-" prefix. *)
Record Object : Type := mkObject {
  body : string;
  userMeta : gmap string string;
  lastModified : Go.Time
}.

(** The external operations a run performs, in the order performed. *)
Inductive Event : Type :=
| EvStat (path : string)
| EvReadDir (path : string)
| EvOpen (path : string)
| EvCreate (path : string)
| EvWrite (path : string)
| EvMkdir (path : string)
| EvMkdirAll (path : string)
| EvChtimes (path : string) (t : Go.Time)
| EvRemove (path : string)
| EvBucketExists
| EvMakeBucket
| EvStatObject (name : string)
| EvListObjects
| EvGetObject (name path : string)
| EvPutObject (name path : string) (meta : gmap string string)
| EvProcesses
| EvLog (format : string).

(** [faults n] tells whether the [n]-th fallible operation of the run fails
    for an external reason (I/O error, network error); [clock n] is the wall
    clock read at step [n].  Both are indexed by [steps]. *)
Record World : Type := mkWorld {
  fs : gmap string File;
  bucket : option (gmap string Object);
  procs : option (list (option string));
  faults : nat -> bool;
  clock : nat -> Go.Time;
  steps : nat;
  trace : list Event
}.

Definition IO (A : Type) : Type := World -> A * World.

Definition ret {A} (a : A) : IO A := fun w => (a, w).

Definition bind {A B} (c : IO A) (k : A -> IO B) : IO B :=
  fun w => let '(a, w') := c w in k a w'.

Notation "x <- c ;; k" := (bind c (fun x => k))
  (at level 100, c at next level, right associativity).
Notation "c ;;; k" := (bind c (fun _ => k))
  (at level 100, right associativity).

Definition setFs (f : gmap string File -> gmap string File) : IO unit :=
  fun w => (tt, mkWorld (f (fs w)) (bucket w) (procs w) (faults w) (clock w)
                        (steps w) (trace w)).

Definition setBucket (b : option (gmap string Object)) : IO unit :=
  fun w => (tt, mkWorld (fs w) b (procs w) (faults w) (clock w)
                        (steps w) (trace w)).

Definition emit (e : Event) : IO unit :=
  fun w => (tt, mkWorld (fs w) (bucket w) (procs w) (faults w) (clock w)
                        (steps w) (trace w ++ [e])).

(** Advance the step counter, returning the fault flag of the step. *)
Definition step : IO bool :=
  fun w => (faults w (steps w),
            mkWorld (fs w) (bucket w) (procs w) (faults w) (clock w)
                    (S (steps w)) (trace w)).

(** [time.Now()]. *)
Definition Now : IO Go.Time :=
  fun w => (clock w (steps w),
            mkWorld (fs w) (bucket w) (procs w) (faults w) (clock w)
                    (S (steps w)) (trace w)).

Definition getFs : IO (gmap string File) := fun w => (fs w, w).
Definition getBucket : IO (option (gmap string Object)) := fun w => (bucket w, w).
Definition getProcs : IO (option (list (option string))) := fun w => (procs w, w).

(** [log.Printf] and friends: the format string is recorded. *)
Definition log (format : string) : IO unit := emit (EvLog format).

(** A fallible external operation: recorded, then failed when the schedule
    says so, else run. *)
Definition external {A} (e : Event) (op : IO (error + A)) : IO (error + A) :=
  emit e ;;;
  failed <- step ;;
  if failed : bool then ret (inl EFault) else op.

(** *** package os *)

Record FileInfo : Type := mkFileInfo {
  fiName : string;
  fiModTime : Go.Time;
  fiIsDir : bool;
  fiSize : Z
}.

Definition infoOf (path : string) (f : File) : FileInfo :=
  mkFileInfo (Go.Base path) (mtime f) (isDir f) (Z.of_nat (String.length (data f))).

Module os.

Definition Stat (path : string) : IO (error + FileInfo) :=
  external (EvStat path)
    (m <- getFs ;;
     match m !! path with
     | None => ret (inl ENotExist)
     | Some f => ret (inr (infoOf path f))
     end).

(** [os.Open] followed by reading the whole file, as [io.Copy] and
    [os.ReadFile] do. *)
Definition Open (path : string) : IO (error + string) :=
  external (EvOpen path)
    (m <- getFs ;;
     match m !! path with
     | None => ret (inl ENotExist)
     | Some f => if isDir f then ret (inl EIsDir) else ret (inr (data f))
     end).

(** [os.Create] and [os.OpenFile] with O_CREATE|O_TRUNC: the file exists
    and is empty afterwards. *)
Definition Create (path : string) : IO (error + unit) :=
  external (EvCreate path)
    (m <- getFs ;;
     match m !! path with
     | Some f =>
         if isDir f then ret (inl EIsDir)
         else now <- Now ;; setFs (insert path (mkFile "" now false)) ;;; ret (inr tt)
     | None =>
         now <- Now ;; setFs (insert path (mkFile "" now false)) ;;; ret (inr tt)
     end).

(** Writing [bytes] through a handle on [path]. *)
Definition Write (path bytes : string) : IO (error + unit) :=
  external (EvWrite path)
    (now <- Now ;; setFs (insert path (mkFile bytes now false)) ;;; ret (inr tt)).

Definition ReadFile (path : string) : IO (error + string) := Open path.

(** [os.WriteFile]: open with truncation, then write. *)
Definition WriteFile (path bytes : string) : IO (error + unit) :=
  r <- Create path ;;
  match r with
  | inl e => ret (inl e)
  | inr _ => Write path bytes
  end.

Definition Mkdir (path : string) : IO (error + unit) :=
  external (EvMkdir path)
    (m <- getFs ;;
     match m !! path with
     | Some _ => ret (inl EExist)
     | None => now <- Now ;; setFs (insert path (mkFile "" now true)) ;;; ret (inr tt)
     end).

(** The recursion of [os.MkdirAll] on the parents: a path that is there
    must be a directory; a missing one is made once its own parent is
    there.  The root always exists, and a relative path has no parent above
    its first element.  The parent is shorter than the path, so [fuel] at
    the length of the path is never used up. *)
Fixpoint mkdirParents (fuel : nat) (path : string) (now : Go.Time)
    (m : gmap string File) : error + gmap string File :=
  match fuel with
  | O => inr m
  | S n =>
      if String.eqb path "" || String.eqb path "/" then inr m
      else match m !! path with
           | Some f => if isDir f then inr m else inl ENotDir
           | None =>
               match mkdirParents n (Go.parentDir path) now m with
               | inl e => inl e
               | inr m' => inr (<[path := mkFile "" now true]> m')
               end
           end
  end.

(** The parents [os.MkdirAll] looks at for a path, nearest first. *)
Fixpoint ancestors (fuel : nat) (path : string) : list string :=
  match fuel with
  | O => []
  | S n =>
      if String.eqb path "" || String.eqb path "/" then []
      else path :: ancestors n (Go.parentDir path)
  end.

(** [os.MkdirAll]: nothing to do for a directory, an error for a file and
    for the empty path; else every missing parent is made, then the path. *)
Definition MkdirAll (path : string) : IO (error + unit) :=
  external (EvMkdirAll path)
    (m <- getFs ;;
     match m !! path with
     | Some f => if isDir f then ret (inr tt) else ret (inl ENotDir)
     | None =>
         if String.eqb path "" then ret (inl ENotExist)
         else
           now <- Now ;;
           match mkdirParents (String.length path) (Go.parentDir path) now m with
           | inl e => ret (inl e)
           | inr m' =>
               setFs (fun _ => <[path := mkFile "" now true]> m') ;;; ret (inr tt)
           end
     end).

Definition Chtimes (path : string) (t : Go.Time) : IO (error + unit) :=
  external (EvChtimes path t)
    (m <- getFs ;;
     match m !! path with
     | None => ret (inl ENotExist)
     | Some f => setFs (insert path (mkFile (data f) t (isDir f))) ;;; ret (inr tt)
     end).

Definition Remove (path : string) : IO (error + unit) :=
  external (EvRemove path)
    (m <- getFs ;;
     match m !! path with
     | None => ret (inl ENotExist)
     | Some _ => setFs (delete path) ;;; ret (inr tt)
     end).

End os.

(** ** What the platform provides: path cleaning, the temporary directory
    and the rendering of a time with the layout "2006-01-02_15-04-05.000000" *)

Class Platform : Type := {
  Clean : string -> string;            (* filepath.Clean *)
  Dir : string -> string;              (* filepath.Dir *)
  Join : string -> string -> string;   (* filepath.Join *)
  TempDir : string;                    (* os.TempDir() *)
  FormatStamp : Go.Time -> string      (* t.Format("2006-01-02_15-04-05.000000") *)
}.

Record DirEntry : Type := mkDirEntry {
  deName : string;
  deIsDir : bool
}.

Section WithPlatform.
Context `{Platform}.

(** [os.ReadDir]: the entries directly under [path]. *)
Definition ReadDir (path : string) : IO (error + list DirEntry) :=
  external (EvReadDir path)
    (m <- getFs ;;
     match m !! path with
     | None => ret (inl ENotExist)
     | Some d =>
         if isDir d then
           ret (inr (omap (fun kf : string * File =>
                        if decide (Dir kf.1 = Clean path /\ kf.1 <> Clean path)
                        then Some (mkDirEntry (Go.Base kf.1) (isDir kf.2))
                        else None)
                      (map_to_list m)))
         else ret (inl ENotDir)
     end).

End WithPlatform.

(** *** The object-store client (minio-go) *)

Module minio.

Record ObjectInfo : Type := mkObjectInfo {
  Key : string;
  Size : Z;
  LastModified : Go.Time;
  UserMetadata : gmap string string;
  Err : option error
}.

Definition amzMetaPrefix : string := "X-Amz-Meta-".

Definition stripMetaPrefix (k : string) : string :=
  if Go.HasPrefix k amzMetaPrefix
  then substring (String.length amzMetaPrefix)
                 (String.length k - String.length amzMetaPrefix) k
  else k.

(** User metadata as the store hands it back: keyed without the prefix. *)
Definition storedMeta (m : gmap string string) : gmap string string :=
  list_to_map (map (fun kv : string * string => (stripMetaPrefix kv.1, kv.2))
                   (map_to_list m)).

Definition infoOfObject (name : string) (o : Object) : ObjectInfo :=
  mkObjectInfo name (Z.of_nat (String.length (body o))) (lastModified o)
               (userMeta o) None.

Definition BucketExists : IO (error + bool) :=
  external EvBucketExists
    (b <- getBucket ;;
     match b with Some _ => ret (inr true) | None => ret (inr false) end).

Definition MakeBucket : IO (error + unit) :=
  external EvMakeBucket
    (b <- getBucket ;;
     match b with
     | Some _ => ret (inl EBucketExists)
     | None => setBucket (Some ∅) ;;; ret (inr tt)
     end).

Definition StatObject (name : string) : IO (error + ObjectInfo) :=
  external (EvStatObject name)
    (b <- getBucket ;;
     match b with
     | None => ret (inl ENoSuchBucket)
     | Some objs =>
         match objs !! name with
         | None => ret (inl ENoSuchKey)
         | Some o => ret (inr (infoOfObject name o))
         end
     end).

(** [ListObjects]: the listing carries no user metadata; a failure is
    delivered as an item whose [Err] is set. *)
Definition ListObjects : IO (list ObjectInfo) :=
  emit EvListObjects ;;;
  failed <- step ;;
  b <- getBucket ;;
  if failed : bool then ret [mkObjectInfo "" 0 0 ∅ (Some EFault)]
  else match b with
       | None => ret [mkObjectInfo "" 0 0 ∅ (Some ENoSuchBucket)]
       | Some objs =>
           ret (map (fun ko : string * Object =>
                       mkObjectInfo ko.1 (Z.of_nat (String.length (body ko.2)))
                                    (lastModified ko.2) ∅ None)
                    (map_to_list objs))
       end.

(** [FGetObject]: the object's bytes land in the file at [path]. *)
Definition FGetObject (name path : string) : IO (error + unit) :=
  external (EvGetObject name path)
    (b <- getBucket ;;
     m <- getFs ;;
     match b with
     | None => ret (inl ENoSuchBucket)
     | Some objs =>
         match objs !! name with
         | None => ret (inl ENoSuchKey)
         | Some o =>
             match m !! path with
             | Some (mkFile _ _ true) => ret (inl EIsDir)
             | _ => now <- Now ;;
                    setFs (insert path (mkFile (body o) now false)) ;;;
                    ret (inr tt)
             end
         end
     end).

(** [FPutObject]: the bytes of the file at [path] are stored under [name]
    with the given user metadata. *)
Definition FPutObject (name path : string) (meta : gmap string string)
  : IO (error + unit) :=
  external (EvPutObject name path meta)
    (b <- getBucket ;;
     m <- getFs ;;
     match m !! path with
     | None => ret (inl ENotExist)
     | Some f =>
         if isDir f then ret (inl EIsDir)
         else match b with
              | None => ret (inl ENoSuchBucket)
              | Some objs =>
                  now <- Now ;;
                  setBucket (Some (<[name := mkObject (data f) (storedMeta meta) now]> objs)) ;;;
                  ret (inr tt)
              end
     end).

End minio.

(** [process.Processes()]: the names of the running processes ([None] for a
    process whose name cannot be read), or a failure. *)
Definition Processes : IO (error + list (option string)) :=
  emit EvProcesses ;;;
  ps <- getProcs ;;
  match ps with
  | None => ret (inl EFault)
  | Some l => ret (inr l)
  end.

(** [for _, x := range xs { body }]. *)
Fixpoint forEach {A} (xs : list A) (body : A -> IO unit) : IO unit :=
  match xs with
  | [] => ret tt
  | x :: rest => body x ;;; forEach rest body
  end.

(** A change notification (fsnotify.Event). *)
Record FsEvent : Type := mkFsEvent {
  evName : string;
  evOp : Z
}.

Module fsnotify.
Definition Create : Z := 1.
Definition Write : Z := 2.
Definition Remove : Z := 4.
Definition Rename : Z := 8.
Definition Chmod : Z := 16.
End fsnotify.

(** ** main.go: the single-file program *)

Module Main.

Definition timeTolerance : Go.Duration := 500 * Go.Millisecond.
Definition eventCooldown : Go.Duration := 1 * Go.Second.

(** The package-level settings filled in at start-up. *)
Record Config : Type := mkConfig {
  watchPath : string;
  processName : string;
  backupDir : string;
  bucketName : string
}.

Fixpoint anyProcessMatches (processes : list (option string)) (name : string) : bool :=
  match processes with
  | [] => false
  | p :: rest =>
      match p with
      | Some exeName =>
          if Go.Contains (Go.ToLower exeName) name then true
          else anyProcessMatches rest name
      | None => anyProcessMatches rest name
      end
  end.

Definition isProcessRunning (name : string) : IO bool :=
  r <- Processes ;;
  match r with
  | inl _ => log "Error listing processes: %v" ;;; ret false
  | inr processes => ret (anyProcessMatches processes (Go.ToLower name))
  end.

Definition shouldSyncFile (filePath : string) : bool :=
  let name := Go.Base filePath in
  Go.HasSuffix name ".sav" && negb (String.eqb name "EnhancedInputUserSettings.sav").

Definition fileExists (path : string) : IO bool :=
  r <- os.Stat path ;;
  ret (match r with inr _ => true | inl _ => false end).

(** [copyFile]: open the source, create the destination, [io.Copy]; the
    bytes copied are those the source holds when it is opened. *)
Definition copyFile (src dst : string) : IO (option error) :=
  r <- os.Open src ;;
  match r with
  | inl err => ret (Some err)
  | inr bytes =>
      c <- os.Create dst ;;
      match c with
      | inl err => ret (Some err)
      | inr _ =>
          cp <- os.Write dst bytes ;;
          ret (match cp with inl err => Some err | inr _ => None end)
      end
  end.

Definition ensureFolderExists (path : string) : IO (option error) :=
  r <- os.Stat path ;;
  match r with
  | inl err =>
      if IsNotExist err then
        mk <- os.MkdirAll path ;;
        match mk with
        | inl err' => ret (Some err')
        | inr _ => log "Created folder: %s" ;;; ret None
        end
      else ret (Some err)
  | inr info =>
      if negb (fiIsDir info)
      then ret (Some (Errorf "path exists but is not a folder: %s"))
      else ret None
  end.

Definition getCloudModTime (stat : minio.ObjectInfo) : IO Go.Time :=
  let cloudModTime := minio.LastModified stat in
  let rawModTime := default "" (minio.UserMetadata stat !! "Modtime") in
  if String.eqb rawModTime "" then ret (Go.UTC cloudModTime)
  else match Go.ParseInt rawModTime with
       | inl _ => log "Invalid modtime metadata %q: %v" ;;; ret (Go.UTC cloudModTime)
       | inr ts => ret (Go.UTC (Go.Unix0 ts))
       end.

Section WithConfig.
Context `{Platform} (cfg : Config).

Definition createBackupTimeFolder : IO (error + string) :=
  e <- ensureFolderExists (backupDir cfg) ;;
  match e with
  | Some err => ret (inl err)
  | None =>
      now <- Now ;;
      let timeFolder := FormatStamp now in
      let backupPath := Join (backupDir cfg) timeFolder in
      mk <- os.Mkdir backupPath ;;
      match mk with
      | inl err => ret (inl err)
      | inr _ => ret (inr backupPath)
      end
  end.

Definition uploadToCloud (filePath objectName : string) : IO unit :=
  ex <- minio.BucketExists ;;
  match ex with
  | inl _ => log "error checking bucket: %v"
  | inr exists_ =>
      mk <- (if negb exists_ then minio.MakeBucket else ret (inr tt)) ;;
      match mk with
      | inl _ => log "failed to create bucket: %v"
      | inr _ =>
          now <- Now ;;
          st <- os.Stat filePath ;;
          let modTime :=
            match st with
            | inr info => Go.UTC (fiModTime info)
            | inl _ => Go.UTC now
            end in
          let userMeta : gmap string string :=
            <["X-Amz-Meta-Modtime" := Go.FormatInt (Go.UnixNano modTime)]>
              (<["X-Amz-Meta-ModtimeString" := FormatStamp modTime]> ∅) in
          put <- minio.FPutObject objectName filePath userMeta ;;
          match put with
          | inl _ => log "Failed to upload file: %v"
          | inr _ => log "Uploaded file %s to bucket %s"
          end
      end
  end.

Definition backupAndUpload (filePath : string) : IO unit :=
  r <- createBackupTimeFolder ;;
  match r with
  | inl _ => log "failed to create backup folder: %v"
  | inr backupPath =>
      let fileName := Go.Base filePath in
      let backupFile := Join backupPath fileName in
      e <- copyFile filePath backupFile ;;
      (match e with
       | Some _ => log "failed to backup file: %s"
       | None => ret tt
       end) ;;;
      uploadToCloud filePath fileName
  end.

Definition backupAndReplace (localPath newPath : string) : IO unit :=
  ex <- fileExists localPath ;;
  backedUp <-
    (if ex : bool then
       r <- createBackupTimeFolder ;;
       match r with
       | inl _ => log "failed to create backup folder: %v" ;;; ret false
       | inr backupPath =>
           let backupFile := Join backupPath (Go.Base localPath) in
           e <- copyFile localPath backupFile ;;
           match e with
           | Some _ => log "failed to backup file %s to %s" ;;; ret false
           | None => ret true
           end
       end
     else ret true) ;;
  if backedUp : bool then
    e <- copyFile newPath localPath ;;
    match e with
    | Some _ => log "failed to copy cloud file %s to %s"
    | None => log "replaced %s with cloud version"
    end
  else ret tt.

Definition checkCloudAndSync (filePath : string) : IO unit :=
  st <- os.Stat filePath ;;
  match st with
  | inl _ => ret tt
  | inr info =>
      if fiIsDir info then ret tt
      else
        let objectName := Go.Base filePath in
        so <- minio.StatObject objectName ;;
        match so with
        | inr stat =>
            cloudModTime <- getCloudModTime stat ;;
            let localFileTime := Go.UTC (fiModTime info) in
            let diff := Go.Sub cloudModTime localFileTime in
            if timeTolerance <? diff then
              log "file compare cloudtime: %v localfiletime: %v" ;;;
              log "Cloud has newer version of %s. Downloading..." ;;;
              let tempPath := Join TempDir (objectName +:+ ".cloud") in
              g <- minio.FGetObject objectName tempPath ;;
              match g with
              | inr _ =>
                  backupAndReplace filePath tempPath ;;;
                  _ <- os.Chtimes filePath cloudModTime ;;
                  ret tt
              | inl _ => ret tt
              end
            else if diff <? Go.neg timeTolerance then
              log "file compare cloudtime: %v localfiletime: %v" ;;;
              log "Local file %s is newer. Uploading..." ;;;
              backupAndUpload filePath
            else ret tt
        | inl _ => backupAndUpload filePath
        end
  end.

(** The body of the loop of [syncFromCloud] for one listed object; each
    [continue] ends the body. *)
Definition syncObject (object : minio.ObjectInfo) : IO unit :=
  match minio.Err object with
  | Some _ => log "Error listing object: %v"
  | None =>
      let objectName := minio.Key object in
      if negb (shouldSyncFile objectName) then ret tt
      else
        let localPath := Join (watchPath cfg) (Go.Base objectName) in
        li <- os.Stat localPath ;;
        (* localInfo is nil when the file does not exist *)
        match (match li with
               | inr info => inr (Some info)
               | inl err => if IsNotExist err then inr None else inl err
               end) with
        | inl _ => log "Failed to stat local file %s: %v"
        | inr localInfo =>
            so <- minio.StatObject objectName ;;
            match so with
            | inl _ => log "Failed to stat object %s: %v"
            | inr stat =>
                cloudModTime <- getCloudModTime stat ;;
                if match localInfo with
                   | None => true
                   | Some info =>
                       timeTolerance <? Go.Sub cloudModTime (Go.UTC (fiModTime info))
                   end
                then
                  log "Cloud has newer version of %s. Downloading and replacing..." ;;;
                  let tempPath := Join TempDir (objectName +:+ ".download") in
                  g <- minio.FGetObject objectName tempPath ;;
                  match g with
                  | inl _ => log "Failed to download %s: %v"
                  | inr _ =>
                      backupAndReplace localPath tempPath ;;;
                      _ <- os.Chtimes localPath cloudModTime ;;
                      ret tt
                  end
                else ret tt
            end
        end
  end.

Definition syncFromCloud : IO unit :=
  objects <- minio.ListObjects ;;
  forEach objects syncObject.

Definition localAndCloudSync : IO unit :=
  r <- ReadDir (watchPath cfg) ;;
  match r with
  | inl _ => log "Failed to read watch directory: %v"
  | inr entries =>
      forEach entries (fun entry =>
        if deIsDir entry then ret tt
        else
          let path := Join (watchPath cfg) (deName entry) in
          if shouldSyncFile path then checkCloudAndSync path else ret tt) ;;;
      syncFromCloud
  end.

(** What the [select] of the main loop can receive. *)
Inductive Selected : Type :=
| OnEvent (event : FsEvent)      (* <-watcher.Events *)
| OnError (err : error)          (* <-watcher.Errors *)
| OnTimer                        (* <-time.After(10s) *)
| OnDone.                        (* <-ctx.Done() *)

(** One iteration of the [for { select { ... } }] of [main], threading the
    package-level map [lastEventTime]; the boolean tells whether the loop
    goes on. *)
Definition mainIteration (sel : Selected) (lastEventTime : gmap string Go.Time)
  : IO (gmap string Go.Time * bool) :=
  match sel with
  | OnEvent event =>
      if negb (Z.land (evOp event) (Z.lor fsnotify.Write fsnotify.Create) =? 0) then
        running <- (if negb (String.eqb (processName cfg) "")
                    then isProcessRunning (processName cfg) else ret false) ;;
        if running : bool then
          log "Process '%s' is running. Sync paused." ;;; ret (lastEventTime, true)
        else if shouldSyncFile (evName event)
                && bool_decide (Dir (evName event) = Clean (watchPath cfg)) then
          now <- Now ;;
          let now := Go.UTC now in
          if match lastEventTime !! evName event with
             | None => true
             | Some last => eventCooldown <? Go.Sub now last
             end
          then
            log "Detected change: %s" ;;;
            checkCloudAndSync (evName event) ;;;
            ret (<[evName event := now]> lastEventTime, true)
          else ret (lastEventTime, true)
        else ret (lastEventTime, true)
      else ret (lastEventTime, true)
  | OnError _ => log "Watcher error:" ;;; ret (lastEventTime, true)
  | OnTimer =>
      idle <- (if negb (String.eqb (processName cfg) "")
               then r <- isProcessRunning (processName cfg) ;; ret (negb r)
               else ret false) ;;
      (if idle : bool then localAndCloudSync else ret tt) ;;;
      ret (lastEventTime, true)
  | OnDone => ret (lastEventTime, false)
  end.

End WithConfig.

End Main.

(** ** package watcher *)

Module Watcher.

(** [FileWatcher], without the handle on the notification facility. *)
Record FileWatcher : Type := mkFileWatcher {
  watchPath : string;
  eventCooldown : Go.Duration;
  lastEventTime : gmap string Go.Time
}.

Definition shouldSyncFile (filePath : string) : bool :=
  let name := Go.Base filePath in
  Go.HasSuffix name ".sav" && negb (String.eqb name "EnhancedInputUserSettings.sav").

Section WithPlatform.
Context `{Platform}.

(** [ShouldProcess] returns its verdict and the watcher with the map as the
    call leaves it. *)
Definition ShouldProcess (fw : FileWatcher) (event : FsEvent) : IO (bool * FileWatcher) :=
  if Z.land (evOp event) (Z.lor fsnotify.Write fsnotify.Create) =? 0 then ret (false, fw)
  else if negb (shouldSyncFile (evName event)) then ret (false, fw)
  else if negb (bool_decide (Dir (evName event) = Clean (watchPath fw))) then ret (false, fw)
  else
    now <- Now ;;
    match lastEventTime fw !! evName event with
    | Some last =>
        if Go.Sub now last <=? eventCooldown fw then ret (false, fw)
        else ret (true, mkFileWatcher (watchPath fw) (eventCooldown fw)
                          (<[evName event := now]> (lastEventTime fw)))
    | None =>
        ret (true, mkFileWatcher (watchPath fw) (eventCooldown fw)
                     (<[evName event := now]> (lastEventTime fw)))
    end.

End WithPlatform.

End Watcher.

(** ** package storage *)

Module Storage.

(** [FileInfo]; the ETag, which nothing reads, is left out. *)
Record FileInfo : Type := mkFileInfo {
  Name : string;
  ModTime : Go.Time;
  Size : Z
}.

Definition extractModTime (stat : minio.ObjectInfo) : Go.Time :=
  let cloudModTime := minio.LastModified stat in
  let rawModTime := default "" (minio.UserMetadata stat !! "Modtime") in
  if String.eqb rawModTime "" then Go.UTC cloudModTime
  else match Go.ParseInt rawModTime with
       | inr ts => Go.UTC (Go.Unix0 ts)
       | inl _ => Go.UTC cloudModTime
       end.

Definition EnsureBucket : IO (option error) :=
  ex <- minio.BucketExists ;;
  match ex with
  | inl err => ret (Some (Wrapf "failed to check bucket existence: %w" err))
  | inr exists_ =>
      if negb exists_ then
        mk <- minio.MakeBucket ;;
        match mk with
        | inl err => ret (Some (Wrapf "failed to create bucket: %w" err))
        | inr _ => ret None
        end
      else ret None
  end.

Section WithPlatform.
Context `{Platform}.

Definition Upload (localPath objectName : string) : IO (option error) :=
  st <- os.Stat localPath ;;
  match st with
  | inl err => ret (Some (Wrapf "failed to stat file: %w" err))
  | inr info =>
      let modTime := Go.UTC (fiModTime info) in
      let userMeta : gmap string string :=
        <["X-Amz-Meta-Modtime" := Go.FormatInt (Go.UnixNano modTime)]>
          (<["X-Amz-Meta-ModtimeString" := FormatStamp modTime]> ∅) in
      put <- minio.FPutObject objectName localPath userMeta ;;
      match put with
      | inl err => ret (Some (Wrapf "failed to upload file: %w" err))
      | inr _ => ret None
      end
  end.

End WithPlatform.

Definition Download (objectName localPath : string) : IO (option error) :=
  g <- minio.FGetObject objectName localPath ;;
  match g with
  | inl err => ret (Some (Wrapf "failed to download file: %w" err))
  | inr _ => ret None
  end.

Definition Stat (objectName : string) : IO (error + FileInfo) :=
  so <- minio.StatObject objectName ;;
  match so with
  | inl err => ret (inl (Wrapf "failed to stat object: %w" err))
  | inr stat =>
      let modTime := extractModTime stat in
      ret (inr (mkFileInfo (minio.Key stat) modTime (minio.Size stat)))
  end.

(** The loop of [List] over the listed objects: the first failure ends it. *)
Fixpoint listLoop (objects : list minio.ObjectInfo) (files : list FileInfo)
  : IO (error + list FileInfo) :=
  match objects with
  | [] => ret (inr files)
  | object :: rest =>
      match minio.Err object with
      | Some err => ret (inl (Wrapf "error listing objects: %w" err))
      | None =>
          so <- minio.StatObject (minio.Key object) ;;
          match so with
          | inl err => ret (inl (Wrapf "failed to stat object %s: %w" err))
          | inr stat =>
              let modTime := extractModTime stat in
              listLoop rest
                (files ++ [mkFileInfo (minio.Key object) modTime (minio.Size object)])
          end
      end
  end.

Definition List : IO (error + list FileInfo) :=
  objects <- minio.ListObjects ;;
  listLoop objects [].

End Storage.

(** ** package sync *)

Module Sync.

(** [SyncFileInfo]; the adapter copies the three fields of
    [Storage.FileInfo] one to one, so the two records are identified. *)
Definition SyncFileInfo : Type := Storage.FileInfo.

(** [Syncer]; its [storage] is the adapter over the client above. *)
Record Syncer : Type := mkSyncer {
  watchPath : string;
  backupDir : string;
  processName : string;
  timeTolerance : Go.Duration
}.

Definition shouldSyncFile (filePath : string) : bool :=
  let name := Go.Base filePath in
  Go.HasSuffix name ".sav" && negb (String.eqb name "EnhancedInputUserSettings.sav").

Definition fileExists (path : string) : IO bool :=
  r <- os.Stat path ;;
  ret (match r with inr _ => true | inl _ => false end).

Definition copyFile (src dst : string) : IO (option error) :=
  r <- os.ReadFile src ;;
  match r with
  | inl err => ret (Some (Wrapf "failed to read source: %w" err))
  | inr input =>
      wr <- os.WriteFile dst input ;;
      match wr with
      | inl err => ret (Some (Wrapf "failed to write destination: %w" err))
      | inr _ => ret None
      end
  end.

Definition ensureDir (path : string) : IO (option error) :=
  r <- os.Stat path ;;
  match r with
  | inl err =>
      if IsNotExist err then
        mk <- os.MkdirAll path ;;
        ret (match mk with inl e => Some e | inr _ => None end)
      else ret (Some (Wrapf "failed to stat directory: %w" err))
  | inr info =>
      if negb (fiIsDir info)
      then ret (Some (Errorf "path exists but is not a directory: %s"))
      else ret None
  end.

Fixpoint anyProcessMatches (processes : list (option string)) (name : string) : bool :=
  match processes with
  | [] => false
  | p :: rest =>
      match p with
      | Some exeName =>
          if Go.Contains (Go.ToLower exeName) name then true
          else anyProcessMatches rest name
      | None => anyProcessMatches rest name
      end
  end.

Definition IsProcessRunning (s : Syncer) : IO bool :=
  if String.eqb (processName s) "" then ret false
  else
    r <- Processes ;;
    match r with
    | inl _ => log "Error listing processes: %v" ;;; ret false
    | inr processes => ret (anyProcessMatches processes (Go.ToLower (processName s)))
    end.

Section WithPlatform.
Context `{Platform}.

Definition createTimestampedBackupDir (s : Syncer) : IO (error + string) :=
  e <- ensureDir (backupDir s) ;;
  match e with
  | Some err => ret (inl err)
  | None =>
      now <- Now ;;
      let timestamp := FormatStamp now in
      let backupPath := Join (backupDir s) timestamp in
      mk <- os.Mkdir backupPath ;;
      match mk with
      | inl err => ret (inl (Wrapf "failed to create timestamped backup directory: %w" err))
      | inr _ => ret (inr backupPath)
      end
  end.

Definition createBackup (s : Syncer) (filePath : string) : IO (option error) :=
  r <- createTimestampedBackupDir s ;;
  match r with
  | inl err => ret (Some (Wrapf "failed to create backup directory: %w" err))
  | inr backupPath =>
      let backupFile := Join backupPath (Go.Base filePath) in
      e <- copyFile filePath backupFile ;;
      match e with
      | Some err => ret (Some (Wrapf "failed to copy file to backup: %w" err))
      | None => log "Created backup: %s" ;;; ret None
      end
  end.

Definition backupAndUpload (s : Syncer) (filePath objectName : string) : IO (option error) :=
  ex <- fileExists filePath ;;
  b <- (if ex : bool then createBackup s filePath else ret None) ;;
  match b with
  | Some err => ret (Some (Wrapf "failed to create backup: %w" err))
  | None =>
      up <- Storage.Upload filePath objectName ;;
      match up with
      | Some err => ret (Some (Wrapf "failed to upload: %w" err))
      | None => log "Uploaded %s to cloud" ;;; ret None
      end
  end.

Definition downloadAndReplace (s : Syncer) (objectName localPath : string)
    (modTime : Go.Time) : IO (option error) :=
  ex <- fileExists localPath ;;
  b <- (if ex : bool then createBackup s localPath else ret None) ;;
  match b with
  | Some err => ret (Some (Wrapf "failed to create backup: %w" err))
  | None =>
      let tempPath := Join TempDir (objectName +:+ ".download") in
      dl <- Storage.Download objectName tempPath ;;
      match dl with
      | Some err => ret (Some (Wrapf "failed to download: %w" err))
      | None =>
          cp <- copyFile tempPath localPath ;;
          match cp with
          | Some err =>
              _ <- os.Remove tempPath ;;
              ret (Some (Wrapf "failed to replace local file: %w" err))
          | None =>
              _ <- os.Remove tempPath ;;
              ch <- os.Chtimes localPath modTime ;;
              (match ch with
               | inl _ => log "Warning: failed to set mod time on %s: %v"
               | inr _ => ret tt
               end) ;;;
              log "Downloaded and replaced %s" ;;;
              ret None
          end
      end
  end.

Definition SyncFile (s : Syncer) (filePath : string) : IO (option error) :=
  st <- os.Stat filePath ;;
  match st with
  | inl err => ret (Some (Wrapf "failed to stat file: %w" err))
  | inr info =>
      if fiIsDir info then ret (Some (Errorf "path is a directory, not a file"))
      else
        let objectName := Go.Base filePath in
        so <- Storage.Stat objectName ;;
        match so with
        | inl _ =>
            log "File %s not found in cloud, uploading..." ;;;
            backupAndUpload s filePath objectName
        | inr cloudInfo =>
            let localTime := Go.UTC (fiModTime info) in
            let cloudTime := Storage.ModTime cloudInfo in
            let diff := Go.Sub cloudTime localTime in
            if timeTolerance s <? diff then
              log "Cloud file %s is newer (cloud: %v, local: %v), downloading..." ;;;
              downloadAndReplace s objectName filePath cloudTime
            else if diff <? Go.neg (timeTolerance s) then
              log "Local file %s is newer (cloud: %v, local: %v), uploading..." ;;;
              backupAndUpload s filePath objectName
            else ret None
        end
  end.

Definition uploadLocalFiles (s : Syncer) : IO (option error) :=
  r <- ReadDir (watchPath s) ;;
  match r with
  | inl err => ret (Some (Wrapf "failed to read watch directory: %w" err))
  | inr entries =>
      forEach entries (fun entry =>
        if deIsDir entry then ret tt
        else
          let path := Join (watchPath s) (deName entry) in
          if negb (shouldSyncFile path) then ret tt
          else
            e <- SyncFile s path ;;
            match e with
            | Some _ => log "Failed to sync file %s: %v"
            | None => ret tt
            end) ;;;
      ret None
  end.

Definition downloadCloudFiles (s : Syncer) : IO (option error) :=
  r <- Storage.List ;;
  match r with
  | inl err => ret (Some (Wrapf "failed to list cloud files: %w" err))
  | inr cloudFiles =>
      forEach cloudFiles (fun cloudFile =>
        if negb (shouldSyncFile (Storage.Name cloudFile)) then ret tt
        else
          let localPath := Join (watchPath s) (Go.Base (Storage.Name cloudFile)) in
          li <- os.Stat localPath ;;
          match li with
          | inl err =>
              if IsNotExist err then
                log "Downloading new file from cloud: %s" ;;;
                e <- downloadAndReplace s (Storage.Name cloudFile) localPath
                       (Storage.ModTime cloudFile) ;;
                match e with
                | Some _ => log "Failed to download %s: %v"
                | None => ret tt
                end
              else log "Failed to stat local file %s: %v"
          | inr localInfo =>
              if timeTolerance s <?
                 Go.Sub (Storage.ModTime cloudFile) (Go.UTC (fiModTime localInfo))
              then
                log "Cloud file %s is newer, downloading..." ;;;
                e <- downloadAndReplace s (Storage.Name cloudFile) localPath
                       (Storage.ModTime cloudFile) ;;
                match e with
                | Some _ => log "Failed to download %s: %v"
                | None => ret tt
                end
              else ret tt
          end) ;;;
      ret None
  end.

Definition InitialSync (s : Syncer) : IO (option error) :=
  log "Starting initial sync..." ;;;
  e <- Storage.EnsureBucket ;;
  match e with
  | Some err => ret (Some (Wrapf "failed to ensure bucket: %w" err))
  | None =>
      u <- uploadLocalFiles s ;;
      match u with
      | Some err => ret (Some (Wrapf "failed to upload local files: %w" err))
      | None =>
          d <- downloadCloudFiles s ;;
          match d with
          | Some err => ret (Some (Wrapf "failed to download cloud files: %w" err))
          | None => log "Initial sync complete" ;;; ret None
          end
      end
  end.

End WithPlatform.

End Sync.

(** ** A concrete platform: slash-separated paths, "/tmp", times in UTC *)

Module Unix.

Fixpoint splitSlash (s : string) (cur : string) : list string :=
  match s with
  | EmptyString => [cur]
  | String c t =>
      if Go.IsPathSeparator c then cur :: splitSlash t ""
      else splitSlash t (cur +:+ String c "")
  end.

(** The elements kept by [filepath.Clean], innermost last. *)
Fixpoint cleanElems (rooted : bool) (elems : list string) (kept : list string)
  : list string :=
  match elems with
  | [] => kept
  | e :: rest =>
      if String.eqb e "" || String.eqb e "." then cleanElems rooted rest kept
      else if String.eqb e ".." then
        match rev kept with
        | top :: below =>
            if String.eqb top ".." then cleanElems rooted rest (kept ++ [".."])
            else cleanElems rooted rest (rev below)
        | [] =>
            if rooted then cleanElems rooted rest kept
            else cleanElems rooted rest (kept ++ [".."])
        end
      else cleanElems rooted rest (kept ++ [e])
  end.

Fixpoint joinSlash (elems : list string) : string :=
  match elems with
  | [] => ""
  | [e] => e
  | e :: rest => e +:+ "/" +:+ joinSlash rest
  end.

Definition Clean (path : string) : string :=
  match path with
  | EmptyString => "."
  | String c _ =>
      let rooted := Go.IsPathSeparator c in
      let out := (if rooted then "/" else "") +:+
                 joinSlash (cleanElems rooted (splitSlash path "") []) in
      if String.eqb out "" then "." else out
  end.

Fixpoint lastSlash (s : string) (i : nat) (found : nat) : nat :=
  match s with
  | EmptyString => found
  | String c t => lastSlash t (S i) (if Go.IsPathSeparator c then S i else found)
  end.

Definition Dir (path : string) : string :=
  Clean (substring 0 (lastSlash path 0 0) path).

Definition Join (a b : string) : string :=
  if negb (String.eqb a "") then Clean (a +:+ "/" +:+ b)
  else if negb (String.eqb b "") then Clean b
  else "".

Definition pad (width : nat) (n : Z) : string :=
  let s := Go.fmtBits 20 n "" in
  String.concat "" (repeat "0" (width - String.length s)) +:+ s.

(** Proleptic Gregorian date of a day count since 1970-01-01. *)
Definition civil (days : Z) : Z * Z * Z :=
  let z := days + 719468 in
  let era := z / 146097 in
  let doe := z - era * 146097 in
  let yoe := (doe - doe / 1460 + doe / 36524 - doe / 146096) / 365 in
  let doy := doe - (365 * yoe + yoe / 4 - yoe / 100) in
  let mp := (5 * doy + 2) / 153 in
  let d := doy - (153 * mp + 2) / 5 + 1 in
  let m := if mp <? 10 then mp + 3 else mp - 9 in
  let y := yoe + era * 400 + (if m <=? 2 then 1 else 0) in
  (y, m, d).

Definition FormatStamp (t : Go.Time) : string :=
  let secs := t / 1000000000 in
  let micros := (t mod 1000000000) / 1000 in
  let '(y, m, d) := civil (secs / 86400) in
  let sod := secs mod 86400 in
  pad 4 y +:+ "-" +:+ pad 2 m +:+ "-" +:+ pad 2 d +:+ "_" +:+
  pad 2 (sod / 3600) +:+ "-" +:+ pad 2 (sod mod 3600 / 60) +:+ "-" +:+
  pad 2 (sod mod 60) +:+ "." +:+ pad 6 micros.

End Unix.

#[global] Instance unixPlatform : Platform := {|
  Clean := Unix.Clean;
  Dir := Unix.Dir;
  Join := Unix.Join;
  TempDir := "/tmp";
  FormatStamp := Unix.FormatStamp
|}.


(** ** Definitions on the side of the specification *)

(** The decision taken for one file. *)
Inductive SyncDecision : Type := Upload | Download | NoOp.

(** The rule in the specification's words: with [diff] the remote time minus
    the local time, more than the tolerance downloads, less than minus the
    tolerance uploads, anything else does nothing. *)
Definition spec_decision (tolerance diff : Z) : SyncDecision :=
  if tolerance <? diff then Download
  else if diff <? - tolerance then Upload
  else NoOp.

Definition opposite (d : SyncDecision) : SyncDecision :=
  match d with
  | Upload => Download
  | Download => Upload
  | NoOp => NoOp
  end.

Section Perform.
Context `{Platform}.

(** What [Syncer.SyncFile] goes on to do once the two stats succeeded, by
    decision: the three branches of its comparison. *)
Definition syncPerform (s : Sync.Syncer) (filePath : string) (cloudTime : Go.Time)
    (d : SyncDecision) : IO (option error) :=
  match d with
  | Download =>
      log "Cloud file %s is newer (cloud: %v, local: %v), downloading..." ;;;
      Sync.downloadAndReplace s (Go.Base filePath) filePath cloudTime
  | Upload =>
      log "Local file %s is newer (cloud: %v, local: %v), uploading..." ;;;
      Sync.backupAndUpload s filePath (Go.Base filePath)
  | NoOp => ret None
  end.

(** The same for [checkCloudAndSync] of main.go. *)
Definition mainPerform (cfg : Main.Config) (filePath : string) (cloudModTime : Go.Time)
    (d : SyncDecision) : IO unit :=
  match d with
  | Download =>
      log "file compare cloudtime: %v localfiletime: %v" ;;;
      log "Cloud has newer version of %s. Downloading..." ;;;
      g <- minio.FGetObject (Go.Base filePath)
             (Join TempDir (Go.Base filePath +:+ ".cloud")) ;;
      match g with
      | inr _ =>
          Main.backupAndReplace cfg filePath
            (Join TempDir (Go.Base filePath +:+ ".cloud")) ;;;
          _ <- os.Chtimes filePath cloudModTime ;;
          ret tt
      | inl _ => ret tt
      end
  | Upload =>
      log "file compare cloudtime: %v localfiletime: %v" ;;;
      log "Local file %s is newer. Uploading..." ;;;
      Main.backupAndUpload cfg filePath
  | NoOp => ret tt
  end.

End Perform.

(** The remote transfers among the operations of a trace. *)
Definition isTransfer (e : Event) : bool :=
  match e with
  | EvGetObject _ _ | EvPutObject _ _ _ => true
  | _ => false
  end.

Definition transfers (t : list Event) : list Event := List.filter isTransfer t.

Arguments transfers : simpl never.
Arguments Go.parentDir : simpl never.
Arguments os.mkdirParents : simpl never.
Arguments os.ancestors : simpl never.

(** The watcher after accepting an event on [name] at [now]. *)
Definition accepted (fw : Watcher.FileWatcher) (name : string) (now : Go.Time)
  : Watcher.FileWatcher :=
  Watcher.mkFileWatcher (Watcher.watchPath fw) (Watcher.eventCooldown fw)
    (<[name := now]> (Watcher.lastEventTime fw)).

(** The bucket check at the head of [uploadToCloud] lets the upload go on:
    the bucket is there, or it has just been made. *)
Definition bucketReady (w w1 : World) : Prop :=
  minio.BucketExists w = (inr true, w1) \/
  exists w', minio.BucketExists w = (inr false, w') /\
             minio.MakeBucket w' = (inr tt, w1).

(** [adds n c]: running [c] performs at most [n] remote transfers. *)
Definition adds {A} (n : nat) (c : IO A) : Prop :=
  forall w, (length (transfers (trace (snd (c w)))) <= length (transfers (trace w)) + n)%nat.

(** [before a b t]: in the trace [t] the operation [a] comes before [b]. *)
Definition before (a b : Event) (t : list Event) : Prop :=
  exists t1 t2 t3, t = (t1 ++ a :: t2 ++ b :: t3)%list.

Section BackupPlace.
Context `{Platform}.

(** The place of the next backup is free: the backup root is a directory,
    and at no instant of the clock the folder named after it, or the copy
    inside that folder, exists yet. *)
Definition backupFree (w : World) (backupDir filePath : string) : Prop :=
  (exists d, fs w !! backupDir = Some d /\ isDir d = true) /\
  forall k,
    let folder := Join backupDir (FormatStamp (clock w k)) in
    fs w !! folder = None /\
    fs w !! Join folder (Go.Base filePath) = None /\
    Join folder (Go.Base filePath) <> folder.

(** Back up, then upload: a copy of [bytes] is in a folder of the backup
    root, the bucket [objs] has gained the object named after the file with
    the same bytes, and the copy was written before the object was put. *)
Definition backedUpThenUploaded (w' : World) (backupDir filePath bytes : string)
    (objs : gmap string Object) : Prop :=
  exists stamp t meta t',
    fs w' !! Join (Join backupDir stamp) (Go.Base filePath) = Some (mkFile bytes t false) /\
    bucket w' =
      Some (<[Go.Base filePath := mkObject bytes (minio.storedMeta meta) t']> objs) /\
    before (EvWrite (Join (Join backupDir stamp) (Go.Base filePath)))
           (EvPutObject (Go.Base filePath) filePath meta) (trace w').

End BackupPlace.

(** ** Observations on a world *)

Definition localData (w : World) (path : string) : option string :=
  data <$> fs w !! path.

Definition localMtime (w : World) (path : string) : option Go.Time :=
  mtime <$> fs w !! path.

Definition remoteBody (w : World) (name : string) : option string :=
  match bucket w with
  | Some objs => body <$> objs !! name
  | None => None
  end.

(** The paths of the regular files that hold exactly [bytes]. *)
Definition copiesOf (w : World) (bytes : string) : list string :=
  omap (fun kf : string * File =>
          if negb (isDir kf.2) && String.eqb (data kf.2) bytes then Some kf.1 else None)
       (map_to_list (fs w)).

(** ** Concrete runs: one save file in "/saves", one bucket *)

Module Scenario.

Definition T0 : Go.Time := 1700000000000000000.

Definition syncer : Sync.Syncer :=
  Sync.mkSyncer "/saves" "/saves/Backup" "game.exe" (500 * Go.Millisecond).

Definition config : Main.Config :=
  Main.mkConfig "/saves" "game.exe" "/saves/Backup" "saves".

(** No process name configured. *)
Definition configNoProcess : Main.Config :=
  Main.mkConfig "/saves" "" "/saves/Backup" "saves".

Definition syncerNoProcess : Sync.Syncer :=
  Sync.mkSyncer "/saves" "/saves/Backup" "" (500 * Go.Millisecond).

Definition save : string := "/saves/game.sav".

(** The local directory with the save file, last written at [T0]. *)
Definition localFiles : gmap string File :=
  <["/saves" := mkFile "" T0 true]>
    (<[save := mkFile "local bytes" T0 false]> ∅).

(** The same, with a regular file where the backup directory should be. *)
Definition localFilesBackupBlocked : gmap string File :=
  <["/saves/Backup" := mkFile "not a directory" T0 false]> localFiles.

(** A copy of the save written ten seconds after [T0], and a bucket holding it. *)
Definition remoteObject : Object :=
  mkObject "remote bytes"
           (<["Modtime" := Go.FormatInt (T0 + 10 * Go.Second)]> ∅)
           (T0 + 11 * Go.Second).

Definition remoteNewer : gmap string Object := <["game.sav" := remoteObject]> ∅.

(** The clock: one minute after [T0], a microsecond per step. *)
Definition wallClock (n : nat) : Go.Time := Z.of_nat n * 1000 + (T0 + 60 * Go.Second).

Definition start (files : gmap string File) (objects : option (gmap string Object))
    (processes : option (list (option string))) (failing : nat -> bool) : World :=
  mkWorld files objects processes failing wallClock 0 [].

Definition noFault (n : nat) : bool := false.
Definition faultAt (k n : nat) : bool := Nat.eqb n k.

End Scenario.


(** ** package storage: the adapter and the utilities *)

Module Adapter.

Section WithPlatform.
Context `{Platform}.

Definition Upload (localPath objectName : string) : IO (option error) :=
  Storage.Upload localPath objectName.

End WithPlatform.

Definition Download (objectName localPath : string) : IO (option error) :=
  Storage.Download objectName localPath.

Definition Stat (objectName : string) : IO (error + Sync.SyncFileInfo) :=
  r <- Storage.Stat objectName ;;
  match r with
  | inl err => ret (inl err)
  | inr info =>
      ret (inr (Storage.mkFileInfo (Storage.Name info) (Storage.ModTime info)
                                   (Storage.Size info)))
  end.

Definition List : IO (error + list Sync.SyncFileInfo) :=
  r <- Storage.List ;;
  match r with
  | inl err => ret (inl err)
  | inr files =>
      ret (inr (map (fun f => Storage.mkFileInfo (Storage.Name f) (Storage.ModTime f)
                                                 (Storage.Size f)) files))
  end.

Definition EnsureBucket : IO (option error) := Storage.EnsureBucket.

End Adapter.

(** [CopyFile] and [EnsureDir] of package storage. *)
Module StorageUtil.

Definition CopyFile (src dst : string) : IO (option error) :=
  r <- os.Open src ;;
  match r with
  | inl err => ret (Some (Wrapf "failed to open source: %w" err))
  | inr bytes =>
      c <- os.Create dst ;;
      match c with
      | inl err => ret (Some (Wrapf "failed to create destination: %w" err))
      | inr _ =>
          cp <- os.Write dst bytes ;;
          match cp with
          | inl err => ret (Some (Wrapf "failed to copy data: %w" err))
          | inr _ => ret None
          end
      end
  end.

Definition EnsureDir (path : string) : IO (option error) :=
  r <- os.Stat path ;;
  match r with
  | inl err =>
      if IsNotExist err then
        mk <- os.MkdirAll path ;;
        ret (match mk with inl e => Some e | inr _ => None end)
      else ret (Some (Wrapf "failed to stat directory: %w" err))
  | inr info =>
      if negb (fiIsDir info)
      then ret (Some (Errorf "path exists but is not a directory: %s"))
      else ret None
  end.

End StorageUtil.

(** ** package config *)

Module config.

Record S3Config : Type := mkS3Config {
  Endpoint : string;
  AccessKey : string;
  SecretKey : string;
  BucketName : string;
  UseSSL : bool
}.

Record Config : Type := mkConfig {
  WatchPath : string;
  ProcessName : string;
  BackupDir : string;
  S3 : S3Config
}.

(** The value of a string flag once [flag.Parse] has run: what the command
    line gives for it, else its default. *)
Definition flagValue (given : gmap string string) (name def : string) : string :=
  default def (given !! name).

Section WithPlatform.
Context `{Platform}.

(** [localAppData] is the value of the environment variable LOCALAPPDATA,
    empty when unset; the four-element [filepath.Join] is taken two at a
    time. *)
Definition getDefaultWatchPath (localAppData : string) : error + string :=
  if String.eqb localAppData ""
  then inl (Errorf "LOCALAPPDATA environment variable is not set")
  else inr (Join (Join (Join localAppData "RSDragonwilds") "Saved") "SaveGames").

Definition LoadFromFlags (given : gmap string string) (localAppData : string)
  : error + Config :=
  let watchPath := flagValue given "watch-path" "" in
  let processName := flagValue given "process-name" "RSDragonwilds-Win64-Shipping.exe" in
  let backupDir := flagValue given "backup-dir" "" in
  let endpoint := flagValue given "cloud-endpoint" "localhost:9000" in
  let accessKey := flagValue given "access-key" "" in
  let secretKey := flagValue given "secret-key" "" in
  let bucketName := flagValue given "bucket-name" "gamesync-dragonwilds" in
  if String.eqb endpoint "" || String.eqb accessKey "" ||
     String.eqb secretKey "" || String.eqb bucketName ""
  then inl (Errorf "missing required arguments: cloud-endpoint, access-key, secret-key, or bucket-name")
  else
    let useSSL := Go.HasPrefix endpoint "https://" in
    match (if String.eqb watchPath "" then getDefaultWatchPath localAppData
           else inr watchPath) with
    | inl err => inl (Wrapf "failed to determine default watch path: %w" err)
    | inr watchPath' =>
        let backupDir' :=
          if String.eqb backupDir "" then Join watchPath' "Backup" else backupDir in
        inr (mkConfig watchPath' processName backupDir'
                      (mkS3Config endpoint accessKey secretKey bucketName useSSL))
    end.

End WithPlatform.

Definition Validate (c : Config) : IO (option error) :=
  if String.eqb (WatchPath c) "" then ret (Some (Errorf "watch path cannot be empty"))
  else
    r <- os.Stat (WatchPath c) ;;
    match r with
    | inl err => ret (Some (Wrapf "watch path does not exist: %w" err))
    | inr info =>
        if negb (fiIsDir info)
        then ret (Some (Errorf "watch path is not a directory: %s"))
        else ret None
    end.

End config.

(** ** Relations between the world before and after a computation *)

(** [preserves R c]: every run of [c] takes a world to one related by [R]. *)
Definition preserves (R : World -> World -> Prop) {A} (c : IO A) : Prop :=
  forall w, R w (snd (c w)).

(** The bucket is what it was. *)
Definition sameBucket (w w' : World) : Prop := bucket w' = bucket w.

(** Every object that was stored is still stored, and unchanged unless its
    name is in [U]. *)
Definition objectsKept (U : string -> Prop) (w w' : World) : Prop :=
  forall objs n o, bucket w = Some objs -> objs !! n = Some o ->
    exists objs' o', bucket w' = Some objs' /\ objs' !! n = Some o' /\
                     (~ U n -> o' = o).

(** Every local path that existed still exists, the ones in [X] apart. *)
Definition filesKept (X : string -> Prop) (w w' : World) : Prop :=
  forall q, ~ X q -> is_Some (fs w !! q) -> is_Some (fs w' !! q).

(** The local file system is what it was. *)
Definition sameFiles (w w' : World) : Prop := fs w' = fs w.

(** Relations that hold between equal worlds, compose, and do not look at
    the step counter or the trace. *)
Class Invariant (R : World -> World -> Prop) : Prop := {
  inv_refl : forall w, R w w;
  inv_trans : forall w1 w2 w3, R w1 w2 -> R w2 w3 -> R w1 w3;
  inv_stable : forall w w', fs w' = fs w -> bucket w' = bucket w -> R w w'
}.

Section TempNames.
Context `{Platform}.

(** The temporary files of the syncer's downloads. *)
Definition isTempDownload (q : string) : Prop :=
  exists n, q = Join TempDir (n +:+ ".download").

End TempNames.

(** ** Concrete runs with the clock stopped *)

Module Still.

(** The clock stopped one minute after [Scenario.T0]: every backup folder
    of a run gets the same name. *)
Definition stoppedClock (n : nat) : Go.Time := Scenario.T0 + 60 * Go.Second.

Definition start (files : gmap string File) (objects : option (gmap string Object))
    (failing : nat -> bool) : World :=
  mkWorld files objects (Some []) failing stoppedClock 0 [].

(** The save of the scenario with the time the bucket's copy carries. *)
Definition remoteTime : Go.Time := Scenario.T0 + 10 * Go.Second.

(** The local files of the scenario with the backup root in place. *)
Definition filesWithBackupRoot : gmap string File :=
  <["/saves/Backup" := mkFile "" Scenario.T0 true]> Scenario.localFiles.

(** A bucket with the scenario's object and one that is not a save file. *)
Definition mixedBucket : gmap string Object :=
  <["notes.txt" := mkObject "notes" ∅ Scenario.T0]> Scenario.remoteNewer.

End Still.


Import Scenario.

(** * Properties *)

(** ** Concrete values of the base functions *)

Example Base_file : Go.Base "/a/game.sav" = "game.sav".
Proof. reflexivity. Qed.
Example Base_trailing_slash : Go.Base "/a/b/" = "b".
Proof. reflexivity. Qed.
Example Base_only_slashes : Go.Base "///" = "/".
Proof. reflexivity. Qed.
Example Base_empty : Go.Base "" = ".".
Proof. reflexivity. Qed.
Example FormatInt_negative :
  Go.FormatInt (-1700000000123456789) = "-1700000000123456789".
Proof. reflexivity. Qed.
Example ParseInt_plain : Go.ParseInt "1700000000123456789" = inr 1700000000123456789.
Proof. reflexivity. Qed.
Example ParseInt_too_large : Go.ParseInt "9223372036854775808" = inl Go.ErrRange.
Proof. reflexivity. Qed.
Example ParseInt_smallest : Go.ParseInt "-9223372036854775808" = inr Go.minInt64.
Proof. reflexivity. Qed.
Example ParseInt_not_a_number : Go.ParseInt "12a" = inl Go.ErrSyntax.
Proof. reflexivity. Qed.
Example Clean_dots : Unix.Clean "/a/./b//../c/" = "/a/c".
Proof. reflexivity. Qed.
Example Clean_parent_kept : Unix.Clean "../../x" = "../../x".
Proof. reflexivity. Qed.
Example Dir_of_save : Unix.Dir "/saves/game.sav" = "/saves".
Proof. reflexivity. Qed.
Example Join_of_save : Unix.Join "/saves/" "game.sav" = "/saves/game.sav".
Proof. reflexivity. Qed.
Example FormatStamp_micros :
  Unix.FormatStamp 1700000000123456789 = "2023-11-14_22-13-20.123456".
Proof. vm_compute. reflexivity. Qed.

(** The cases of the watcher's test table. *)
Example shouldSyncFile_tests :
  Watcher.shouldSyncFile "/path/to/game.sav" = true /\
  Watcher.shouldSyncFile "/path/to/EnhancedInputUserSettings.sav" = false /\
  Watcher.shouldSyncFile "/path/to/game.txt" = false /\
  Watcher.shouldSyncFile "/path/to/savegame.sav" = true.
Proof. repeat split; reflexivity. Qed.

(** A cooldown of 200ms: an event at 0 is accepted, one at 50ms is rejected,
    one at 260ms is accepted and recorded. *)
Example debounce_examples :
  let fw0 := Watcher.mkFileWatcher "/saves" (200 * Go.Millisecond) ∅ in
  let event := mkFsEvent save fsnotify.Write in
  let readings (n : nat) : Go.Time :=
    match n with
    | O => 0
    | S O => 50 * Go.Millisecond
    | _ => 260 * Go.Millisecond
    end in
  let w0 := mkWorld localFiles None None noFault readings 0 [] in
  let r1 := Watcher.ShouldProcess fw0 event w0 in
  let r2 := Watcher.ShouldProcess (snd (fst r1)) event (snd r1) in
  let r3 := Watcher.ShouldProcess (snd (fst r2)) event (snd r2) in
  (fst (fst r1), fst (fst r2), fst (fst r3)) = (true, false, true) /\
  Watcher.lastEventTime (snd (fst r2)) !! save = Some 0 /\
  Watcher.lastEventTime (snd (fst r3)) !! save = Some (260 * Go.Millisecond).
Proof. vm_compute. repeat split; reflexivity. Qed.

(** Half a second of tolerance: 600ms ahead downloads, 400ms ahead does
    nothing, 600ms behind uploads. *)
Example spec_decision_examples :
  let T0 := Scenario.T0 in
  spec_decision Main.timeTolerance (Go.Sub (T0 + 600 * Go.Millisecond) T0) = Download /\
  spec_decision Main.timeTolerance (Go.Sub (T0 + 400 * Go.Millisecond) T0) = NoOp /\
  spec_decision Main.timeTolerance (Go.Sub T0 (T0 + 600 * Go.Millisecond)) = Upload /\
  spec_decision Main.timeTolerance (Go.Sub (T0 + 500 * Go.Millisecond) T0) = NoOp.
Proof. repeat split; reflexivity. Qed.

(** ** Facts about the base functions *)

Lemma length_app_string (a b : string) :
  String.length (a +:+ b) = (String.length a + String.length b)%nat.
Proof. induction a as [|c a IH]; simpl; [reflexivity | now rewrite IH]. Qed.

Lemma substring_all (s : string) : substring 0 (String.length s) s = s.
Proof. induction s as [|c s IH]; simpl; [reflexivity | now rewrite IH]. Qed.

Lemma substring_app_r (a b : string) :
  substring (String.length a) (String.length b) (a +:+ b) = b.
Proof. induction a as [|c a IH]; simpl; [apply substring_all | exact IH]. Qed.

Lemma substring_split (s : string) (n : nat) :
  (n <= String.length s)%nat ->
  s = substring 0 n s +:+ substring n (String.length s - n) s.
Proof.
  revert n. induction s as [|c s IH]; intros n Hn; simpl in *.
  - destruct n; [reflexivity | lia].
  - destruct n as [|n]; simpl.
    + now rewrite substring_all.
    + rewrite (IH n) at 1 by lia. reflexivity.
Qed.

Lemma HasSuffix_iff (s suffix : string) :
  Go.HasSuffix s suffix = true <-> exists pre, s = pre +:+ suffix.
Proof.
  unfold Go.HasSuffix. rewrite andb_true_iff, Nat.leb_le, String.eqb_eq. split.
  - intros [Hle Hsub].
    exists (substring 0 (String.length s - String.length suffix) s).
    pose proof (substring_split s (String.length s - String.length suffix)) as Hs.
    replace (String.length s - (String.length s - String.length suffix))%nat
      with (String.length suffix) in Hs by lia.
    rewrite Hsub in Hs. apply Hs. lia.
  - intros [pre ->]. rewrite length_app_string. split; [lia |].
    replace (String.length pre + String.length suffix - String.length suffix)%nat
      with (String.length pre) by lia.
    apply substring_app_r.
Qed.

(** C9.  For every path, the candidate predicate [shouldSyncFile] answers
    true exactly when the base name of the path ends with ".sav" and is not
    "EnhancedInputUserSettings.sav".  The three copies of the predicate (main.go,
    watcher, sync) are the same function of the path alone: no state goes in
    or out. *)
Theorem shouldSyncFile_iff (filePath : string) :
  (Main.shouldSyncFile filePath = true <->
     (exists pre, Go.Base filePath = pre +:+ ".sav") /\
     Go.Base filePath <> "EnhancedInputUserSettings.sav") /\
  Watcher.shouldSyncFile filePath = Main.shouldSyncFile filePath /\
  Sync.shouldSyncFile filePath = Main.shouldSyncFile filePath.
Proof.
  split; [| split; reflexivity].
  unfold Main.shouldSyncFile.
  rewrite andb_true_iff, negb_true_iff, HasSuffix_iff, String.eqb_neq.
  reflexivity.
Qed.

Lemma digitVal_digitChar (d : Z) :
  0 <= d < 10 -> Go.digitVal (Go.digitChar d) = Some d.
Proof.
  intros Hd.
  assert (d = 0 \/ d = 1 \/ d = 2 \/ d = 3 \/ d = 4 \/ d = 5 \/ d = 6 \/
          d = 7 \/ d = 8 \/ d = 9) as Hc by lia.
  repeat destruct Hc as [-> | Hc]; try subst d; reflexivity.
Qed.

Lemma digitChar_not_sign (d : Z) :
  0 <= d < 10 ->
  Ascii.eqb (Go.digitChar d) "+"%char = false /\
  Ascii.eqb (Go.digitChar d) "-"%char = false.
Proof.
  intros Hd.
  assert (d = 0 \/ d = 1 \/ d = 2 \/ d = 3 \/ d = 4 \/ d = 5 \/ d = 6 \/
          d = 7 \/ d = 8 \/ d = 9) as Hc by lia.
  repeat destruct Hc as [-> | Hc]; try subst d; split; reflexivity.
Qed.

Lemma pow10_succ (f : nat) : 10 ^ Z.of_nat (S f) = 10 * 10 ^ Z.of_nat f.
Proof. rewrite Nat2Z.inj_succ, Z.pow_succ_r by lia. reflexivity. Qed.

(** Parsing the digits written by [fmtBits] gives the number back. *)
Lemma parseDigits_fmtBits (fuel : nat) :
  forall n acc, 0 <= n < 10 ^ Z.of_nat fuel -> n <= Go.maxUint64 ->
    Go.parseDigits (Go.fmtBits fuel n acc) 0 = Go.parseDigits acc n.
Proof.
  induction fuel as [|f IH]; intros n acc Hn Hmax.
  - simpl in *. replace n with 0 by lia. reflexivity.
  - rewrite pow10_succ in Hn. cbn [Go.fmtBits].
    assert (0 <= n mod 10 < 10) as Hd by (apply Z.mod_pos_bound; lia).
    destruct (Z.ltb_spec n 10) as [Hlt | Hge].
    + cbn [Go.parseDigits]. rewrite Z.mod_small by lia.
      rewrite digitVal_digitChar by lia. cbn zeta.
      replace (0 * 10 + n) with n by lia.
      destruct (Z.ltb_spec Go.maxUint64 n); [lia | reflexivity].
    + rewrite IH.
      * cbn [Go.parseDigits]. rewrite digitVal_digitChar by lia. cbn zeta.
        replace (n / 10 * 10 + n mod 10) with n
          by (rewrite (Z.div_mod n 10) at 1 by lia; lia).
        destruct (Z.ltb_spec Go.maxUint64 n); [lia | reflexivity].
      * split; [apply Z.div_pos; lia |].
        apply Z.div_lt_upper_bound; lia.
      * assert (n / 10 <= n) by (apply Z.div_le_upper_bound; lia). lia.
Qed.

Lemma fmtBits_head (f : nat) :
  forall n acc, 0 <= n ->
    exists d t, 0 <= d < 10 /\ Go.fmtBits (S f) n acc = String (Go.digitChar d) t.
Proof.
  induction f as [|f IH]; intros n acc Hn.
  - cbn [Go.fmtBits]. exists (n mod 10), acc.
    split; [apply Z.mod_pos_bound; lia |]. now destruct (n <? 10).
  - change (Go.fmtBits (S (S f)) n acc) with
      (let acc' := String (Go.digitChar (n mod 10)) acc in
       if n <? 10 then acc' else Go.fmtBits (S f) (n / 10) acc').
    cbn zeta. destruct (n <? 10).
    + exists (n mod 10), acc. split; [apply Z.mod_pos_bound; lia | reflexivity].
    + apply IH. apply Z.div_pos; lia.
Qed.

(** [ParseInt] inverts [FormatInt] on every int64. *)
Lemma ParseInt_FormatInt (z : Z) :
  Go.minInt64 <= z <= Go.maxInt64 -> Go.ParseInt (Go.FormatInt z) = inr z.
Proof.
  unfold Go.minInt64, Go.maxInt64. intros Hz. unfold Go.FormatInt.
  destruct (Z.ltb_spec z 0) as [Hneg | Hpos].
  - unfold Go.ParseInt.
    change (Ascii.eqb "-" "+") with false. change (Ascii.eqb "-" "-") with true.
    cbn iota.
    destruct (fmtBits_head 19 (- z) "" ltac:(lia)) as (d & t & Hd & Hfmt).
    unfold Go.ParseUint. rewrite Hfmt, <- Hfmt.
    rewrite parseDigits_fmtBits; [| split; [lia |] | unfold Go.maxUint64; lia].
    + cbn [Go.parseDigits negb andb].
      destruct (Z.ltb_spec (2 ^ 63) (- z)); [lia |].
      f_equal. lia.
    + change (10 ^ Z.of_nat 20) with 100000000000000000000. lia.
  - destruct (fmtBits_head 19 z "" Hpos) as (d & t & Hd & Hfmt).
    unfold Go.ParseInt. rewrite Hfmt.
    destruct (digitChar_not_sign d Hd) as [-> ->].
    unfold Go.ParseUint. rewrite <- Hfmt.
    rewrite parseDigits_fmtBits; [| split; [lia |] | unfold Go.maxUint64; lia].
    + cbn [Go.parseDigits negb andb].
      destruct (Z.leb_spec (2 ^ 63) z); [lia | reflexivity].
    + change (10 ^ Z.of_nat 20) with 100000000000000000000. lia.
Qed.

(** ** The decision rule *)

Lemma neg_tolerance (tol : Z) : 0 <= tol <= Go.maxDuration -> Go.neg tol = - tol.
Proof.
  unfold Go.neg, Go.wrap64, Go.maxDuration, Go.maxInt64. intros Hd.
  rewrite Z.mod_small by lia. lia.
Qed.

Lemma Sub_range (t u : Go.Time) : Go.minDuration <= Go.Sub t u <= Go.maxDuration.
Proof.
  unfold Go.Sub, Go.minDuration, Go.maxDuration, Go.minInt64, Go.maxInt64.
  cbn zeta. destruct (Z.ltb_spec (t - u) (- 2 ^ 63)); [lia |].
  destruct (Z.ltb_spec (2 ^ 63 - 1) (t - u)); lia.
Qed.

(** Swapping the two instants negates the difference whenever the true
    difference fits a Duration. *)
Lemma Sub_swap (t u : Go.Time) :
  - Go.maxDuration <= t - u <= Go.maxDuration -> Go.Sub u t = - Go.Sub t u.
Proof.
  unfold Go.Sub, Go.minDuration, Go.maxDuration, Go.minInt64, Go.maxInt64.
  cbn zeta. intros Hd.
  destruct (Z.ltb_spec (t - u) (- 2 ^ 63)); [lia |].
  destruct (Z.ltb_spec (2 ^ 63 - 1) (t - u)); [lia |].
  destruct (Z.ltb_spec (u - t) (- 2 ^ 63)); [lia |].
  destruct (Z.ltb_spec (2 ^ 63 - 1) (u - t)); lia.
Qed.

Lemma spec_decision_cases (tol diff : Z) :
  0 <= tol ->
  (tol < diff -> spec_decision tol diff = Download) /\
  (diff < - tol -> spec_decision tol diff = Upload) /\
  (- tol <= diff <= tol -> spec_decision tol diff = NoOp).
Proof.
  intros Htol. unfold spec_decision.
  destruct (Z.ltb_spec tol diff); destruct (Z.ltb_spec diff (- tol));
    repeat split; intros; try reflexivity; lia.
Qed.

Lemma spec_decision_opposite (tol diff : Z) :
  0 <= tol -> spec_decision tol (- diff) = opposite (spec_decision tol diff).
Proof.
  intros Htol. unfold spec_decision.
  destruct (Z.ltb_spec tol diff); destruct (Z.ltb_spec diff (- tol));
    destruct (Z.ltb_spec tol (- diff)); destruct (Z.ltb_spec (- diff) (- tol));
    try reflexivity; lia.
Qed.

Lemma getCloudModTime_fst (stat : minio.ObjectInfo) (w : World) :
  fst (Main.getCloudModTime stat w) = Storage.extractModTime stat.
Proof.
  unfold Main.getCloudModTime, Storage.extractModTime.
  destruct (String.eqb _ ""); [reflexivity |].
  destruct (Go.ParseInt _); reflexivity.
Qed.

Section DecisionRule.
Context `{Platform}.

Lemma SyncFile_decides (s : Sync.Syncer) filePath w info w1 stat w2 :
  0 <= Sync.timeTolerance s <= Go.maxDuration ->
  os.Stat filePath w = (inr info, w1) ->
  fiIsDir info = false ->
  minio.StatObject (Go.Base filePath) w1 = (inr stat, w2) ->
  Sync.SyncFile s filePath w =
    syncPerform s filePath (Storage.extractModTime stat)
      (spec_decision (Sync.timeTolerance s)
         (Go.Sub (Storage.extractModTime stat) (Go.UTC (fiModTime info)))) w2.
Proof.
  intros Htol Hst Hdir Hso.
  unfold Sync.SyncFile, bind. rewrite Hst, Hdir.
  unfold Storage.Stat, bind. rewrite Hso. cbn [ret Storage.ModTime].
  rewrite neg_tolerance by exact Htol.
  unfold spec_decision, syncPerform.
  destruct (_ <? _); [reflexivity |].
  destruct (_ <? _); reflexivity.
Qed.

Lemma checkCloudAndSync_decides (cfg : Main.Config) filePath w info w1 stat w2 :
  os.Stat filePath w = (inr info, w1) ->
  fiIsDir info = false ->
  minio.StatObject (Go.Base filePath) w1 = (inr stat, w2) ->
  Main.checkCloudAndSync cfg filePath w =
    mainPerform cfg filePath (Storage.extractModTime stat)
      (spec_decision Main.timeTolerance
         (Go.Sub (Storage.extractModTime stat) (Go.UTC (fiModTime info))))
      (snd (Main.getCloudModTime stat w2)).
Proof.
  intros Hst Hdir Hso.
  unfold Main.checkCloudAndSync, bind. rewrite Hst, Hdir, Hso.
  pose proof (getCloudModTime_fst stat w2) as Hfst.
  destruct (Main.getCloudModTime stat w2) as [t w3]. cbn [fst snd] in *. subst t.
  rewrite (neg_tolerance Main.timeTolerance) by (vm_compute; split; discriminate).
  unfold spec_decision, mainPerform, bind.
  destruct (_ <? _); [reflexivity |].
  destruct (_ <? _); reflexivity.
Qed.

(** C1.  When the local file exists and the remote stat succeeds, with
    [diff] the remote modification time minus the local one, [SyncFile] and
    [checkCloudAndSync] carry out the decision of the rule: Download when
    [diff] is above the tolerance, Upload when it is below minus the
    tolerance, nothing in between, bounds included.  Exchanging the local and
    the remote time gives the opposite decision, as long as their true
    difference fits a Duration.  The tolerance is a Duration that is not
    negative. *)
Theorem decision_rule (s : Sync.Syncer) (cfg : Main.Config)
    (filePath : string) (w w1 w2 : World) (info : FileInfo) (stat : minio.ObjectInfo) :
  0 <= Sync.timeTolerance s <= Go.maxDuration ->
  os.Stat filePath w = (inr info, w1) ->
  fiIsDir info = false ->
  minio.StatObject (Go.Base filePath) w1 = (inr stat, w2) ->
  let localTime := Go.UTC (fiModTime info) in
  let remoteTime := Storage.extractModTime stat in
  let diff := Go.Sub remoteTime localTime in
  (Sync.SyncFile s filePath w =
     syncPerform s filePath remoteTime (spec_decision (Sync.timeTolerance s) diff) w2 /\
   Main.checkCloudAndSync cfg filePath w =
     mainPerform cfg filePath remoteTime (spec_decision Main.timeTolerance diff)
       (snd (Main.getCloudModTime stat w2))) /\
  (forall tol, tol = Sync.timeTolerance s \/ tol = Main.timeTolerance ->
     (tol < diff -> spec_decision tol diff = Download) /\
     (diff < - tol -> spec_decision tol diff = Upload) /\
     (- tol <= diff <= tol -> spec_decision tol diff = NoOp) /\
     (- Go.maxDuration <= remoteTime - localTime <= Go.maxDuration ->
      spec_decision tol (Go.Sub localTime remoteTime) = opposite (spec_decision tol diff))).
Proof.
  intros Htol Hst Hdir Hso localTime remoteTime diff. split.
  - split.
    + now apply SyncFile_decides with (info := info) (w1 := w1).
    + now apply checkCloudAndSync_decides with (info := info) (w1 := w1).
  - intros tol Hcase.
    assert (0 <= tol) as Hpos
      by (destruct Hcase as [-> | ->]; [lia | vm_compute; discriminate]).
    destruct (spec_decision_cases tol diff Hpos) as (Hd & Hu & Hn).
    repeat split; try assumption.
    intros Hfit. unfold diff. rewrite (Sub_swap remoteTime localTime Hfit).
    now apply spec_decision_opposite.
Qed.

End DecisionRule.

(** ** A missing remote object *)

Section RemoteMissing.
Context `{Platform}.

Lemma StatObject_missing (name : string) (w : World) (objs : gmap string Object) :
  bucket w = Some objs -> objs !! name = None ->
  exists e, fst (minio.StatObject name w) = inl e.
Proof.
  intros Hb Hk. unfold minio.StatObject, external, bind, emit, step, getBucket, ret.
  cbn. destruct (faults w (steps w)); cbn; [eauto |].
  rewrite Hb, Hk. eauto.
Qed.

End RemoteMissing.

(** ** Debounce *)

Section Debounce.
Context `{Platform}.

Lemma ShouldProcess_candidate (fw : Watcher.FileWatcher) (event : FsEvent) (w : World) :
  Z.land (evOp event) (Z.lor fsnotify.Write fsnotify.Create) <> 0 ->
  Watcher.shouldSyncFile (evName event) = true ->
  Dir (evName event) = Clean (Watcher.watchPath fw) ->
  Watcher.ShouldProcess fw event w =
    (match Watcher.lastEventTime fw !! evName event with
     | Some last =>
         if Go.Sub (clock w (steps w)) last <=? Watcher.eventCooldown fw
         then (false, fw)
         else (true, accepted fw (evName event) (clock w (steps w)))
     | None => (true, accepted fw (evName event) (clock w (steps w)))
     end, snd (Now w)).
Proof.
  intros Hop Hsync Hdir. unfold Watcher.ShouldProcess.
  rewrite (proj2 (Z.eqb_neq _ _) Hop), Hsync, bool_decide_eq_true_2 by exact Hdir.
  cbn [negb]. unfold bind, Now, ret. cbn [fst snd].
  destruct (Watcher.lastEventTime fw !! evName event) as [last|]; [| reflexivity].
  destruct (_ <=? _); reflexivity.
Qed.

End Debounce.

(** ** Symbolic execution of the primitives *)

Ltac io_unfold :=
  unfold os.Stat, os.Open, os.Create, os.Write, os.ReadFile, os.WriteFile,
    os.Mkdir, os.MkdirAll, os.Chtimes, os.Remove,
    minio.BucketExists, minio.MakeBucket, minio.StatObject, minio.ListObjects,
    minio.FGetObject, minio.FPutObject, Processes, log,
    external, bind, ret, emit, step, Now, setFs, setBucket, getFs, getBucket,
    getProcs in *.

(** ** Upload, then stat and download *)

Lemma wrap64_id (z : Z) : Go.minInt64 <= z <= Go.maxInt64 -> Go.wrap64 z = z.
Proof.
  unfold Go.wrap64, Go.minInt64, Go.maxInt64. intros Hz.
  rewrite Z.mod_small by lia. lia.
Qed.

Lemma storedMeta_Modtime (a b : string) :
  minio.storedMeta (<["X-Amz-Meta-Modtime" := a]> (<["X-Amz-Meta-ModtimeString" := b]> ∅))
    !! "Modtime" = Some a.
Proof. vm_compute. reflexivity. Qed.

Lemma FormatInt_nonempty (z : Z) : Go.FormatInt z <> "".
Proof.
  unfold Go.FormatInt. destruct (Z.ltb_spec z 0) as [Hneg | Hpos]; [discriminate |].
  destruct (fmtBits_head 19 z "" Hpos) as (d & t & _ & ->). discriminate.
Qed.

(** The recovery order of [extractModTime]. *)
Lemma extractModTime_prefers (stat : minio.ObjectInfo) :
  let raw := default "" (minio.UserMetadata stat !! "Modtime") in
  (forall ts, raw <> "" -> Go.ParseInt raw = inr ts ->
     Storage.extractModTime stat = Go.Unix0 ts) /\
  (raw = "" \/ (exists e, Go.ParseInt raw = inl e) ->
     Storage.extractModTime stat = minio.LastModified stat).
Proof.
  intros raw. unfold Storage.extractModTime. fold raw. split.
  - intros ts Hne Hparse. apply String.eqb_neq in Hne. now rewrite Hne, Hparse.
  - intros [-> | [e He]]; [reflexivity |].
    rewrite He. now destruct (String.eqb raw "").
Qed.

Lemma extractModTime_uploaded (name content stamp : string) (m t : Go.Time) :
  Go.minInt64 <= m <= Go.maxInt64 ->
  Storage.extractModTime
    (minio.infoOfObject name
       (mkObject content
          (minio.storedMeta
             (<["X-Amz-Meta-Modtime" := Go.FormatInt (Go.UnixNano (Go.UTC m))]>
                (<["X-Amz-Meta-ModtimeString" := stamp]> ∅))) t)) = m.
Proof.
  intros Hm.
  apply (proj1 (extractModTime_prefers _));
    cbn [minio.infoOfObject minio.UserMetadata userMeta];
    rewrite storedMeta_Modtime; cbn [default].
  - apply FormatInt_nonempty.
  - unfold Go.UnixNano, Go.UTC. rewrite wrap64_id by exact Hm.
    now apply ParseInt_FormatInt.
Qed.

Section RoundTrip.
Context `{Platform}.

Lemma Upload_stores localPath objectName w w1 :
  Storage.Upload localPath objectName w = (None, w1) ->
  exists f objs t,
    fs w !! localPath = Some f /\ isDir f = false /\ fs w1 = fs w /\
    bucket w = Some objs /\
    bucket w1 = Some (<[objectName :=
       mkObject (data f)
         (minio.storedMeta
            (<["X-Amz-Meta-Modtime" := Go.FormatInt (Go.UnixNano (Go.UTC (mtime f)))]>
               (<["X-Amz-Meta-ModtimeString" := FormatStamp (Go.UTC (mtime f))]> ∅))) t]> objs).
Proof.
  unfold Storage.Upload. io_unfold. cbn.
  destruct (faults w (steps w)); cbn; [discriminate |].
  destruct (fs w !! localPath) as [f|] eqn:Hf; cbn; [| discriminate].
  destruct (faults w (S (steps w))); cbn; [discriminate |].
  rewrite Hf. destruct (isDir f) eqn:Hd; cbn; [discriminate |].
  destruct (bucket w) as [objs|] eqn:Hb; cbn; [| discriminate].
  intros [= <-]. cbn. eauto 10.
Qed.




End RoundTrip.

(** ** The upload of main.go when the local stat fails *)

Section UploadWithoutStat.
Context `{Platform}.

(** C10.  In [uploadToCloud] of main.go, when the bucket check passes and
    the local stat fails, the upload is still issued, with the wall clock
    read just before as "Modtime"; if that upload succeeds the stored object
    carries the bytes of the file and the wall-clock time, not the file's
    modification time. *)
Theorem upload_proceeds_without_stat (filePath objectName : string)
    (w w1 w2 : World) (e : error) :
  bucketReady w w1 ->
  os.Stat filePath (snd (Now w1)) = (inl e, w2) ->
  let now := clock w1 (steps w1) in
  let userMeta' : gmap string string :=
    <["X-Amz-Meta-Modtime" := Go.FormatInt (Go.UnixNano (Go.UTC now))]>
      (<["X-Amz-Meta-ModtimeString" := FormatStamp (Go.UTC now)]> ∅) in
  Main.uploadToCloud filePath objectName w =
    (put <- minio.FPutObject objectName filePath userMeta' ;;
     match put with
     | inl _ => log "Failed to upload file: %v"
     | inr _ => log "Uploaded file %s to bucket %s"
     end) w2 /\
  (forall w3, minio.FPutObject objectName filePath userMeta' w2 = (inr tt, w3) ->
     exists f objs o,
       fs w2 !! filePath = Some f /\
       bucket w3 = Some objs /\ objs !! objectName = Some o /\
       body o = data f /\
       userMeta o !! "Modtime" = Some (Go.FormatInt (Go.UnixNano (Go.UTC now))) /\
       (Go.minInt64 <= now <= Go.maxInt64 ->
        Storage.extractModTime (minio.infoOfObject objectName o) = now)).
Proof.
  intros Hready Hst now userMeta'. split.
  - unfold Main.uploadToCloud, bind at 1.
    destruct Hready as [Hex | (w' & Hex & Hmk)]; rewrite Hex; cbn [negb].
    + unfold bind at 1. unfold ret at 1. unfold bind at 1.
      unfold Now at 1. cbn [fst snd].
      unfold Now in Hst. cbn [snd] in Hst. unfold bind at 1. rewrite Hst.
      reflexivity.
    + unfold bind at 1. rewrite Hmk. unfold bind at 1.
      unfold Now at 1. cbn [fst snd].
      unfold Now in Hst. cbn [snd] in Hst. unfold bind at 1. rewrite Hst.
      reflexivity.
  - intros w3. io_unfold. cbn.
    destruct (faults w2 (steps w2)); cbn; [discriminate |].
    destruct (fs w2 !! filePath) as [f|] eqn:Hf; cbn; [| discriminate].
    destruct (isDir f); cbn; [discriminate |].
    destruct (bucket w2) as [objs|]; cbn; [| discriminate].
    intros [= <-]. cbn.
    eexists f, _, _. split; [reflexivity |]. split; [reflexivity |].
    split; [apply lookup_insert_eq |]. cbn.
    split; [reflexivity |]. split; [apply storedMeta_Modtime |].
    intros Hnow. now apply extractModTime_uploaded.
Qed.

End UploadWithoutStat.

(** ** The main loop: periodic pass, pause and debounce *)

Section MainLoop.
Context `{Platform}.

Lemma isProcessRunning_world (name : string) (w : World) :
  fst (Main.isProcessRunning name w) = true ->
  snd (Main.isProcessRunning name w) =
    mkWorld (fs w) (bucket w) (procs w) (faults w) (clock w) (steps w)
            (trace w ++ [EvProcesses]).
Proof.
  unfold Main.isProcessRunning. io_unfold. cbn.
  destruct (procs w); cbn; [reflexivity | discriminate].
Qed.

(** The timer branch of the legacy loop.  When the timer fires, a full
    pass runs exactly when a process name is configured and that process is
    reported not running; with no process name nothing runs at all.  While
    the configured process is reported running no sync runs, neither on the
    timer nor on a file event: the world is only asked for its processes and,
    for an event, the pause is logged. *)
Theorem periodic_pass_and_pause (cfg : Main.Config)
    (lastEventTime : gmap string Go.Time) (w : World) :
  (Main.processName cfg = "" ->
     Main.mainIteration cfg Main.OnTimer lastEventTime w = ((lastEventTime, true), w)) /\
  (Main.processName cfg <> "" ->
     forall running w1,
       Main.isProcessRunning (Main.processName cfg) w = (running, w1) ->
       (running = false ->
          Main.mainIteration cfg Main.OnTimer lastEventTime w =
            ((lastEventTime, true), snd (Main.localAndCloudSync cfg w1))) /\
       (running = true ->
          Main.mainIteration cfg Main.OnTimer lastEventTime w = ((lastEventTime, true), w1) /\
          (forall event,
             Main.mainIteration cfg (Main.OnEvent event) lastEventTime w =
               ((lastEventTime, true),
                if Z.land (evOp event) (Z.lor fsnotify.Write fsnotify.Create) =? 0
                then w
                else snd (log "Process '%s' is running. Sync paused." w1))) /\
          fs w1 = fs w /\ bucket w1 = bucket w /\
          trace w1 = (trace w ++ [EvProcesses])%list)).
Proof.
  split.
  - intros Hname. unfold Main.mainIteration. rewrite Hname. reflexivity.
  - intros Hname running w1 Hrun.
    apply String.eqb_neq in Hname.
    split; intros ->.
    + unfold Main.mainIteration. rewrite Hname. cbn [negb].
      unfold bind at 1. unfold bind at 1. rewrite Hrun. unfold ret at 1.
      cbn [negb]. unfold bind. destruct (Main.localAndCloudSync cfg w1). reflexivity.
    + split; [| split].
      * unfold Main.mainIteration. rewrite Hname. cbn [negb].
        unfold bind at 1. unfold bind at 1. rewrite Hrun. reflexivity.
      * intros event. unfold Main.mainIteration. rewrite Hname. cbn [negb].
        destruct (_ =? 0); cbn [negb]; [reflexivity |].
        unfold bind at 1. rewrite Hrun. unfold bind.
        destruct (log _ w1) as [[] w2]. reflexivity.
      * pose proof (isProcessRunning_world (Main.processName cfg) w) as Hw.
        rewrite Hrun in Hw. cbn [fst snd] in Hw. rewrite (Hw eq_refl). auto.
Qed.

(** The debounce written out in the loop of main.go keeps the same rule. *)
Lemma mainIteration_debounce (cfg : Main.Config) (event : FsEvent)
    (lastEventTime : gmap string Go.Time) (w w1 : World) :
  Z.land (evOp event) (Z.lor fsnotify.Write fsnotify.Create) <> 0 ->
  (if negb (String.eqb (Main.processName cfg) "")
   then Main.isProcessRunning (Main.processName cfg) else ret false) w = (false, w1) ->
  Main.shouldSyncFile (evName event) = true ->
  Dir (evName event) = Clean (Main.watchPath cfg) ->
  let now := Go.UTC (clock w1 (steps w1)) in
  fst (fst (Main.mainIteration cfg (Main.OnEvent event) lastEventTime w)) =
    match lastEventTime !! evName event with
    | None => <[evName event := now]> lastEventTime
    | Some last =>
        if Go.Sub now last <=? Main.eventCooldown then lastEventTime
        else <[evName event := now]> lastEventTime
    end.
Proof.
  intros Hop Hrun Hsync Hdir now. unfold Main.mainIteration.
  rewrite (proj2 (Z.eqb_neq _ _) Hop). cbn [negb].
  unfold bind at 1. rewrite Hrun.
  rewrite Hsync, bool_decide_eq_true_2 by exact Hdir. cbn [andb].
  unfold bind at 1. unfold Now at 1. fold now.
  destruct (lastEventTime !! evName event) as [last|].
  - rewrite Z.leb_antisym. destruct (Main.eventCooldown <? Go.Sub now last); cbn [negb].
    + unfold bind. destruct (log _ _) as [[] w2].
      destruct (Main.checkCloudAndSync _ _ _) as [[] w3]. reflexivity.
    + reflexivity.
  - unfold bind. destruct (log _ _) as [[] w2].
    destruct (Main.checkCloudAndSync _ _ _) as [[] w3]. reflexivity.
Qed.

(** C7.  For a write or create event on a candidate file in the watch root:
    with no recorded acceptance for the path the event is accepted and the
    time recorded; with a recorded acceptance at most the cooldown ago
    (elapsed <= cooldown) it is rejected and the watcher is left as it was;
    after more than the cooldown it is accepted and the new time recorded.
    So a second event on the path of an accepted one is rejected or accepted
    by the time elapsed since that acceptance.  The loop of main.go keeps the
    same rule on its own map. *)
Theorem debounce (fw : Watcher.FileWatcher) (event : FsEvent) (w : World) :
  Z.land (evOp event) (Z.lor fsnotify.Write fsnotify.Create) <> 0 ->
  Watcher.shouldSyncFile (evName event) = true ->
  Dir (evName event) = Clean (Watcher.watchPath fw) ->
  let now := clock w (steps w) in
  let verdict := fst (Watcher.ShouldProcess fw event w) in
  (Watcher.lastEventTime fw !! evName event = None ->
     verdict = (true, accepted fw (evName event) now)) /\
  (forall last, Watcher.lastEventTime fw !! evName event = Some last ->
     (Go.Sub now last <= Watcher.eventCooldown fw -> verdict = (false, fw)) /\
     (Watcher.eventCooldown fw < Go.Sub now last ->
        verdict = (true, accepted fw (evName event) now))) /\
  (forall fw1 w1 w2, Watcher.ShouldProcess fw event w = ((true, fw1), w1) ->
     let now2 := clock w2 (steps w2) in
     (Go.Sub now2 now <= Watcher.eventCooldown fw ->
        fst (Watcher.ShouldProcess fw1 event w2) = (false, fw1)) /\
     (Watcher.eventCooldown fw < Go.Sub now2 now ->
        fst (Watcher.ShouldProcess fw1 event w2) = (true, accepted fw1 (evName event) now2))) /\
  (forall (cfg : Main.Config) (lastEventTime : gmap string Go.Time) (wm wm1 : World),
     (if negb (String.eqb (Main.processName cfg) "")
      then Main.isProcessRunning (Main.processName cfg) else ret false) wm = (false, wm1) ->
     Main.watchPath cfg = Watcher.watchPath fw ->
     let nowm := Go.UTC (clock wm1 (steps wm1)) in
     fst (fst (Main.mainIteration cfg (Main.OnEvent event) lastEventTime wm)) =
       match lastEventTime !! evName event with
       | None => <[evName event := nowm]> lastEventTime
       | Some last =>
           if Go.Sub nowm last <=? Main.eventCooldown then lastEventTime
           else <[evName event := nowm]> lastEventTime
       end).
Proof.
  intros Hop Hsync Hdir now verdict. subst verdict.
  rewrite (ShouldProcess_candidate fw event w Hop Hsync Hdir). cbn [fst].
  fold now. split; [| split; [| split]].
  - intros ->. reflexivity.
  - intros last ->. split; intros Hcmp.
    + destruct (Z.leb_spec (Go.Sub now last) (Watcher.eventCooldown fw)); [reflexivity | lia].
    + destruct (Z.leb_spec (Go.Sub now last) (Watcher.eventCooldown fw)); [lia | reflexivity].
  - intros fw1 w1 w2 Hacc.
    assert (fw1 = accepted fw (evName event) now) as ->.
    { destruct (Watcher.lastEventTime fw !! evName event) as [last|].
      - destruct (_ <=? _); congruence.
      - congruence. }
    rewrite (ShouldProcess_candidate (accepted fw (evName event) now) event w2 Hop Hsync Hdir).
    cbn [fst accepted Watcher.lastEventTime Watcher.eventCooldown].
    rewrite lookup_insert_eq. split; intros Hcmp.
    + destruct (Z.leb_spec (Go.Sub (clock w2 (steps w2)) now) (Watcher.eventCooldown fw));
        [reflexivity | lia].
    + destruct (Z.leb_spec (Go.Sub (clock w2 (steps w2)) now) (Watcher.eventCooldown fw));
        [lia | reflexivity].
  - intros cfg lastEventTime wm wm1 Hrun Hpath.
    apply (mainIteration_debounce cfg event lastEventTime wm wm1 Hop Hrun Hsync).
    now rewrite Hpath.
Qed.


End MainLoop.

(** ** Counting the remote transfers of a computation *)

Lemma transfers_snoc (t : list Event) (e : Event) :
  length (transfers (t ++ [e])) =
  (length (transfers t) + (if isTransfer e then 1 else 0))%nat.
Proof.
  unfold transfers. rewrite List.filter_app, length_app. cbn.
  destruct (isTransfer e); reflexivity.
Qed.

Lemma adds_ret {A} (a : A) : adds 0 (ret a).
Proof. intros w. unfold ret. cbn. lia. Qed.

Lemma adds_bind {A B} (n m : nat) (c : IO A) (k : A -> IO B) :
  adds n c -> (forall a, adds m (k a)) -> adds (n + m) (bind c k).
Proof.
  intros Hc Hk w. unfold bind. specialize (Hc w).
  destruct (c w) as [a w1]. cbn [snd] in Hc. specialize (Hk a w1). lia.
Qed.

Lemma adds_le {A} (n m : nat) (c : IO A) : (n <= m)%nat -> adds n c -> adds m c.
Proof. intros Hle Hc w. specialize (Hc w). lia. Qed.

Lemma adds_emit (e : Event) : adds (if isTransfer e then 1 else 0) (emit e).
Proof. intros w. unfold emit. cbn. rewrite transfers_snoc. lia. Qed.

Lemma adds_log (format : string) : adds 0 (log format).
Proof. apply (adds_emit (EvLog format)). Qed.

Lemma adds_step : adds 0 step.
Proof. intros w. unfold step. cbn. lia. Qed.

Lemma adds_Now : adds 0 Now.
Proof. intros w. unfold Now. cbn. lia. Qed.

Lemma adds_setFs f : adds 0 (setFs f).
Proof. intros w. unfold setFs. cbn. lia. Qed.

Lemma adds_setBucket b : adds 0 (setBucket b).
Proof. intros w. unfold setBucket. cbn. lia. Qed.

Lemma adds_getFs : adds 0 getFs.
Proof. intros w. unfold getFs. cbn. lia. Qed.

Lemma adds_getBucket : adds 0 getBucket.
Proof. intros w. unfold getBucket. cbn. lia. Qed.

Lemma adds_getProcs : adds 0 getProcs.
Proof. intros w. unfold getProcs. cbn. lia. Qed.

Lemma adds_forEach {A} (xs : list A) (body : A -> IO unit) :
  (forall x, adds 0 (body x)) -> adds 0 (forEach xs body).
Proof.
  intros Hbody. induction xs as [|x xs IH]; cbn [forEach].
  - apply adds_ret.
  - apply (adds_bind 0 0); [apply Hbody | intros _; exact IH].
Qed.

Create HintDb adds discriminated.
#[local] Hint Resolve adds_log adds_step adds_Now adds_setFs adds_setBucket
  adds_getFs adds_getBucket adds_getProcs : adds.

(** Decompose a computation that performs no transfer. *)
Ltac adds0 :=
  cbv beta;
  lazymatch goal with
  | |- adds 0 (ret _) => apply adds_ret
  | |- adds 0 (bind _ _) => apply (adds_bind 0 0); [adds0 | intros; adds0]
  | |- adds 0 (emit ?e) => exact (adds_emit e)
  | |- adds 0 (external ?e _) =>
      unfold external; apply (adds_bind 0 0); [exact (adds_emit e) | intros; adds0]
  | |- adds 0 (match ?x with _ => _ end) => destruct x; adds0
  | |- adds 0 _ => solve [auto with adds]
  end.

(** Decompose a computation that performs at most one transfer. *)
Ltac adds1 :=
  cbv beta;
  lazymatch goal with
  | |- adds 1 (bind _ _) =>
      first [ apply (adds_bind 0 1); [solve [adds0] | intros; adds1]
            | apply (adds_bind 1 0); [adds1 | intros; adds0] ]
  | |- adds 1 (external ?e _) =>
      unfold external; apply (adds_bind 1 0); [exact (adds_emit e) | intros; adds0]
  | |- adds 1 (match ?x with _ => _ end) => destruct x; adds1
  | |- adds 1 _ =>
      first [ solve [auto with adds] | apply (adds_le 0 1); [lia | adds0] ]
  end.

Lemma adds_os_Stat p : adds 0 (os.Stat p).
Proof. unfold os.Stat. adds0. Qed.
Lemma adds_os_Open p : adds 0 (os.Open p).
Proof. unfold os.Open. adds0. Qed.
Lemma adds_os_Create p : adds 0 (os.Create p).
Proof. unfold os.Create. adds0. Qed.
Lemma adds_os_Write p b : adds 0 (os.Write p b).
Proof. unfold os.Write. adds0. Qed.
Lemma adds_os_Mkdir p : adds 0 (os.Mkdir p).
Proof. unfold os.Mkdir. adds0. Qed.
Lemma adds_os_MkdirAll p : adds 0 (os.MkdirAll p).
Proof. unfold os.MkdirAll. adds0. Qed.
Lemma adds_os_Chtimes p t : adds 0 (os.Chtimes p t).
Proof. unfold os.Chtimes. adds0. Qed.
Lemma adds_os_Remove p : adds 0 (os.Remove p).
Proof. unfold os.Remove. adds0. Qed.
#[local] Hint Resolve adds_os_Stat adds_os_Open adds_os_Create adds_os_Write
  adds_os_Mkdir adds_os_MkdirAll adds_os_Chtimes adds_os_Remove : adds.

Lemma adds_os_ReadFile p : adds 0 (os.ReadFile p).
Proof. unfold os.ReadFile. auto with adds. Qed.
Lemma adds_os_WriteFile p b : adds 0 (os.WriteFile p b).
Proof. unfold os.WriteFile. adds0. Qed.
Lemma adds_BucketExists : adds 0 minio.BucketExists.
Proof. unfold minio.BucketExists. adds0. Qed.
Lemma adds_MakeBucket : adds 0 minio.MakeBucket.
Proof. unfold minio.MakeBucket. adds0. Qed.
Lemma adds_StatObject n : adds 0 (minio.StatObject n).
Proof. unfold minio.StatObject. adds0. Qed.
Lemma adds_ListObjects : adds 0 minio.ListObjects.
Proof. unfold minio.ListObjects. adds0. Qed.
Lemma adds_FGetObject n p : adds 1 (minio.FGetObject n p).
Proof. unfold minio.FGetObject. adds1. Qed.
Lemma adds_FPutObject n p m : adds 1 (minio.FPutObject n p m).
Proof. unfold minio.FPutObject. adds1. Qed.
Lemma adds_Processes : adds 0 Processes.
Proof. unfold Processes. adds0. Qed.
#[local] Hint Resolve adds_os_ReadFile adds_os_WriteFile adds_BucketExists
  adds_MakeBucket adds_StatObject adds_ListObjects adds_FGetObject adds_FPutObject
  adds_Processes : adds.

Lemma adds_getCloudModTime stat : adds 0 (Main.getCloudModTime stat).
Proof. unfold Main.getCloudModTime. adds0. Qed.
Lemma adds_Main_copyFile a b : adds 0 (Main.copyFile a b).
Proof. unfold Main.copyFile. adds0. Qed.
Lemma adds_Main_fileExists p : adds 0 (Main.fileExists p).
Proof. unfold Main.fileExists. adds0. Qed.
Lemma adds_ensureFolderExists p : adds 0 (Main.ensureFolderExists p).
Proof. unfold Main.ensureFolderExists. adds0. Qed.
Lemma adds_Sync_copyFile a b : adds 0 (Sync.copyFile a b).
Proof. unfold Sync.copyFile. adds0. Qed.
Lemma adds_Sync_fileExists p : adds 0 (Sync.fileExists p).
Proof. unfold Sync.fileExists. adds0. Qed.
Lemma adds_ensureDir p : adds 0 (Sync.ensureDir p).
Proof. unfold Sync.ensureDir. adds0. Qed.
Lemma adds_Storage_Stat n : adds 0 (Storage.Stat n).
Proof. unfold Storage.Stat. adds0. Qed.
Lemma adds_Storage_Download n p : adds 1 (Storage.Download n p).
Proof. unfold Storage.Download. adds1. Qed.
#[local] Hint Resolve adds_getCloudModTime adds_Main_copyFile adds_Main_fileExists
  adds_ensureFolderExists adds_Sync_copyFile adds_Sync_fileExists adds_ensureDir
  adds_Storage_Stat adds_Storage_Download : adds.

Section Transfers.
Context `{Platform}.

Lemma adds_Storage_Upload p n : adds 1 (Storage.Upload p n).
Proof. unfold Storage.Upload. adds1. Qed.

Lemma adds_createBackupTimeFolder cfg : adds 0 (Main.createBackupTimeFolder cfg).
Proof. unfold Main.createBackupTimeFolder. adds0. Qed.

Lemma adds_uploadToCloud p n : adds 1 (Main.uploadToCloud p n).
Proof. unfold Main.uploadToCloud. adds1. Qed.

Hint Resolve adds_Storage_Upload adds_createBackupTimeFolder adds_uploadToCloud : adds.

Lemma adds_Main_backupAndUpload cfg p : adds 1 (Main.backupAndUpload cfg p).
Proof. unfold Main.backupAndUpload. adds1. Qed.

Lemma adds_backupAndReplace cfg p q : adds 0 (Main.backupAndReplace cfg p q).
Proof. unfold Main.backupAndReplace. adds0. Qed.

Lemma adds_createTimestampedBackupDir s : adds 0 (Sync.createTimestampedBackupDir s).
Proof. unfold Sync.createTimestampedBackupDir. adds0. Qed.

Hint Resolve adds_Main_backupAndUpload adds_backupAndReplace
  adds_createTimestampedBackupDir : adds.

Lemma adds_createBackup s p : adds 0 (Sync.createBackup s p).
Proof. unfold Sync.createBackup. adds0. Qed.

Hint Resolve adds_createBackup : adds.

Lemma adds_Sync_backupAndUpload s p n : adds 1 (Sync.backupAndUpload s p n).
Proof. unfold Sync.backupAndUpload. adds1. Qed.

Lemma adds_downloadAndReplace s n p t : adds 1 (Sync.downloadAndReplace s n p t).
Proof. unfold Sync.downloadAndReplace. adds1. Qed.

Hint Resolve adds_Sync_backupAndUpload adds_downloadAndReplace : adds.

Lemma adds_SyncFile s p : adds 1 (Sync.SyncFile s p).
Proof. unfold Sync.SyncFile. adds1. Qed.

Lemma adds_checkCloudAndSync cfg p : adds 1 (Main.checkCloudAndSync cfg p).
Proof. unfold Main.checkCloudAndSync. adds1. Qed.

End Transfers.

(** ** The backup of the syncer *)

(** Case analysis on the next [match] of the goal whose scrutinee has none
    inside. *)
Ltac destruct_match :=
  match goal with
  | |- context [match ?x with _ => _ end] =>
      lazymatch x with
      | context [match _ with _ => _ end] => fail
      | _ => destruct x eqn:?
      end
  end.

(** What [os.MkdirAll] does to the parents of a path: what was there stays
    as it was, and what is new is a directory. *)
Lemma mkdirParents_step (n : nat) (path : string) (now : Go.Time) (m : gmap string File) :
  os.mkdirParents (S n) path now m =
    if String.eqb path "" || String.eqb path "/" then inr m
    else match m !! path with
         | Some f => if isDir f then inr m else inl ENotDir
         | None =>
             match os.mkdirParents n (Go.parentDir path) now m with
             | inl e => inl e
             | inr m' => inr (<[path := mkFile "" now true]> m')
             end
         end.
Proof. reflexivity. Qed.

Lemma mkdirParents_keeps (fuel : nat) :
  forall (path : string) (now : Go.Time) (m m' : gmap string File) (q : string) (g : File),
    os.mkdirParents fuel path now m = inr m' ->
    m !! q = Some g -> m' !! q = Some g.
Proof.
  induction fuel as [|n IH]; intros path now m m' q g.
  - intros [= <-]. auto.
  - rewrite mkdirParents_step.
    destruct (String.eqb path "" || String.eqb path "/"); [intros [= <-]; auto |].
    destruct (m !! path) as [f|] eqn:Hp.
    + destruct (isDir f); [intros [= <-]; auto | discriminate].
    + destruct (os.mkdirParents n (Go.parentDir path) now m) as [e|m1] eqn:Hrec;
        [discriminate |].
      intros [= <-] Hq. rewrite lookup_insert_ne by congruence.
      exact (IH _ _ _ _ _ _ Hrec Hq).
Qed.

Lemma ancestors_step (n : nat) (path : string) :
  os.ancestors (S n) path =
    if String.eqb path "" || String.eqb path "/" then []
    else path :: os.ancestors n (Go.parentDir path).
Proof. reflexivity. Qed.

Lemma mkdirParents_adds (fuel : nat) :
  forall (path : string) (now : Go.Time) (m m' : gmap string File) (q : string) (g : File),
    os.mkdirParents fuel path now m = inr m' ->
    m' !! q = Some g ->
    m !! q = Some g \/
    (m !! q = None /\ g = mkFile "" now true /\ In q (os.ancestors fuel path)).
Proof.
  induction fuel as [|n IH]; intros path now m m' q g.
  - intros [= <-]. auto.
  - rewrite mkdirParents_step, ancestors_step.
    destruct (String.eqb path "" || String.eqb path "/"); [intros [= <-]; auto |].
    destruct (m !! path) as [f|] eqn:Hp.
    + destruct (isDir f); [intros [= <-]; auto | discriminate].
    + destruct (os.mkdirParents n (Go.parentDir path) now m) as [e|m1] eqn:Hrec;
        [discriminate |].
      intros [= <-]. destruct (decide (path = q)) as [<- | Hne].
      * rewrite lookup_insert_eq. intros [= <-]. right. cbn. auto.
      * rewrite lookup_insert_ne by exact Hne. intros Hq.
        destruct (IH _ _ _ _ _ _ Hrec Hq) as [Hold | (Hnone & Hg & Hin)]; [auto |].
        right. cbn. auto.
Qed.

(** The parent is shorter than the path: the recursion of [os.MkdirAll]
    ends, and fuel at the length of the path is enough. *)
Lemma dropSeps_length (l : list ascii) : (length (Go.dropSeps l) <= length l)%nat.
Proof. induction l as [|c t IH]; cbn; [lia |]. destruct (Go.IsPathSeparator c); cbn; lia. Qed.

Lemma dropElem_length (l : list ascii) : (length (Go.dropElem l) <= length l)%nat.
Proof. induction l as [|c t IH]; cbn; [lia |]. destruct (Go.IsPathSeparator c); cbn; lia. Qed.

Lemma dropElem_shorter (l : list ascii) :
  Go.dropSeps l = l -> l <> [] -> (length (Go.dropElem l) < length l)%nat.
Proof.
  destruct l as [|c t]; [congruence |]. cbn.
  destruct (Go.IsPathSeparator c) eqn:Hc.
  - intros E _. pose proof (dropSeps_length t) as Hl. rewrite E in Hl. cbn in Hl. lia.
  - intros _ _. pose proof (dropElem_length t). lia.
Qed.

Lemma dropSeps_idem (l : list ascii) : Go.dropSeps (Go.dropSeps l) = Go.dropSeps l.
Proof.
  induction l as [|c t IH]; cbn; [reflexivity |].
  destruct (Go.IsPathSeparator c) eqn:Hc; [exact IH |]. cbn. now rewrite Hc.
Qed.

Lemma length_string_of_list (l : list ascii) :
  String.length (string_of_list_ascii l) = length l.
Proof. induction l as [|c t IH]; cbn; [reflexivity |]. now rewrite IH. Qed.

Lemma length_list_of_string (s : string) :
  length (list_ascii_of_string s) = String.length s.
Proof. induction s as [|c t IH]; cbn; [reflexivity |]. now rewrite IH. Qed.

Lemma parentDir_shorter (path : string) :
  path <> "" -> (String.length (Go.parentDir path) < String.length path)%nat.
Proof.
  intros Hne. unfold Go.parentDir.
  set (l := rev (list_ascii_of_string path)).
  assert (length l = String.length path) as Hl
    by (unfold l; now rewrite length_rev, length_list_of_string).
  assert (0 < String.length path)%nat as Hpos by (destruct path; [congruence | cbn; lia]).
  pose proof (dropSeps_length l) as H1.
  assert (length (Go.dropElem (Go.dropSeps l)) < length l)%nat as Hrest.
  { pose proof (dropSeps_idem l) as Hid.
    destruct (Go.dropSeps l) as [|c t]; [cbn; lia |].
    pose proof (dropElem_shorter (c :: t) Hid ltac:(discriminate)). lia. }
  set (rest := Go.dropElem (Go.dropSeps l)) in *.
  pose proof (dropSeps_length rest) as H2.
  destruct (Go.dropSeps rest) as [|c t] eqn:E.
  - destruct rest as [|c0 t0] eqn:Er; cbn; [lia |]. cbn in Hrest. lia.
  - rewrite length_string_of_list, length_rev. lia.
Qed.

Lemma mkdirParents_fuel (n : nat) :
  forall (k : nat) (path : string) (now : Go.Time) (m : gmap string File),
    (String.length path <= n)%nat -> (String.length path <= k)%nat ->
    os.mkdirParents n path now m = os.mkdirParents k path now m.
Proof.
  induction n as [|n IH]; intros k path now m Hn Hk.
  - destruct path; [| cbn in Hn; lia]. destruct k; reflexivity.
  - destruct k as [|k].
    { destruct path; [reflexivity | cbn in Hk; lia]. }
    destruct path as [|c t]; [reflexivity |].
    rewrite !mkdirParents_step.
    destruct (String.eqb (String c t) "" || String.eqb (String c t) "/"); [reflexivity |].
    destruct (m !! String c t); [reflexivity |].
    pose proof (parentDir_shorter (String c t) ltac:(discriminate)) as Hs.
    rewrite (IH k (Go.parentDir (String c t)) now m) by lia. reflexivity.
Qed.

Lemma mkdirParents_absent (fuel : nat) (path : string) (now : Go.Time)
    (m m' : gmap string File) (q : string) :
  os.mkdirParents fuel path now m = inr m' -> m' !! q = None -> m !! q = None.
Proof.
  intros Hmk Hq. destruct (m !! q) as [g|] eqn:Hg; [| reflexivity].
  rewrite (mkdirParents_keeps _ _ _ _ _ _ _ Hmk Hg) in Hq. discriminate.
Qed.

(** A lookup under insertions at keys that were absent, or that are known
    to differ from the key looked up. *)
Ltac peel :=
  lazymatch goal with
  | |- <[?k := ?x]> ?m !! ?q = Some ?g =>
      let K := fresh "K" in
      assert (K : m !! q = Some g) by peel;
      rewrite lookup_insert_ne;
      [ exact K
      | first [ solve [auto]
              | let E := fresh "E" in intros E; rewrite <- E in K; congruence ] ]
  | Hmk : os.mkdirParents _ _ _ ?m = inr ?m' |- ?m' !! ?q = Some ?g =>
      apply (mkdirParents_keeps _ _ _ _ _ _ _ Hmk); peel
  | |- _ => assumption
  end.

Ltac same_file q f :=
  repeat match goal with
  | Hx : ?M !! q = Some ?f1 |- _ =>
      lazymatch f1 with
      | f => fail
      | _ =>
          let K := fresh "K" in
          assert (K : M !! q = Some f) by peel;
          rewrite K in Hx; injection Hx as <-
      end
  end.

Section SyncerBackup.
Context `{Platform}.

(** A backup that reports success has put the bytes of the file into a
    file of a fresh directory under the backup root. *)
Lemma createBackup_copies (s : Sync.Syncer) (filePath : string) (w w' : World) (f : File) :
  Sync.createBackup s filePath w = (None, w') ->
  fs w !! filePath = Some f ->
  exists stamp t,
    fs w' !! Join (Join (Sync.backupDir s) stamp) (Go.Base filePath)
      = Some (mkFile (data f) t false).
Proof.
  intros Hrun Hf. revert Hrun.
  unfold Sync.createBackup, Sync.createTimestampedBackupDir, Sync.ensureDir, Sync.copyFile.
  io_unfold. cbn.
  repeat (destruct_match; cbn); try discriminate; intros [= <-]; cbn.
  all: same_file filePath f.
  all: eexists _, _; apply lookup_insert_eq.
Qed.

(** Whatever the outcome, a backup leaves every existing file alone, the
    backup copy's own path apart. *)
Lemma createBackup_keeps (s : Sync.Syncer) (filePath q : string) (w : World) (g : File) :
  fs w !! q = Some g ->
  (forall stamp, Join (Join (Sync.backupDir s) stamp) (Go.Base filePath) <> q) ->
  fs (snd (Sync.createBackup s filePath w)) !! q = Some g.
Proof.
  intros Hq Hne.
  unfold Sync.createBackup, Sync.createTimestampedBackupDir, Sync.ensureDir, Sync.copyFile.
  io_unfold. cbn.
  repeat (destruct_match; cbn); peel.
Qed.

(** The same, for the time stamps the clock of the run can give. *)
Lemma createBackup_keeps_other (s : Sync.Syncer) (filePath q : string) (w : World) (g : File) :
  fs w !! q = Some g ->
  (forall k, Join (Join (Sync.backupDir s) (FormatStamp (clock w k))) (Go.Base filePath) <> q) ->
  fs (snd (Sync.createBackup s filePath w)) !! q = Some g.
Proof.
  intros Hq Hne.
  unfold Sync.createBackup, Sync.createTimestampedBackupDir, Sync.ensureDir, Sync.copyFile.
  io_unfold. cbn.
  repeat (destruct_match; cbn); peel.
Qed.

End SyncerBackup.

(** ** The syncer's transfers are guarded by the backup *)

(** Membership of an operation in a trace built by appending. *)
Ltac in_trace :=
  repeat match goal with
  | |- In _ (_ ++ [_]) => apply in_or_app; first [right; left; reflexivity | left]
  end.

Section SyncerGuards.
Context `{Platform}.

Lemma fileExists_true (p : string) (w w1 : World) :
  Sync.fileExists p w = (true, w1) ->
  fs w1 = fs w /\ is_Some (fs w !! p) /\
  transfers (trace w1) = transfers (trace w).
Proof.
  unfold Sync.fileExists. io_unfold. cbn.
  destruct (faults w (steps w)); cbn; [discriminate |].
  destruct (fs w !! p) as [f|]; cbn; [| discriminate].
  intros [= <-]. cbn. unfold transfers. rewrite List.filter_app. cbn.
  rewrite app_nil_r. eauto.
Qed.

(** X21.  The syncer backs up before it transfers, as far as its existence
    check can see.  When the local file exists and the stat of the check
    goes through, [backupAndUpload] and [downloadAndReplace] start with the
    backup: a failed backup ends the call there, with no transfer made and
    the file as it was; a successful one has stored the bytes of the file
    before the transfer begins.  When that stat fails the file is taken for
    absent: no backup is made, and the upload or the replacement goes on
    all the same. *)
Theorem Syncer_backup_guards_transfer (s : Sync.Syncer) (p n : string) (t : Go.Time)
    (w : World) (f : File) :
  fs w !! p = Some f ->
  let w1 := snd (Sync.fileExists p w) in
  (faults w (steps w) = false ->
   forall (b : option error) (w2 : World),
     Sync.createBackup s p w1 = (b, w2) ->
     match b with
     | Some e =>
         Sync.backupAndUpload s p n w = (Some (Wrapf "failed to create backup: %w" e), w2) /\
         Sync.downloadAndReplace s n p t w = (Some (Wrapf "failed to create backup: %w" e), w2) /\
         (length (transfers (trace w2)) <= length (transfers (trace w)))%nat /\
         ((forall k, Join (Join (Sync.backupDir s) (FormatStamp (clock w k))) (Go.Base p) <> p) ->
          fs w2 !! p = Some f)
     | None =>
         (exists stamp t',
            fs w2 !! Join (Join (Sync.backupDir s) stamp) (Go.Base p)
              = Some (mkFile (data f) t' false)) /\
         Sync.backupAndUpload s p n w =
           (up <- Storage.Upload p n ;;
            match up with
            | Some err => ret (Some (Wrapf "failed to upload: %w" err))
            | None => log "Uploaded %s to cloud" ;;; ret None
            end) w2 /\
         (length (transfers (trace w2)) <= length (transfers (trace w)))%nat
     end) /\
  (faults w (steps w) = true ->
   fs (snd (Sync.backupAndUpload s p n w)) = fs w /\
   Sync.backupAndUpload s p n w =
     (up <- Storage.Upload p n ;;
      match up with
      | Some err => ret (Some (Wrapf "failed to upload: %w" err))
      | None => log "Uploaded %s to cloud" ;;; ret None
      end) w1 /\
   (forall q, q <> p -> q <> Join TempDir (n +:+ ".download") ->
      fs (snd (Sync.downloadAndReplace s n p t w)) !! q = fs w !! q) /\
   (fst (Sync.downloadAndReplace s n p t w) = None ->
    Join TempDir (n +:+ ".download") <> p ->
    exists objs o, bucket w = Some objs /\ objs !! n = Some o /\
      localData (snd (Sync.downloadAndReplace s n p t w)) p = Some (body o))).
Proof.
  intros Hf w1. split.
  - intros Hfault b w2 Hb.
    assert (Sync.fileExists p w = (true, w1)) as Hex.
    { subst w1. unfold Sync.fileExists. io_unfold. cbn. rewrite Hfault. cbn.
      rewrite Hf. reflexivity. }
    assert (clock w1 = clock w) as Hclock.
    { subst w1. unfold Sync.fileExists. io_unfold. cbn. rewrite Hfault. cbn.
      rewrite Hf. reflexivity. }
    destruct (fileExists_true p w w1 Hex) as (Hfs & _ & Htr).
    assert (length (transfers (trace w2)) <= length (transfers (trace w)))%nat as Hlen.
    { pose proof (adds_createBackup s p w1) as Hadd. rewrite Hb in Hadd.
      cbn [snd] in Hadd. rewrite Htr in Hadd. lia. }
    assert (fs w1 !! p = Some f) as Hf1 by (now rewrite Hfs).
    destruct b as [e|].
    + split; [| split; [| split]].
      * unfold Sync.backupAndUpload. unfold bind at 1. rewrite Hex.
        unfold bind at 1. rewrite Hb. reflexivity.
      * unfold Sync.downloadAndReplace. unfold bind at 1. rewrite Hex.
        unfold bind at 1. rewrite Hb. reflexivity.
      * exact Hlen.
      * intros Hne. rewrite <- Hclock in Hne.
        pose proof (createBackup_keeps_other s p p w1 f Hf1 Hne) as Hk.
        now rewrite Hb in Hk.
    + split; [| split].
      * exact (createBackup_copies s p w1 w2 f Hb Hf1).
      * unfold Sync.backupAndUpload. unfold bind at 1. rewrite Hex.
        unfold bind at 1. rewrite Hb. reflexivity.
      * exact Hlen.
  - intros Hfault.
    assert (Sync.fileExists p w = (false, w1)) as Hex.
    { subst w1. unfold Sync.fileExists. io_unfold. cbn. rewrite Hfault. reflexivity. }
    split; [| split; [| split]].
    + unfold Sync.backupAndUpload, Sync.fileExists, Storage.Upload. io_unfold. cbn.
      rewrite Hfault. cbn. repeat (destruct_match; cbn); reflexivity.
    + unfold Sync.backupAndUpload. unfold bind at 1. rewrite Hex. reflexivity.
    + intros q Hqp Hqt.
      assert (p <> q) as Hpq by congruence.
      assert (Join TempDir (n +:+ ".download") <> q) as Htq by congruence.
      unfold Sync.downloadAndReplace, Sync.fileExists, Storage.Download, Sync.copyFile.
      io_unfold. cbn. rewrite Hfault. cbn.
      repeat (destruct_match; cbn);
        repeat first [ rewrite lookup_delete_ne by assumption
                     | rewrite lookup_insert_ne by assumption ];
        reflexivity.
    + intros Hnone Htemp.
      assert (p <> Join TempDir (n +:+ ".download")) as Htemp' by congruence.
      revert Hnone.
      unfold Sync.downloadAndReplace, Sync.fileExists, Storage.Download, Sync.copyFile.
      io_unfold. cbn. rewrite Hfault. cbn.
      repeat (first [ rewrite lookup_insert_eq
                    | rewrite lookup_delete_ne by assumption
                    | rewrite lookup_insert_ne by assumption
                    | destruct_match ]; cbn);
        try discriminate; intros _; unfold localData; cbn;
        repeat first [ rewrite lookup_insert_eq
                     | rewrite lookup_delete_ne by assumption
                     | rewrite lookup_insert_ne by assumption ]; cbn;
        eexists _, _; (split; [reflexivity |]); (split; [eassumption | reflexivity]).
Qed.

(** A download of the syncer that ends with a backup or a download error has
    left the local file with the content and the time it had. *)
Lemma Syncer_download_failure_keeps_local (s : Sync.Syncer) (n p : string) (t : Go.Time)
    (w w' : World) (r : option error) :
  Sync.downloadAndReplace s n p t w = (r, w') ->
  (forall stamp, Join (Join (Sync.backupDir s) stamp) (Go.Base p) <> p) ->
  (exists e, r = Some (Wrapf "failed to create backup: %w" e)) \/
  (exists e, r = Some (Wrapf "failed to download: %w" e)) ->
  fs w' !! p = fs w !! p.
Proof.
  intros Hrun Hne Hshape. revert Hrun.
  unfold Sync.downloadAndReplace, Sync.fileExists, Storage.Download, Sync.copyFile.
  io_unfold. cbn.
  repeat (destruct_match; cbn); intros [= <- <-];
    try (destruct Hshape as [[e He] | [e He]]; discriminate He); cbn;
    try reflexivity.
  all: try assumption.
  all: match goal with
       | Hb : Sync.createBackup _ _ ?w1 = (_, ?w2), Hf : _ !! _ = Some ?f |- _ =>
           let Hk := fresh in
           pose proof (createBackup_keeps s p p w1 f Hf Hne) as Hk;
           rewrite Hb in Hk; exact Hk
       end.
Qed.

(** X22.  A download of the syncer that reports success has put the object's
    bytes into the local file, has asked for the temporary file to be
    removed, and has set the file's time or logged the warning. *)
Lemma Syncer_download_success (s : Sync.Syncer) (n p : string) (t : Go.Time)
    (w w' : World) :
  Sync.downloadAndReplace s n p t w = (None, w') ->
  Join TempDir (n +:+ ".download") <> p ->
  (exists objs o, bucket w' = Some objs /\ objs !! n = Some o /\
                  localData w' p = Some (body o)) /\
  In (EvRemove (Join TempDir (n +:+ ".download"))) (trace w') /\
  (localMtime w' p = Some t \/
   In (EvLog "Warning: failed to set mod time on %s: %v") (trace w')).
Proof.
  intros Hrun Htemp.
  assert (p <> Join TempDir (n +:+ ".download")) as Htemp' by congruence.
  revert Hrun.
  unfold Sync.downloadAndReplace, Sync.fileExists, Storage.Download, Sync.copyFile.
  io_unfold. cbn.
  repeat (first [ rewrite lookup_insert_eq
                | rewrite lookup_delete_ne by assumption
                | rewrite lookup_insert_ne by assumption
                | destruct_match ]; cbn);
    try discriminate; intros [= <-]; unfold localData, localMtime; cbn.
  all: repeat first [ rewrite lookup_insert_eq
                    | rewrite lookup_delete_ne by assumption
                    | rewrite lookup_insert_ne by assumption ]; cbn.
  all: (split; [eexists _, _; split; [reflexivity | split; [eassumption | reflexivity]] |]).
  all: (split; [in_trace | first [left; reflexivity | right; in_trace]]).
Qed.

End SyncerGuards.

(** ** A missing remote copy: back up, then upload *)

Lemma before_later (a b e : Event) (t : list Event) :
  before a b t -> before a b (t ++ [e]).
Proof.
  intros (t1 & t2 & t3 & ->). exists t1, t2, (t3 ++ [e])%list.
  rewrite <- !app_assoc. cbn. rewrite <- !app_assoc. reflexivity.
Qed.

Lemma before_last (a b : Event) (t : list Event) :
  In a t -> before a b (t ++ [b]).
Proof.
  intros Hin. apply in_split in Hin as (t1 & t2 & ->).
  exists t1, t2, []. rewrite <- !app_assoc. reflexivity.
Qed.

(** An operation recorded in a trace that grows by single operations. *)
Ltac ordered :=
  repeat first [ apply before_last; solve [in_trace; try assumption]
               | apply before_later ].

Section RemoteMissingResult.
Context `{Platform}.

(** A backup of the syncer that reports success: the copy is written, the
    file keeps its bytes, the bucket is not touched. *)
Lemma createBackup_done (s : Sync.Syncer) (filePath : string) (w w' : World) (f : File) :
  Sync.createBackup s filePath w = (None, w') ->
  fs w !! filePath = Some f -> isDir f = false ->
  exists stamp t,
    fs w' !! Join (Join (Sync.backupDir s) stamp) (Go.Base filePath)
      = Some (mkFile (data f) t false) /\
    In (EvWrite (Join (Join (Sync.backupDir s) stamp) (Go.Base filePath))) (trace w') /\
    (exists f', fs w' !! filePath = Some f' /\ data f' = data f /\ isDir f' = false) /\
    bucket w' = bucket w.
Proof.
  intros Hrun Hf Hd. revert Hrun.
  unfold Sync.createBackup, Sync.createTimestampedBackupDir, Sync.ensureDir, Sync.copyFile.
  io_unfold. cbn.
  repeat (destruct_match; cbn); try discriminate; intros [= <-]; cbn.
  all: same_file filePath f.
  all: eexists _, _; split; [apply lookup_insert_eq |].
  all: split; [in_trace |].
  all: split; [| reflexivity].
  all: match goal with
       | |- exists f', <[?k := _]> _ !! ?q = Some f' /\ _ =>
           destruct (decide (k = q)) as [E | E];
           [ rewrite E, lookup_insert_eq; eexists; repeat split; reflexivity
           | rewrite !lookup_insert_ne by exact E ]
       end.
  all: exists f; split; [peel | auto].
Qed.

Lemma Upload_done (localPath objectName : string) (w w' : World) :
  Storage.Upload localPath objectName w = (None, w') ->
  exists f objs t meta,
    fs w !! localPath = Some f /\ bucket w = Some objs /\
    bucket w' = Some (<[objectName := mkObject (data f) (minio.storedMeta meta) t]> objs) /\
    trace w' = ((trace w ++ [EvStat localPath]) ++ [EvPutObject objectName localPath meta])%list /\
    fs w' = fs w.
Proof.
  unfold Storage.Upload. io_unfold. cbn.
  destruct (faults w (steps w)); cbn; [discriminate |].
  destruct (fs w !! localPath) as [f|] eqn:Hf; cbn; [| discriminate].
  destruct (faults w (S (steps w))); cbn; [discriminate |].
  rewrite Hf. destruct (isDir f) eqn:Hd; cbn; [discriminate |].
  destruct (bucket w) as [objs|] eqn:Hb; cbn; [| discriminate].
  intros [= <-]. cbn. eexists f, objs, _, _.
  split; [reflexivity |]. split; [reflexivity |]. split; [reflexivity |].
  split; reflexivity.
Qed.

(** The syncer's upload of a file that its existence check sees. *)
Lemma Syncer_upload_done (s : Sync.Syncer) (p n : string) (w w' : World)
    (f : File) (objs : gmap string Object) :
  fs w !! p = Some f -> isDir f = false -> faults w (steps w) = false ->
  bucket w = Some objs ->
  Sync.backupAndUpload s p n w = (None, w') ->
  exists stamp t meta t',
    fs w' !! Join (Join (Sync.backupDir s) stamp) (Go.Base p)
      = Some (mkFile (data f) t false) /\
    bucket w' = Some (<[n := mkObject (data f) (minio.storedMeta meta) t']> objs) /\
    before (EvWrite (Join (Join (Sync.backupDir s) stamp) (Go.Base p)))
           (EvPutObject n p meta) (trace w').
Proof.
  intros Hf Hd Hfault Hb.
  unfold Sync.backupAndUpload. unfold bind at 1.
  assert (Sync.fileExists p w =
            (true, mkWorld (fs w) (bucket w) (procs w) (faults w) (clock w) (S (steps w))
                           (trace w ++ [EvStat p]))) as ->.
  { unfold Sync.fileExists. io_unfold. cbn. rewrite Hfault. cbn. rewrite Hf. reflexivity. }
  unfold bind at 1.
  destruct (Sync.createBackup s p _) as [[e|] w2] eqn:Hbk; [discriminate |].
  destruct (createBackup_done s p _ w2 f Hbk Hf Hd)
    as (stamp & t & Hcopy & Hwrite & (f' & Hf' & Hdata & Hd') & Hb2).
  cbn [bucket] in Hb2.
  unfold bind at 1. destruct (Storage.Upload p n w2) as [[e|] w3] eqn:Hup; [discriminate |].
  destruct (Upload_done p n w2 w3 Hup) as (f0 & objs0 & t' & meta & Hf0 & Hb0 & Hb3 & Htr & Hfs).
  unfold log, emit, bind, ret. intros [= <-]. cbn.
  rewrite Hf' in Hf0. injection Hf0 as <-.
  rewrite Hb2, Hb in Hb0. injection Hb0 as <-.
  exists stamp, t, meta, t'. split; [now rewrite Hfs |].
  split; [now rewrite Hb3, Hdata |].
  rewrite Htr. ordered.
Qed.


(** With no failing operation and a free backup place, the upload of the
    legacy program and of the syncer go through. *)
Lemma Main_upload_done (cfg : Main.Config) (p : string) (w : World)
    (f : File) (objs : gmap string Object) :
  fs w !! p = Some f -> isDir f = false -> (forall k, faults w k = false) ->
  bucket w = Some objs -> backupFree w (Main.backupDir cfg) p ->
  let w' := snd (Main.backupAndUpload cfg p w) in
  exists stamp t meta t',
    fs w' !! Join (Join (Main.backupDir cfg) stamp) (Go.Base p)
      = Some (mkFile (data f) t false) /\
    bucket w' = Some (<[Go.Base p := mkObject (data f) (minio.storedMeta meta) t']> objs) /\
    before (EvWrite (Join (Join (Main.backupDir cfg) stamp) (Go.Base p)))
           (EvPutObject (Go.Base p) p meta) (trace w').
Proof.
  intros Hf Hd Hnf Hb [(d & Hbd & Hdd) Hfree].
  assert (forall k, fs w !! Join (Main.backupDir cfg) (FormatStamp (clock w k)) = None)
    as F1 by (intros k; apply (Hfree k)).
  assert (forall k, fs w !! Join (Join (Main.backupDir cfg) (FormatStamp (clock w k)))
                                 (Go.Base p) = None)
    as F2 by (intros k; apply (Hfree k)).
  assert (forall k, Join (Main.backupDir cfg) (FormatStamp (clock w k)) <> p) as N1.
  { intros k E. pose proof (F1 k) as K. rewrite E in K. congruence. }
  assert (forall k, Join (Join (Main.backupDir cfg) (FormatStamp (clock w k))) (Go.Base p) <> p)
    as N2.
  { intros k E. pose proof (F2 k) as K. rewrite E in K. congruence. }
  assert (forall k, Join (Main.backupDir cfg) (FormatStamp (clock w k)) <>
                    Join (Join (Main.backupDir cfg) (FormatStamp (clock w k))) (Go.Base p))
    as N3.
  { intros k E. destruct (Hfree k) as (_ & _ & K). apply K. now rewrite <- E. }
  cbn zeta.
  unfold Main.backupAndUpload, Main.createBackupTimeFolder, Main.ensureFolderExists,
    Main.copyFile, Main.uploadToCloud.
  io_unfold. cbn. rewrite !Hnf. cbn.
  repeat (first [ rewrite Hnf | rewrite Hbd | rewrite Hdd | rewrite Hf | rewrite Hd | rewrite Hb
                | rewrite F1 | rewrite F2
                | rewrite lookup_insert_ne by first [apply N1 | apply N2 | apply N3] ];
          cbn).
  eexists _, _, _, _. split; [apply lookup_insert_eq |].
  split; [reflexivity |]. ordered.
Qed.

Lemma Syncer_upload_succeeds (s : Sync.Syncer) (p n : string) (w : World)
    (f : File) (objs : gmap string Object) :
  fs w !! p = Some f -> isDir f = false -> (forall k, faults w k = false) ->
  bucket w = Some objs -> backupFree w (Sync.backupDir s) p ->
  fst (Sync.backupAndUpload s p n w) = None.
Proof.
  intros Hf Hd Hnf Hb [(d & Hbd & Hdd) Hfree].
  assert (forall k, fs w !! Join (Sync.backupDir s) (FormatStamp (clock w k)) = None)
    as F1 by (intros k; apply (Hfree k)).
  assert (forall k, fs w !! Join (Join (Sync.backupDir s) (FormatStamp (clock w k)))
                                 (Go.Base p) = None)
    as F2 by (intros k; apply (Hfree k)).
  assert (forall k, Join (Sync.backupDir s) (FormatStamp (clock w k)) <> p) as N1.
  { intros k E. pose proof (F1 k) as K. rewrite E in K. congruence. }
  assert (forall k, Join (Join (Sync.backupDir s) (FormatStamp (clock w k))) (Go.Base p) <> p)
    as N2.
  { intros k E. pose proof (F2 k) as K. rewrite E in K. congruence. }
  assert (forall k, Join (Sync.backupDir s) (FormatStamp (clock w k)) <>
                    Join (Join (Sync.backupDir s) (FormatStamp (clock w k))) (Go.Base p))
    as N3.
  { intros k E. destruct (Hfree k) as (_ & _ & K). apply K. now rewrite <- E. }
  unfold Sync.backupAndUpload, Sync.fileExists, Sync.createBackup,
    Sync.createTimestampedBackupDir, Sync.ensureDir, Sync.copyFile, Storage.Upload.
  io_unfold. cbn. rewrite !Hnf. cbn.
  repeat (first [ rewrite Hnf | rewrite Hbd | rewrite Hdd | rewrite Hf | rewrite Hd | rewrite Hb
                | rewrite F1 | rewrite F2
                | rewrite lookup_insert_ne by first [apply N1 | apply N2 | apply N3] ];
          cbn).
  reflexivity.
Qed.


Lemma os_Stat_inv (p : string) (w w1 : World) (info : FileInfo) :
  os.Stat p w = (inr info, w1) ->
  (exists f, fs w !! p = Some f /\ info = infoOf p f) /\
  w1 = mkWorld (fs w) (bucket w) (procs w) (faults w) (clock w) (S (steps w))
               (trace w ++ [EvStat p]).
Proof.
  unfold os.Stat. io_unfold. cbn.
  destruct (faults w (steps w)); cbn; [discriminate |].
  destruct (fs w !! p) as [f|]; cbn; [| discriminate].
  intros [= <- <-]. eauto.
Qed.

Lemma StatObject_world (n : string) (w : World) :
  snd (minio.StatObject n w) =
    mkWorld (fs w) (bucket w) (procs w) (faults w) (clock w) (S (steps w))
            (trace w ++ [EvStatObject n]).
Proof.
  unfold minio.StatObject. io_unfold. cbn.
  destruct (faults w (steps w)); cbn; [reflexivity |].
  destruct (bucket w) as [objs|]; cbn; [| reflexivity].
  destruct (objs !! n); reflexivity.
Qed.

(** C5.  When the local file exists and the bucket has no object under its
    base name, [SyncFile] and [checkCloudAndSync] go on to back up and upload
    the file, whatever its modification time.  A [SyncFile] that reports
    success (its existence check having seen the file) has written a copy
    of the bytes under the backup root and then put the same bytes into the
    bucket under the base name; and when no operation fails and the place
    of the backup is free, both programs do exactly that. *)
Theorem remote_missing_uploads (s : Sync.Syncer) (cfg : Main.Config)
    (filePath : string) (w w1 : World) (info : FileInfo) (objs : gmap string Object) :
  os.Stat filePath w = (inr info, w1) ->
  fiIsDir info = false ->
  bucket w1 = Some objs ->
  objs !! Go.Base filePath = None ->
  let w2 := snd (minio.StatObject (Go.Base filePath) w1) in
  Sync.SyncFile s filePath w =
    (log "File %s not found in cloud, uploading..." ;;;
     Sync.backupAndUpload s filePath (Go.Base filePath)) w2 /\
  Main.checkCloudAndSync cfg filePath w = Main.backupAndUpload cfg filePath w2 /\
  (forall f, fs w !! filePath = Some f ->
     (faults w (S (S (steps w))) = false ->
      forall w', Sync.SyncFile s filePath w = (None, w') ->
        backedUpThenUploaded w' (Sync.backupDir s) filePath (data f) objs) /\
     ((forall k, faults w k = false) ->
      (backupFree w (Sync.backupDir s) filePath ->
       fst (Sync.SyncFile s filePath w) = None /\
       backedUpThenUploaded (snd (Sync.SyncFile s filePath w))
         (Sync.backupDir s) filePath (data f) objs) /\
      (backupFree w (Main.backupDir cfg) filePath ->
       backedUpThenUploaded (snd (Main.checkCloudAndSync cfg filePath w))
         (Main.backupDir cfg) filePath (data f) objs))).
Proof.
  intros Hst Hdir Hb Hk w2.
  assert (Sync.SyncFile s filePath w =
            (log "File %s not found in cloud, uploading..." ;;;
             Sync.backupAndUpload s filePath (Go.Base filePath)) w2 /\
          Main.checkCloudAndSync cfg filePath w = Main.backupAndUpload cfg filePath w2)
    as [Hsync Hmain].
  { destruct (StatObject_missing (Go.Base filePath) w1 objs Hb Hk) as [e He].
    subst w2. destruct (minio.StatObject (Go.Base filePath) w1) as [r w2] eqn:Hso.
    cbn [fst snd] in *. subst r. split.
    - unfold Sync.SyncFile, bind. rewrite Hst, Hdir.
      unfold Storage.Stat, bind. rewrite Hso. reflexivity.
    - unfold Main.checkCloudAndSync, bind. rewrite Hst, Hdir, Hso. reflexivity. }
  split; [exact Hsync |]. split; [exact Hmain |].
  intros f Hf.
  destruct (os_Stat_inv _ _ _ _ Hst) as ((f0 & Hf0 & Hinfo) & Hw1).
  rewrite Hf in Hf0. injection Hf0 as <-.
  assert (isDir f = false) as Hd by (rewrite Hinfo in Hdir; exact Hdir).
  assert (w2 = mkWorld (fs w) (bucket w1) (procs w) (faults w) (clock w) (S (S (steps w)))
                       ((trace w ++ [EvStat filePath]) ++ [EvStatObject (Go.Base filePath)]))
    as Hw2.
  { subst w2. rewrite StatObject_world. rewrite Hw1. reflexivity. }
  set (w3 := snd (log "File %s not found in cloud, uploading..." w2)).
  assert (Sync.SyncFile s filePath w =
            Sync.backupAndUpload s filePath (Go.Base filePath) w3) as Hsync3.
  { rewrite Hsync. reflexivity. }
  assert (fs w3 !! filePath = Some f) as Hf3 by (subst w3; rewrite Hw2; exact Hf).
  assert (bucket w3 = Some objs) as Hb3 by (subst w3; rewrite Hw2; exact Hb).
  split.
  - intros Hfault w' Hrun. rewrite Hsync3 in Hrun.
    assert (faults w3 (steps w3) = false) as Hfault3
      by (subst w3; rewrite Hw2; exact Hfault).
    exact (Syncer_upload_done s filePath (Go.Base filePath) w3 w' f objs
             Hf3 Hd Hfault3 Hb3 Hrun).
  - intros Hnf. split.
    + intros Hfree.
      assert (forall k, faults w3 k = false) as Hnf3
        by (subst w3; rewrite Hw2; exact Hnf).
      assert (backupFree w3 (Sync.backupDir s) filePath) as Hfree3
        by (subst w3; rewrite Hw2; exact Hfree).
      pose proof (Syncer_upload_succeeds s filePath (Go.Base filePath) w3 f objs
                    Hf3 Hd Hnf3 Hb3 Hfree3) as Hnone.
      rewrite Hsync3. split; [exact Hnone |].
      destruct (Sync.backupAndUpload s filePath (Go.Base filePath) w3) as [r w'] eqn:Hrun.
      cbn [fst snd] in *. subst r.
      exact (Syncer_upload_done s filePath (Go.Base filePath) w3 w' f objs
               Hf3 Hd (Hnf3 _) Hb3 Hrun).
    + intros Hfree. rewrite Hmain.
      assert (fs w2 !! filePath = Some f) as Hf2 by (rewrite Hw2; exact Hf).
      assert (bucket w2 = Some objs) as Hb2 by (rewrite Hw2; exact Hb).
      assert (forall k, faults w2 k = false) as Hnf2 by (rewrite Hw2; exact Hnf).
      assert (backupFree w2 (Main.backupDir cfg) filePath) as Hfree2
        by (rewrite Hw2; exact Hfree).
      exact (Main_upload_done cfg filePath w2 f objs Hf2 Hd Hnf2 Hb2 Hfree2).
Qed.

End RemoteMissingResult.


(** ** Remote failures *)

Section RemoteFailures.
Context `{Platform}.

Lemma downloadCloudFiles_list_failure (s : Sync.Syncer) (w w1 : World)
    (o : minio.ObjectInfo) (rest : list minio.ObjectInfo) (e : error) :
  minio.ListObjects w = (o :: rest, w1) ->
  minio.Err o = Some e ->
  Sync.downloadCloudFiles s w =
    (Some (Wrapf "failed to list cloud files: %w" (Wrapf "error listing objects: %w" e)), w1).
Proof.
  intros Hlist Herr. unfold Sync.downloadCloudFiles, Storage.List.
  unfold bind at 1. unfold bind at 1. rewrite Hlist.
  cbn [Storage.listLoop]. rewrite Herr. reflexivity.
Qed.

(** What the code does with remote failures.  A remote stat that fails, for
    whatever reason,
    is taken for a missing object: [SyncFile] and [checkCloudAndSync] go on
    to back up and upload.  Whatever fails, one call issues at most one remote
    transfer, so a failed upload or download is neither retried nor replaced
    by another transfer.  A failed listing ends the remote pass of the syncer
    with an error before any object is looked at, and is logged and skipped
    in main.go. *)
Theorem remote_failure_handling (s : Sync.Syncer) (cfg : Main.Config)
    (filePath : string) (w w1 w2 : World) (info : FileInfo) (e : error) :
  os.Stat filePath w = (inr info, w1) ->
  fiIsDir info = false ->
  minio.StatObject (Go.Base filePath) w1 = (inl e, w2) ->
  (Sync.SyncFile s filePath w =
     (log "File %s not found in cloud, uploading..." ;;;
      Sync.backupAndUpload s filePath (Go.Base filePath)) w2 /\
   Main.checkCloudAndSync cfg filePath w = Main.backupAndUpload cfg filePath w2) /\
  (forall w0 : World,
     (length (transfers (trace (snd (Sync.SyncFile s filePath w0))))
        <= length (transfers (trace w0)) + 1)%nat /\
     (length (transfers (trace (snd (Main.checkCloudAndSync cfg filePath w0))))
        <= length (transfers (trace w0)) + 1)%nat) /\
  (forall (w0 w0' : World) (o : minio.ObjectInfo) (rest : list minio.ObjectInfo)
          (e' : error),
     minio.ListObjects w0 = (o :: rest, w0') ->
     minio.Err o = Some e' ->
     Sync.downloadCloudFiles s w0 =
       (Some (Wrapf "failed to list cloud files: %w"
                (Wrapf "error listing objects: %w" e')), w0') /\
     Main.syncObject cfg o = log "Error listing object: %v").
Proof.
  intros Hst Hdir Hso. split; [| split].
  - split.
    + unfold Sync.SyncFile, bind. rewrite Hst, Hdir.
      unfold Storage.Stat, bind. rewrite Hso. reflexivity.
    + unfold Main.checkCloudAndSync, bind. rewrite Hst, Hdir, Hso. reflexivity.
  - intros w0. split.
    + apply (adds_SyncFile s filePath w0).
    + apply (adds_checkCloudAndSync cfg filePath w0).
  - intros w0 w0' o rest e' Hlist Herr. split.
    + now apply downloadCloudFiles_list_failure with (o := o) (rest := rest).
    + unfold Main.syncObject. now rewrite Herr.
Qed.

End RemoteFailures.

(** ** Concrete runs *)


(** C4, the code at the failing input: the bucket holds a newer copy of the
    save and the remote stat fails on the network.  [SyncFile] logs that the
    file was not found in the cloud, uploads the older local bytes over the
    newer object and reports success; [checkCloudAndSync] of main.go
    uploads them too.  The other users of the same stat call give the
    operation up: [syncFromCloud] logs the failure and leaves files and
    bucket as they are, and [List] and [downloadCloudFiles] return the
    error. *)
Theorem failed_stat_overwrites_newer_object :
  let w := start localFiles (Some remoteNewer) (Some []) (faultAt 1) in
  let w1 := snd (os.Stat save w) in
  let sync := Sync.SyncFile syncer save w in
  let afterMain := snd (Main.checkCloudAndSync config save w) in
  let wPass := start localFiles (Some remoteNewer) (Some []) (faultAt 2) in
  let afterPass := snd (Main.syncFromCloud config wPass) in
  (remoteBody w "game.sav" = Some "remote bytes" /\
   fst (minio.StatObject "game.sav" w1) = inl EFault) /\
  (fst sync = None /\
   In (EvLog "File %s not found in cloud, uploading...") (trace (snd sync)) /\
   (exists meta, transfers (trace (snd sync)) = [EvPutObject "game.sav" save meta]) /\
   remoteBody (snd sync) "game.sav" = Some "local bytes") /\
  ((exists meta, transfers (trace afterMain) = [EvPutObject "game.sav" save meta]) /\
   remoteBody afterMain "game.sav" = Some "local bytes") /\
  (trace afterPass =
     [EvListObjects; EvStat save; EvStatObject "game.sav";
      EvLog "Failed to stat object %s: %v"] /\
   bucket afterPass = bucket wPass /\ fs afterPass = fs wPass) /\
  (fst (Storage.List w) = inl (Wrapf "failed to stat object %s: %w" EFault) /\
   fst (Sync.downloadCloudFiles syncer w) =
     Some (Wrapf "failed to list cloud files: %w"
             (Wrapf "failed to stat object %s: %w" EFault)) /\
   transfers (trace (snd (Sync.downloadCloudFiles syncer w))) = []).
Proof.
  vm_compute. repeat split; try reflexivity.
  - do 2 right. left. reflexivity.
  - eexists. reflexivity.
  - eexists. reflexivity.
Qed.

(** C2, the code at the failing input: in [backupAndUpload] of main.go the
    write of the copy in the backup folder fails (a full disk), the failure
    is logged and the upload goes ahead; afterwards no copy of the local bytes
    exists besides the file itself.  [backupAndUpload] of the syncer stops at
    the same failure before any transfer. *)
Theorem main_upload_without_backup :
  let w := start localFiles (Some ∅) (Some []) (faultAt 9) in
  let after := snd (Main.backupAndUpload config save w) in
  let wSync := start localFiles (Some ∅) (Some []) (faultAt 10) in
  let afterSync := Sync.backupAndUpload syncer save "game.sav" wSync in
  localData w save = Some "local bytes" /\
  In (EvWrite "/saves/Backup/2023-11-14_22-14-20.000003/game.sav") (trace after) /\
  In (EvLog "failed to backup file: %s") (trace after) /\
  (exists meta, transfers (trace after) = [EvPutObject "game.sav" save meta]) /\
  remoteBody after "game.sav" = Some "local bytes" /\
  copiesOf after "local bytes" = [save] /\
  (fst afterSync =
     Some (Wrapf "failed to create backup: %w"
             (Wrapf "failed to copy file to backup: %w"
                (Wrapf "failed to write destination: %w" EFault))) /\
   transfers (trace (snd afterSync)) = [] /\
   remoteBody (snd afterSync) "game.sav" = None).
Proof.
  vm_compute. repeat split; try reflexivity.
  - do 6 right. left. reflexivity.
  - do 7 right. left. reflexivity.
  - eexists. reflexivity.
Qed.

(** C3, the code at the failing input: in main.go the backup folder cannot
    be made, the local file keeps its bytes and still gets the remote
    modification time, after which the next call sees nothing to do; the
    downloaded temporary file stays, also when the replacement succeeds.  The
    same run through [Syncer.SyncFile] leaves the file as it was, and a
    successful one removes its temporary file. *)
Theorem main_download_restamps_without_replacing :
  let w := start localFilesBackupBlocked (Some remoteNewer) (Some []) noFault in
  let after := snd (Main.checkCloudAndSync config save w) in
  let afterPass := snd (Main.syncFromCloud config w) in
  let afterSync := Sync.SyncFile syncer save w in
  let wOk := start localFiles (Some remoteNewer) (Some []) noFault in
  (localData w save = Some "local bytes" /\ localMtime w save = Some T0) /\
  (localData after save = Some "local bytes" /\
   localMtime after save = Some (T0 + 10 * Go.Second) /\
   localData after "/tmp/game.sav.cloud" = Some "remote bytes" /\
   copiesOf after "local bytes" = [save]) /\
  (localData afterPass save = Some "local bytes" /\
   localMtime afterPass save = Some (T0 + 10 * Go.Second) /\
   localData afterPass "/tmp/game.sav.download" = Some "remote bytes") /\
  transfers (trace (snd (Main.checkCloudAndSync config save after))) = transfers (trace after) /\
  (fst afterSync =
     Some (Wrapf "failed to create backup: %w"
             (Wrapf "failed to create backup directory: %w"
                (Errorf "path exists but is not a directory: %s"))) /\
   fs (snd afterSync) !! save = fs w !! save) /\
  (localData (snd (Main.checkCloudAndSync config save wOk)) save = Some "remote bytes" /\
   localData (snd (Main.checkCloudAndSync config save wOk)) "/tmp/game.sav.cloud"
     = Some "remote bytes" /\
   localData (snd (Sync.SyncFile syncer save wOk)) save = Some "remote bytes" /\
   localData (snd (Sync.SyncFile syncer save wOk)) "/tmp/game.sav.download" = None).
Proof.
  vm_compute. repeat split; reflexivity.
Qed.

(** C6, the code at the failing input: no process name is configured.  The
    process guard of the syncer reports the process as not running, and the
    event branch of the same loop syncs the save; the timer branch does
    nothing at all, where the pass it guards would have uploaded the save.
    With a name configured and that process not running, the timer does run
    the pass. *)
Theorem timer_never_syncs_without_process_name :
  let w := start localFiles (Some ∅) (Some [Some "other.exe"]) noFault in
  let onEvent :=
    Main.mainIteration configNoProcess (Main.OnEvent (mkFsEvent save fsnotify.Write)) ∅ w in
  let onTimer := Main.mainIteration configNoProcess Main.OnTimer ∅ w in
  let pass := snd (Main.localAndCloudSync configNoProcess w) in
  let named := Main.mainIteration config Main.OnTimer ∅ w in
  fst (Sync.IsProcessRunning syncerNoProcess w) = false /\
  ((exists meta, transfers (trace (snd onEvent)) = [EvPutObject "game.sav" save meta]) /\
   remoteBody (snd onEvent) "game.sav" = Some "local bytes") /\
  onTimer = ((∅, true), w) /\
  (head (trace pass) = Some (EvReadDir "/saves") /\
   remoteBody pass "game.sav" = Some "local bytes") /\
  (fst (Main.isProcessRunning "game.exe" w) = false /\
   remoteBody (snd named) "game.sav" = Some "local bytes").
Proof.
  intros w onEvent onTimer pass named.
  split; [vm_compute; reflexivity |].
  split; [split; [vm_compute; eexists; reflexivity | vm_compute; reflexivity] |].
  split; [reflexivity |].
  split; [split; vm_compute; reflexivity |].
  split; vm_compute; reflexivity.
Qed.


(** ** The theorems at work on the concrete runs *)

Lemma run_eta {A} (c : IO A) (w : World) (a : A) :
  fst (c w) = a -> c w = (a, snd (c w)).
Proof. destruct (c w) as [a' w']. cbn. intros ->. reflexivity. Qed.

(** The save of the scenario is ten seconds behind the bucket: [SyncFile]
    downloads. *)
Lemma decision_rule_witness :
  let w := start localFiles (Some remoteNewer) (Some []) noFault in
  Sync.SyncFile syncer save w =
    syncPerform syncer save (T0 + 10 * Go.Second) Download
      (snd (minio.StatObject "game.sav" (snd (os.Stat save w)))).
Proof.
  intros w.
  assert (0 <= Sync.timeTolerance syncer <= Go.maxDuration) as Htol
    by (vm_compute; split; discriminate).
  exact (proj1 (proj1 (decision_rule syncer config save w
    (snd (os.Stat save w))
    (snd (minio.StatObject "game.sav" (snd (os.Stat save w))))
    (mkFileInfo "game.sav" T0 false 11)
    (minio.infoOfObject "game.sav" remoteObject)
    Htol (run_eta _ _ _ eq_refl) eq_refl (run_eta _ _ _ eq_refl)))).
Defined.

(** An empty bucket, the backup root in place, nothing failing: the save is
    copied into a backup folder, then put into the bucket. *)
Lemma remote_missing_uploads_witness :
  let w := Still.start Still.filesWithBackupRoot (Some ∅) noFault in
  backedUpThenUploaded (snd (Main.checkCloudAndSync config save w))
    (Main.backupDir config) save "local bytes" ∅.
Proof.
  intros w.
  assert (fst (os.Stat save w) = inr (mkFileInfo "game.sav" T0 false 11)) as Hst
    by (vm_compute; reflexivity).
  assert (fs w !! save = Some (mkFile "local bytes" T0 false)) as Hf
    by (vm_compute; reflexivity).
  assert (forall k, faults w k = false) as Hnf by reflexivity.
  assert (backupFree w (Main.backupDir config) save) as Hfree.
  { split.
    - exists (mkFile "" T0 true). split; [vm_compute; reflexivity | reflexivity].
    - intros k. vm_compute. repeat split; try reflexivity. discriminate. }
  exact (proj2 (proj2 (proj2 (proj2 (remote_missing_uploads syncer config save w
                                       (snd (os.Stat save w))
                                       (mkFileInfo "game.sav" T0 false 11) ∅
                                       (run_eta _ w _ Hst) eq_refl eq_refl eq_refl))
                               (mkFile "local bytes" T0 false) Hf) Hnf) Hfree).
Defined.

(** A first write event on the save is accepted and recorded. *)
Lemma debounce_witness :
  let fw := Watcher.mkFileWatcher "/saves" (200 * Go.Millisecond) ∅ in
  let event := mkFsEvent save fsnotify.Write in
  let w := start localFiles (Some ∅) (Some []) noFault in
  fst (Watcher.ShouldProcess fw event w) = (true, accepted fw save (wallClock 0)).
Proof.
  intros fw event w.
  assert (Z.land (evOp event) (Z.lor fsnotify.Write fsnotify.Create) <> 0) as Hop
    by (vm_compute; discriminate).
  exact (proj1 (debounce fw event w Hop eq_refl eq_refl) eq_refl).
Defined.


(** The local stat fails at upload time: the object is written with the
    wall clock as its [Modtime]. *)
Lemma upload_proceeds_without_stat_witness :
  let w := start localFiles (Some ∅) (Some []) (faultAt 2) in
  let w1 := snd (minio.BucketExists w) in
  let w2 := snd (os.Stat save (snd (Now w1))) in
  Main.uploadToCloud save "game.sav" w =
    (put <- minio.FPutObject "game.sav" save
              (<["X-Amz-Meta-Modtime" := Go.FormatInt (Go.UnixNano (Go.UTC (wallClock 1)))]>
                 (<["X-Amz-Meta-ModtimeString" := FormatStamp (Go.UTC (wallClock 1))]> ∅)) ;;
     match put with
     | inl _ => log "Failed to upload file: %v"
     | inr _ => log "Uploaded file %s to bucket %s"
     end) w2.
Proof.
  intros w w1 w2.
  exact (proj1 (upload_proceeds_without_stat save "game.sav" w w1 w2 EFault
    (or_introl (run_eta _ _ _ eq_refl)) (run_eta _ _ _ eq_refl))).
Defined.

(** The remote stat fails: both programs go on to back up and upload. *)
Lemma remote_failure_handling_witness :
  let w := start localFiles (Some remoteNewer) (Some []) (faultAt 1) in
  Main.checkCloudAndSync config save w =
    Main.backupAndUpload config save
      (snd (minio.StatObject "game.sav" (snd (os.Stat save w)))).
Proof.
  intros w.
  exact (proj2 (proj1 (remote_failure_handling syncer config save w
    (snd (os.Stat save w))
    (snd (minio.StatObject "game.sav" (snd (os.Stat save w))))
    (mkFileInfo "game.sav" T0 false 11) EFault
    (run_eta _ _ _ eq_refl) eq_refl (run_eta _ _ _ eq_refl)))).
Defined.

(** The game is running when the timer fires: nothing but the process query
    happens. *)
Lemma periodic_pass_and_pause_witness :
  let w := start localFiles (Some remoteNewer) (Some [Some "Game.EXE"]) noFault in
  Main.mainIteration config Main.OnTimer ∅ w =
    ((∅, true), snd (Main.isProcessRunning "game.exe" w)).
Proof.
  intros w.
  assert (Main.processName config <> "") as Hname by discriminate.
  exact (proj1 (proj2 (proj2 (periodic_pass_and_pause config ∅ w) Hname true
    (snd (Main.isProcessRunning "game.exe" w)) (run_eta _ _ _ eq_refl)) eq_refl)).
Defined.


(** * More of the code *)

(** ** The process guard *)

Lemma HasPrefix_iff (s prefix : string) :
  Go.HasPrefix s prefix = true <-> exists rest, s = prefix +:+ rest.
Proof.
  revert s. induction prefix as [|c p IH]; intros s; cbn.
  - split; [intros _; now exists s | intros _; destruct s; reflexivity].
  - destruct s as [|d t]; cbn.
    + split; [discriminate | intros [rest Hr]; discriminate].
    + rewrite andb_true_iff, Ascii.eqb_eq, IH. split.
      * intros [-> [rest ->]]. now exists rest.
      * intros [rest [= -> ->]]. split; [reflexivity | now exists rest].
Qed.

Lemma Contains_iff (s substr : string) :
  Go.Contains s substr = true <-> exists pre post, s = pre +:+ substr +:+ post.
Proof.
  induction s as [|c t IH]; cbn [Go.Contains]; rewrite orb_true_iff, HasPrefix_iff.
  - split.
    + intros [[rest Hr] | Hf]; [| discriminate]. now exists "", rest.
    + intros (pre & post & Heq). left. destruct pre; [now exists post | discriminate].
  - rewrite IH. split.
    + intros [[rest Hr] | (pre & post & ->)].
      * now exists "", rest.
      * now exists (String c pre), post.
    + intros (pre & post & Heq). destruct pre as [|d pre].
      * left. now exists post.
      * right. injection Heq as -> ->. now exists pre, post.
Qed.

Lemma anyProcessMatches_iff (processes : list (option string)) (name : string) :
  Sync.anyProcessMatches processes name = true <->
  exists exeName, In (Some exeName) processes /\
                  Go.Contains (Go.ToLower exeName) name = true.
Proof.
  induction processes as [|p rest IH]; cbn [Sync.anyProcessMatches].
  - split; [discriminate | intros (exe & [] & _)].
  - destruct p as [exe|].
    + destruct (Go.Contains (Go.ToLower exe) name) eqn:Hc.
      * split; [intros _; exists exe; split; [now left | exact Hc] | reflexivity].
      * rewrite IH. split.
        -- intros (exe' & Hin & Hm). exists exe'. split; [now right | exact Hm].
        -- intros (exe' & [[= ->] | Hin] & Hm); [congruence | now exists exe'].
    + rewrite IH. split.
      * intros (exe' & Hin & Hm). exists exe'. split; [now right | exact Hm].
      * intros (exe' & [Hd | Hin] & Hm); [discriminate | now exists exe'].
Qed.

Lemma Main_anyProcessMatches (processes : list (option string)) (name : string) :
  Main.anyProcessMatches processes name = Sync.anyProcessMatches processes name.
Proof. induction processes as [|[exe|] rest IH]; cbn; now rewrite ?IH. Qed.

(** X1.  [Syncer.IsProcessRunning] answers true exactly when a name is configured,
    the process table can be read, and the lower-cased name of some process
    contains the lower-cased configured name; with no name or an unreadable
    table it answers false.  It touches neither the files nor the bucket. *)
Theorem IsProcessRunning_iff (s : Sync.Syncer) (w : World) :
  (fst (Sync.IsProcessRunning s w) = true <->
   Sync.processName s <> "" /\
   exists processes exeName pre post,
     procs w = Some processes /\ In (Some exeName) processes /\
     Go.ToLower exeName = pre +:+ Go.ToLower (Sync.processName s) +:+ post) /\
  fs (snd (Sync.IsProcessRunning s w)) = fs w /\
  bucket (snd (Sync.IsProcessRunning s w)) = bucket w.
Proof.
  unfold Sync.IsProcessRunning.
  destruct (String.eqb_spec (Sync.processName s) "") as [Hname | Hname].
  - cbn. split; [| auto]. split; [discriminate | intros [Hne _]; contradiction].
  - io_unfold. cbn. destruct (procs w) as [processes|]; cbn.
    + split; [| auto]. rewrite anyProcessMatches_iff. split.
      * intros (exe & Hin & Hm). split; [exact Hname |].
        apply Contains_iff in Hm as (pre & post & Hm). now exists processes, exe, pre, post.
      * intros (_ & processes' & exe & pre & post & [= <-] & Hin & Hm).
        exists exe. split; [exact Hin |]. apply Contains_iff. now exists pre, post.
    + split; [| auto]. split; [discriminate |].
      intros (_ & processes' & exe & pre & post & Hp & _). discriminate.
Qed.

(** X2.  [isProcessRunning] of main.go, asked about the empty name, answers true
    as soon as the name of one process can be read: every name contains the
    empty string. *)
Theorem isProcessRunning_empty_name (w : World) :
  fst (Main.isProcessRunning "" w) = true <->
  exists processes exeName, procs w = Some processes /\ In (Some exeName) processes.
Proof.
  unfold Main.isProcessRunning. io_unfold. cbn.
  destruct (procs w) as [processes|]; cbn.
  - rewrite Main_anyProcessMatches, anyProcessMatches_iff. split.
    + intros (exe & Hin & _). now exists processes, exe.
    + intros (processes' & exe & [= <-] & Hin). exists exe. split; [exact Hin |].
      apply Contains_iff. now exists "", (Go.ToLower exe).
  - split; [discriminate | intros (processes' & exe & Hp & _); discriminate].
Qed.

(** ** The watcher's filter *)

Section WatcherFilter.
Context `{Platform}.

(** X3.  [ShouldProcess] accepts an event exactly when it is a write or a create,
    on a candidate file, directly in the watch root, and no acceptance on
    that path is recorded within the cooldown.  A rejected event leaves the
    watcher as it was; an accepted one changes the recorded time of its own
    path only.  Neither the watch root nor the cooldown ever change, and the
    files and the bucket are not touched. *)
Theorem ShouldProcess_accepts_iff (fw : Watcher.FileWatcher) (event : FsEvent) (w : World) :
  let r := Watcher.ShouldProcess fw event w in
  let now := clock w (steps w) in
  (fst (fst r) = true <->
   Z.land (evOp event) (Z.lor fsnotify.Write fsnotify.Create) <> 0 /\
   Watcher.shouldSyncFile (evName event) = true /\
   Dir (evName event) = Clean (Watcher.watchPath fw) /\
   (forall last, Watcher.lastEventTime fw !! evName event = Some last ->
      Watcher.eventCooldown fw < Go.Sub now last)) /\
  (fst (fst r) = false -> snd (fst r) = fw) /\
  (fst (fst r) = true -> snd (fst r) = accepted fw (evName event) now) /\
  (forall k, k <> evName event ->
     Watcher.lastEventTime (snd (fst r)) !! k = Watcher.lastEventTime fw !! k) /\
  Watcher.watchPath (snd (fst r)) = Watcher.watchPath fw /\
  Watcher.eventCooldown (snd (fst r)) = Watcher.eventCooldown fw /\
  fs (snd r) = fs w /\ bucket (snd r) = bucket w.
Proof.
  cbn zeta. unfold Watcher.ShouldProcess.
  destruct (Z.eqb_spec (Z.land (evOp event) (Z.lor fsnotify.Write fsnotify.Create)) 0)
    as [Hop | Hop].
  { cbn. repeat split; try discriminate; try reflexivity. intros (Hne & _). contradiction. }
  destruct (Watcher.shouldSyncFile (evName event)) eqn:Hsync; cbn [negb].
  2: { cbn. repeat split; try discriminate; try reflexivity. intros (_ & Hf & _). discriminate. }
  destruct (decide (Dir (evName event) = Clean (Watcher.watchPath fw))) as [Hdir | Hdir].
  2: { rewrite bool_decide_eq_false_2 by exact Hdir. cbn.
       repeat split; try discriminate; try reflexivity. intros (_ & _ & Hd & _). contradiction. }
  rewrite bool_decide_eq_true_2 by exact Hdir. cbn [negb].
  unfold bind, Now, ret. cbn [fst snd].
  destruct (Watcher.lastEventTime fw !! evName event) as [last|] eqn:Hlast.
  - destruct (Z.leb_spec (Go.Sub (clock w (steps w)) last) (Watcher.eventCooldown fw))
      as [Hle | Hgt]; cbn.
    + repeat split; try discriminate; try reflexivity.
      intros (_ & _ & _ & Hcool). specialize (Hcool last eq_refl). lia.
    + repeat split; try discriminate; try reflexivity; try assumption.
      * intros last' [= <-]. exact Hgt.
      * intros k Hk. now rewrite lookup_insert_ne by congruence.
  - cbn. repeat split; try discriminate; try reflexivity; try assumption.
    intros k Hk. now rewrite lookup_insert_ne by congruence.
Qed.

End WatcherFilter.


(** ** Copying a file, making a directory *)

(** X4.  The three copies of [copyFile] (sync, main.go, storage) can change the
    destination only; when they report success the destination is a regular
    file with the bytes of the source. *)
Theorem copyFile_copies (copy : string -> string -> IO (option error))
    (src dst : string) (w w' : World) (r : option error) :
  copy = Sync.copyFile \/ copy = Main.copyFile \/ copy = StorageUtil.CopyFile ->
  src <> dst ->
  copy src dst w = (r, w') ->
  (forall q, q <> dst -> fs w' !! q = fs w !! q) /\
  (r = None ->
   exists f t, fs w !! src = Some f /\ isDir f = false /\
               fs w' !! dst = Some (mkFile (data f) t false)) /\
  bucket w' = bucket w.
Proof.
  intros Hcopy Hne.
  assert (forall q, q <> dst -> dst <> q) as Hsym by congruence.
  destruct Hcopy as [-> | [-> | ->]];
    unfold Sync.copyFile, Main.copyFile, StorageUtil.CopyFile; io_unfold; cbn;
    repeat (destruct_match; cbn); intros [= <- <-]; cbn;
    (split; [intros q Hq; rewrite ?lookup_insert_ne by auto; reflexivity |]);
    (split; [| reflexivity]); try discriminate; intros _;
    eexists _, _; (split; [reflexivity |]); (split; [assumption |]);
    apply lookup_insert_eq.
Qed.

(** What [os.MkdirAll] leaves behind. *)
Lemma MkdirAll_effect (path : string) (w w' : World) (r : error + unit) :
  os.MkdirAll path w = (r, w') ->
  (forall q g, fs w !! q = Some g -> fs w' !! q = Some g) /\
  (forall q g, fs w' !! q = Some g -> fs w !! q = None ->
     isDir g = true /\
     (q = path \/ In q (os.ancestors (String.length path) (Go.parentDir path)))) /\
  (r = inr tt -> exists d, fs w' !! path = Some d /\ isDir d = true) /\
  bucket w' = bucket w.
Proof.
  assert (forall (r0 : error + unit) (w0 : World),
            fs w0 = fs w -> bucket w0 = bucket w ->
            (r0 = inr tt -> exists d, fs w !! path = Some d /\ isDir d = true) ->
            (forall q g, fs w !! q = Some g -> fs w0 !! q = Some g) /\
            (forall q g, fs w0 !! q = Some g -> fs w !! q = None ->
               isDir g = true /\
               (q = path \/ In q (os.ancestors (String.length path) (Go.parentDir path)))) /\
            (r0 = inr tt -> exists d, fs w0 !! path = Some d /\ isDir d = true) /\
            bucket w0 = bucket w) as Hsame.
  { intros r0 w0 Hfs Hb Hr. rewrite Hfs.
    split; [auto |]. split; [intros q g Hq Hn; congruence |]. auto. }
  unfold os.MkdirAll. io_unfold. cbn.
  destruct (faults w (steps w)); cbn.
  { intros [= <- <-]. apply Hsame; auto. discriminate. }
  destruct (fs w !! path) as [f|] eqn:Hp; cbn.
  { destruct (isDir f) eqn:Hd; cbn; intros [= <- <-]; apply Hsame; auto;
      [eauto | discriminate]. }
  destruct (String.eqb path ""); cbn.
  { intros [= <- <-]. apply Hsame; auto. discriminate. }
  destruct (os.mkdirParents _ _ _ _) as [e|m'] eqn:Hmk; cbn; intros [= <- <-]; cbn.
  { apply Hsame; auto. discriminate. }
  split; [| split; [| split; [| reflexivity]]].
  - intros q g Hq. rewrite lookup_insert_ne by congruence.
    exact (mkdirParents_keeps _ _ _ _ _ _ _ Hmk Hq).
  - intros q g Hq Hnone. destruct (decide (path = q)) as [<- | Hne].
    + rewrite lookup_insert_eq in Hq. injection Hq as <-. auto.
    + rewrite lookup_insert_ne in Hq by exact Hne.
      destruct (mkdirParents_adds _ _ _ _ _ _ _ Hmk Hq) as [Hold | (_ & -> & Hin)];
        [congruence | auto].
  - intros _. rewrite lookup_insert_eq. eauto.
Qed.

(** X5.  The three copies of [ensureDir] (sync, main.go, storage) leave every
    existing path as it is; what they add is the path asked for and its
    missing parents, all as directories, and nothing else.  When they
    report success the path is a directory, and on a regular file they
    report an error. *)
Theorem ensureDir_makes_directory (ensure : string -> IO (option error))
    (path : string) (w w' : World) (r : option error) :
  ensure = Sync.ensureDir \/ ensure = Main.ensureFolderExists \/
  ensure = StorageUtil.EnsureDir ->
  ensure path w = (r, w') ->
  (forall q g, fs w !! q = Some g -> fs w' !! q = Some g) /\
  (forall q g, fs w' !! q = Some g -> fs w !! q = None ->
     isDir g = true /\
     (q = path \/ In q (os.ancestors (String.length path) (Go.parentDir path)))) /\
  (r = None -> exists d, fs w' !! path = Some d /\ isDir d = true) /\
  (forall g, fs w !! path = Some g -> isDir g = false -> r <> None) /\
  bucket w' = bucket w.
Proof.
  intros Hens.
  assert (forall (r0 : option error) (w0 : World),
            fs w0 = fs w -> bucket w0 = bucket w ->
            (r0 = None -> exists d, fs w !! path = Some d /\ isDir d = true) ->
            (forall q g, fs w !! q = Some g -> fs w0 !! q = Some g) /\
            (forall q g, fs w0 !! q = Some g -> fs w !! q = None ->
               isDir g = true /\
               (q = path \/ In q (os.ancestors (String.length path) (Go.parentDir path)))) /\
            (r0 = None -> exists d, fs w0 !! path = Some d /\ isDir d = true) /\
            (forall g, fs w !! path = Some g -> isDir g = false -> r0 <> None) /\
            bucket w0 = bucket w) as Hsame.
  { intros r0 w0 Hfs Hb Hr. rewrite Hfs.
    split; [auto |]. split; [intros q g Hq Hn; congruence |]. split; [auto |].
    split; [| auto]. intros g Hg Hd E. destruct (Hr E) as (d & Hd1 & Hd2). congruence. }
  assert (forall (rm : error + unit) (r0 : option error) (w1 w2 w0 : World),
            fs w1 = fs w -> bucket w1 = bucket w -> fs w !! path = None ->
            os.MkdirAll path w1 = (rm, w2) ->
            fs w0 = fs w2 -> bucket w0 = bucket w2 ->
            (r0 = None -> rm = inr tt) ->
            (forall q g, fs w !! q = Some g -> fs w0 !! q = Some g) /\
            (forall q g, fs w0 !! q = Some g -> fs w !! q = None ->
               isDir g = true /\
               (q = path \/ In q (os.ancestors (String.length path) (Go.parentDir path)))) /\
            (r0 = None -> exists d, fs w0 !! path = Some d /\ isDir d = true) /\
            (forall g, fs w !! path = Some g -> isDir g = false -> r0 <> None) /\
            bucket w0 = bucket w) as Hmade.
  { intros rm r0 w1 w2 w0 Hfs Hb Hp Hrun Hfs0 Hb0 Hr.
    destruct (MkdirAll_effect path w1 w2 rm Hrun) as (K1 & K2 & K3 & K4).
    rewrite Hfs in K1, K2. rewrite Hb in K4. rewrite Hfs0, Hb0.
    split; [exact K1 |]. split; [exact K2 |]. split; [auto |].
    split; [| exact K4]. intros g Hg. congruence. }
  destruct Hens as [-> | [-> | ->]];
    unfold Sync.ensureDir, Main.ensureFolderExists, StorageUtil.EnsureDir;
    unfold os.Stat, external; unfold bind at 1; unfold bind at 1; unfold bind at 1;
    cbn [emit step fst snd faults steps fs bucket];
    (destruct (faults w (steps w)); cbn -[os.MkdirAll];
     [ intros [= <- <-]; apply Hsame; auto; discriminate |]);
    unfold bind at 1; cbn -[os.MkdirAll];
    (destruct (fs w !! path) as [f|] eqn:Hp; cbn -[os.MkdirAll];
     [ destruct (isDir f) eqn:Hd; cbn; intros [= <- <-]; apply Hsame; auto;
       first [discriminate | eauto] |]).
  all: match goal with
    | |- context [os.MkdirAll ?p ?w1] =>
        destruct (os.MkdirAll p w1) as [rm w2] eqn:Hrun;
        pose proof (fun r0 w0 => Hmade rm r0 w1 w2 w0 eq_refl eq_refl eq_refl Hrun) as Hm
    end.
  all: destruct rm as [e | []]; cbn; unfold log, emit, bind, ret; cbn; intros [= <- <-];
    apply Hm; auto; discriminate.
Qed.

Section BackupFolder.
Context `{Platform}.

(** X6.  A backup folder is always a new one: when [createTimestampedBackupDir] of
    the syncer or [createBackupTimeFolder] of main.go return a path, it is
    the backup root joined with a time stamp, nothing existed at that path
    before, and a directory is there afterwards.  No existing path is
    changed. *)
Theorem backup_folder_is_new (s : Sync.Syncer) (cfg : Main.Config)
    (w w' : World) (backupPath : string) :
  (Sync.createTimestampedBackupDir s w = (inr backupPath, w') /\
   Main.backupDir cfg = Sync.backupDir s) \/
  Main.createBackupTimeFolder cfg w = (inr backupPath, w') ->
  (exists stamp, backupPath = Join (Main.backupDir cfg) stamp) /\
  fs w !! backupPath = None /\
  (exists d, fs w' !! backupPath = Some d /\ isDir d = true) /\
  (forall q g, fs w !! q = Some g -> fs w' !! q = Some g).
Proof.
  intros [[Hrun ->] | Hrun]; revert Hrun;
    unfold Sync.createTimestampedBackupDir, Sync.ensureDir,
      Main.createBackupTimeFolder, Main.ensureFolderExists; io_unfold; cbn;
    repeat (destruct_match; cbn); try discriminate; intros [= <- <-]; cbn.
  all: split; [eexists; reflexivity |].
  all: split; [| split; [rewrite lookup_insert_eq; eauto | intros q0 g0 Hq; peel]].
  all: try assumption.
  all: repeat match goal with
       | Hn : <[_ := _]> _ !! _ = None |- _ =>
           apply lookup_insert_None in Hn as [Hn _]
       end;
       first [ assumption
             | match goal with
               | Hmk : os.mkdirParents _ _ _ _ = inr ?m', Hn : ?m' !! _ = None |- _ =>
                   exact (mkdirParents_absent _ _ _ _ _ _ Hmk Hn)
               end ].
Qed.

(** X7.  [backupAndReplace] of main.go, called on a local file that exists and
    is not itself the place a backup of it would go to: either the file is
    left as it was, or its bytes were first copied into a file of a backup
    folder. *)
Theorem backupAndReplace_backs_up_first (cfg : Main.Config)
    (localPath newPath : string) (w : World) (f : File) :
  fs w !! localPath = Some f ->
  faults w (steps w) = false ->
  (forall k, Join (Join (Main.backupDir cfg) (FormatStamp (clock w k)))
                  (Go.Base localPath) <> localPath) ->
  let w' := snd (Main.backupAndReplace cfg localPath newPath w) in
  fs w' !! localPath = Some f \/
  exists stamp t,
    fs w' !! Join (Join (Main.backupDir cfg) stamp) (Go.Base localPath)
      = Some (mkFile (data f) t false).
Proof.
  intros Hf Hfault Hne. cbn zeta.
  assert (forall k, localPath <> Join (Join (Main.backupDir cfg) (FormatStamp (clock w k)))
                                    (Go.Base localPath))
    as Hne' by (intros k E; exact (Hne k (eq_sym E))).
  unfold Main.backupAndReplace, Main.fileExists, Main.createBackupTimeFolder,
    Main.ensureFolderExists, Main.copyFile.
  io_unfold. cbn. rewrite Hfault. cbn. rewrite Hf. cbn.
  repeat (destruct_match; cbn).
  all: same_file localPath f.
  all: first [ left; solve [peel]
             | right; eexists _, _;
               rewrite ?(lookup_insert_ne _ localPath) by (apply Hne');
               apply lookup_insert_eq ].
Qed.

End BackupFolder.


(** ** The bucket: ensuring and listing *)

(** X8.  [EnsureBucket] never empties a bucket: one that exists is left exactly
    as it is; after a success a bucket exists, a new one holding nothing.
    The local files are not touched. *)
Theorem EnsureBucket_keeps_objects (w w' : World) (r : option error) :
  Storage.EnsureBucket w = (r, w') ->
  (forall objs, bucket w = Some objs -> bucket w' = Some objs) /\
  (r = None -> bucket w = None -> bucket w' = Some ∅) /\
  (r = None -> is_Some (bucket w')) /\
  fs w' = fs w.
Proof.
  unfold Storage.EnsureBucket. io_unfold. cbn.
  repeat (destruct_match; cbn); intros [= <- <-]; cbn;
    repeat split; try discriminate; try congruence; eauto.
Qed.

Lemma StatObject_found (name : string) (w w' : World) (stat : minio.ObjectInfo)
    (objs : gmap string Object) :
  bucket w = Some objs ->
  minio.StatObject name w = (inr stat, w') ->
  (exists o, objs !! name = Some o /\ stat = minio.infoOfObject name o) /\
  bucket w' = Some objs /\ fs w' = fs w.
Proof.
  intros Hb. unfold minio.StatObject. io_unfold. cbn.
  destruct (faults w (steps w)); cbn; [discriminate |].
  rewrite Hb. destruct (objs !! name) as [o|]; cbn; [| discriminate].
  intros [= <- <-]. cbn. eauto.
Qed.

(** What [List] reports for one stored object. *)
Lemma listLoop_lists (objs : gmap string Object) (l : list (string * Object)) :
  forall (acc files : list Storage.FileInfo) (w w' : World),
    bucket w = Some objs ->
    (forall k o, In (k, o) l -> objs !! k = Some o) ->
    Storage.listLoop
      (map (fun ko : string * Object =>
              minio.mkObjectInfo ko.1 (Z.of_nat (String.length (body ko.2)))
                                 (lastModified ko.2) ∅ None) l) acc w
      = (inr files, w') ->
    files = (acc ++ map (fun ko : string * Object =>
                           Storage.mkFileInfo ko.1
                             (Storage.extractModTime (minio.infoOfObject ko.1 ko.2))
                             (Z.of_nat (String.length (body ko.2)))) l)%list /\
    bucket w' = Some objs /\ fs w' = fs w.
Proof.
  induction l as [|[k o] l IH]; intros acc files w w' Hb Hin; cbn [map Storage.listLoop].
  - intros [= <- <-]. now rewrite app_nil_r.
  - cbn [minio.Err minio.Key minio.Size fst snd]. unfold bind at 1.
    destruct (minio.StatObject k w) as [[e | stat] w1] eqn:Hso; [discriminate |].
    destruct (StatObject_found k w w1 stat objs Hb Hso) as ((o' & Ho' & ->) & Hb1 & Hfs1).
    rewrite (Hin k o (or_introl eq_refl)) in Ho'. injection Ho' as <-.
    intros Hrun. apply IH in Hrun as (-> & Hb' & Hfs'); [| exact Hb1 | ].
    + rewrite <- app_assoc. cbn. split; [reflexivity |]. split; [exact Hb' | congruence].
    + intros k' o'' Hk. apply Hin. now right.
Qed.

(** X9.  A successful [List] reports every object of the bucket exactly once, in
    the order of the listing, each with its key, its size and the time
    [extractModTime] recovers for it; it changes neither the bucket nor the
    local files. *)
Theorem List_reports_every_object (w w' : World) (objs : gmap string Object)
    (files : list Storage.FileInfo) :
  bucket w = Some objs ->
  Storage.List w = (inr files, w') ->
  files = map (fun ko : string * Object =>
                 Storage.mkFileInfo ko.1
                   (Storage.extractModTime (minio.infoOfObject ko.1 ko.2))
                   (Z.of_nat (String.length (body ko.2))))
              (map_to_list objs) /\
  (forall name o, objs !! name = Some o ->
     In (Storage.mkFileInfo name (Storage.extractModTime (minio.infoOfObject name o))
                            (Z.of_nat (String.length (body o)))) files) /\
  length files = size objs /\
  bucket w' = Some objs /\ fs w' = fs w.
Proof.
  intros Hb. unfold Storage.List, minio.ListObjects. io_unfold. cbn.
  destruct (faults w (steps w)); cbn; [discriminate |]. rewrite Hb.
  intros Hrun.
  apply (listLoop_lists objs) in Hrun as (-> & Hb' & Hfs'); [| reflexivity | ].
  - cbn [app] in *. split; [reflexivity |]. split; [| split; [| auto]].
    + intros name o Ho.
      apply (in_map (fun ko : string * Object =>
                       Storage.mkFileInfo ko.1
                         (Storage.extractModTime (minio.infoOfObject ko.1 ko.2))
                         (Z.of_nat (String.length (body ko.2)))) _ (name, o)).
      apply list_elem_of_In, elem_of_map_to_list. exact Ho.
    + rewrite length_map. apply length_map_to_list.
  - intros k o Hk. apply list_elem_of_In, elem_of_map_to_list in Hk. exact Hk.
Qed.


(** ** What a pass leaves in place *)

#[export] Instance sameBucket_invariant : Invariant sameBucket.
Proof. split; unfold sameBucket; intros; congruence. Qed.

#[export] Instance objectsKept_invariant (U : string -> Prop) : Invariant (objectsKept U).
Proof.
  split; unfold objectsKept.
  - intros w objs n o Hb Hn. eauto 6.
  - intros w1 w2 w3 H12 H23 objs n o Hb Hn.
    destruct (H12 objs n o Hb Hn) as (objs2 & o2 & Hb2 & Hn2 & Ho2).
    destruct (H23 objs2 n o2 Hb2 Hn2) as (objs3 & o3 & Hb3 & Hn3 & Ho3).
    exists objs3, o3. split; [exact Hb3 |]. split; [exact Hn3 |].
    intros HU. rewrite Ho3, Ho2; auto.
  - intros w w' _ Hb objs n o Hb0 Hn. exists objs, o.
    split; [congruence |]. split; [exact Hn | reflexivity].
Qed.

#[export] Instance filesKept_invariant (X : string -> Prop) : Invariant (filesKept X).
Proof.
  split; unfold filesKept.
  - auto.
  - eauto.
  - intros w w' Hfs _ q _ Hq. now rewrite Hfs.
Qed.

Section Preserves.
Context (R : World -> World -> Prop) `{!Invariant R}.

Lemma preserves_ret {A} (a : A) : preserves R (ret a).
Proof. intros w. apply inv_refl. Qed.

Lemma preserves_bind {A B} (c : IO A) (k : A -> IO B) :
  preserves R c -> (forall a, preserves R (k a)) -> preserves R (bind c k).
Proof.
  intros Hc Hk w. unfold bind. specialize (Hc w).
  destruct (c w) as [a w1]. cbn in *.
  eapply inv_trans; [exact Hc | apply Hk].
Qed.

Lemma preserves_emit (e : Event) : preserves R (emit e).
Proof. intros w. now apply inv_stable. Qed.

Lemma preserves_log (format : string) : preserves R (log format).
Proof. apply preserves_emit. Qed.

Lemma preserves_step : preserves R step.
Proof. intros w. now apply inv_stable. Qed.

Lemma preserves_Now : preserves R Now.
Proof. intros w. now apply inv_stable. Qed.

Lemma preserves_getFs : preserves R getFs.
Proof. intros w. apply inv_refl. Qed.

Lemma preserves_getBucket : preserves R getBucket.
Proof. intros w. apply inv_refl. Qed.

Lemma preserves_getProcs : preserves R getProcs.
Proof. intros w. apply inv_refl. Qed.

Lemma preserves_forEach {A} (xs : list A) (body : A -> IO unit) :
  (forall x, preserves R (body x)) -> preserves R (forEach xs body).
Proof.
  intros Hbody. induction xs as [|x xs IH]; cbn [forEach].
  - apply preserves_ret.
  - apply preserves_bind; auto.
Qed.

End Preserves.

Create HintDb pres discriminated.
#[local] Hint Resolve preserves_emit preserves_log preserves_step preserves_Now
  preserves_getFs preserves_getBucket preserves_getProcs : pres.
#[local] Hint Extern 1 (Invariant _) => typeclasses eauto : pres.

(** One step through the body of a function. *)
Ltac pres_step :=
  first
    [ solve [eauto with pres]
    | solve [typeclasses eauto]
    | apply preserves_ret
    | apply preserves_forEach; [typeclasses eauto | intros ?]
    | apply preserves_bind; [typeclasses eauto | | intros ?]
    | match goal with
      | |- preserves _ (match ?x with _ => _ end) => destruct x eqn:?
      end ].

Ltac pres := repeat pres_step.

Section Passes.
Context `{Platform} (R : World -> World -> Prop) `{!Invariant R}.

(** Creating, writing and re-stamping local paths is allowed, and making a
    directory with its parents. *)
Hypothesis Hwrite : forall k f, preserves R (setFs (insert k f)).
Hypothesis Hmkdirs : forall path, preserves R (os.MkdirAll path).

Hint Resolve Hwrite Hmkdirs : pres.

Lemma preserves_external {A} (e : Event) (op : IO (error + A)) :
  preserves R op -> preserves R (external e op).
Proof. intros Hop. unfold external. pres. Qed.

Ltac ext := apply preserves_external; pres.

Lemma preserves_Processes : preserves R Processes.
Proof. unfold Processes. pres. Qed.
Lemma preserves_os_Stat p : preserves R (os.Stat p).
Proof. unfold os.Stat. ext. Qed.
Lemma preserves_os_Open p : preserves R (os.Open p).
Proof. unfold os.Open. ext. Qed.
Lemma preserves_os_Create p : preserves R (os.Create p).
Proof. unfold os.Create. ext. Qed.
Lemma preserves_os_Write p b : preserves R (os.Write p b).
Proof. unfold os.Write. ext. Qed.
Lemma preserves_os_Mkdir p : preserves R (os.Mkdir p).
Proof. unfold os.Mkdir. ext. Qed.
Lemma preserves_os_Chtimes p t : preserves R (os.Chtimes p t).
Proof. unfold os.Chtimes. ext. Qed.
Lemma preserves_ReadDir p : preserves R (ReadDir p).
Proof. unfold ReadDir. ext. Qed.
Lemma preserves_BucketExists : preserves R minio.BucketExists.
Proof. unfold minio.BucketExists. ext. Qed.
Lemma preserves_StatObject n : preserves R (minio.StatObject n).
Proof. unfold minio.StatObject. ext. Qed.
Lemma preserves_ListObjects : preserves R minio.ListObjects.
Proof. unfold minio.ListObjects. pres. Qed.
Lemma preserves_FGetObject n p : preserves R (minio.FGetObject n p).
Proof. unfold minio.FGetObject. ext. Qed.

Hint Resolve preserves_Processes preserves_os_Stat preserves_os_Open
  preserves_os_Create preserves_os_Write preserves_os_Mkdir
  preserves_os_Chtimes preserves_ReadDir preserves_BucketExists
  preserves_StatObject preserves_ListObjects preserves_FGetObject : pres.

Lemma preserves_os_ReadFile p : preserves R (os.ReadFile p).
Proof. unfold os.ReadFile. pres. Qed.
Lemma preserves_os_WriteFile p b : preserves R (os.WriteFile p b).
Proof. unfold os.WriteFile. pres. Qed.
Hint Resolve preserves_os_ReadFile preserves_os_WriteFile : pres.

Lemma preserves_Sync_fileExists p : preserves R (Sync.fileExists p).
Proof. unfold Sync.fileExists. pres. Qed.
Lemma preserves_Sync_copyFile a b : preserves R (Sync.copyFile a b).
Proof. unfold Sync.copyFile. pres. Qed.
Lemma preserves_ensureDir p : preserves R (Sync.ensureDir p).
Proof. unfold Sync.ensureDir. pres. Qed.
Lemma preserves_IsProcessRunning s : preserves R (Sync.IsProcessRunning s).
Proof. unfold Sync.IsProcessRunning. pres. Qed.
Lemma preserves_Main_fileExists p : preserves R (Main.fileExists p).
Proof. unfold Main.fileExists. pres. Qed.
Lemma preserves_Main_copyFile a b : preserves R (Main.copyFile a b).
Proof. unfold Main.copyFile. pres. Qed.
Lemma preserves_ensureFolderExists p : preserves R (Main.ensureFolderExists p).
Proof. unfold Main.ensureFolderExists. pres. Qed.
Lemma preserves_isProcessRunning n : preserves R (Main.isProcessRunning n).
Proof. unfold Main.isProcessRunning. pres. Qed.
Lemma preserves_getCloudModTime stat : preserves R (Main.getCloudModTime stat).
Proof. unfold Main.getCloudModTime. pres. Qed.
Lemma preserves_Storage_Download n p : preserves R (Storage.Download n p).
Proof. unfold Storage.Download. pres. Qed.
Lemma preserves_Storage_Stat n : preserves R (Storage.Stat n).
Proof. unfold Storage.Stat. pres. Qed.
Lemma preserves_listLoop objects : forall files, preserves R (Storage.listLoop objects files).
Proof. induction objects as [|o rest IH]; intros files; cbn [Storage.listLoop]; pres. Qed.
Hint Resolve preserves_listLoop : pres.
Lemma preserves_Storage_List : preserves R Storage.List.
Proof. unfold Storage.List. pres. Qed.

Hint Resolve preserves_Sync_fileExists preserves_Sync_copyFile preserves_ensureDir
  preserves_IsProcessRunning preserves_Main_fileExists preserves_Main_copyFile
  preserves_ensureFolderExists preserves_isProcessRunning preserves_getCloudModTime
  preserves_Storage_Download preserves_Storage_Stat preserves_Storage_List : pres.

Lemma preserves_createTimestampedBackupDir s :
  preserves R (Sync.createTimestampedBackupDir s).
Proof. unfold Sync.createTimestampedBackupDir. pres. Qed.
Lemma preserves_createBackupTimeFolder cfg : preserves R (Main.createBackupTimeFolder cfg).
Proof. unfold Main.createBackupTimeFolder. pres. Qed.
Hint Resolve preserves_createTimestampedBackupDir preserves_createBackupTimeFolder : pres.

Lemma preserves_createBackup s p : preserves R (Sync.createBackup s p).
Proof. unfold Sync.createBackup. pres. Qed.
Lemma preserves_backupAndReplace cfg p q : preserves R (Main.backupAndReplace cfg p q).
Proof. unfold Main.backupAndReplace. pres. Qed.
Hint Resolve preserves_createBackup preserves_backupAndReplace : pres.

Lemma preserves_syncObject cfg o : preserves R (Main.syncObject cfg o).
Proof. unfold Main.syncObject. pres. Qed.
Hint Resolve preserves_syncObject : pres.

Lemma preserves_syncFromCloud cfg : preserves R (Main.syncFromCloud cfg).
Proof. unfold Main.syncFromCloud. pres. Qed.
Hint Resolve preserves_syncFromCloud : pres.

(** Removing the temporary file of a download is allowed. *)
Hypothesis Hremove : forall n, preserves R (os.Remove (Join TempDir (n +:+ ".download"))).
Hint Resolve Hremove : pres.

Lemma preserves_downloadAndReplace s n p t :
  preserves R (Sync.downloadAndReplace s n p t).
Proof. unfold Sync.downloadAndReplace. pres. Qed.
Hint Resolve preserves_downloadAndReplace : pres.

Lemma preserves_downloadCloudFiles s : preserves R (Sync.downloadCloudFiles s).
Proof. unfold Sync.downloadCloudFiles. pres. Qed.
Hint Resolve preserves_downloadCloudFiles : pres.

(** Creating the bucket is allowed, and storing an object under a name
    in [U]. *)
Variable U : string -> Prop.
Hypothesis Hmake : preserves R minio.MakeBucket.
Hypothesis Hput : forall n p m, U n -> preserves R (minio.FPutObject n p m).
Hint Resolve Hmake Hput : pres.

Lemma preserves_EnsureBucket : preserves R Storage.EnsureBucket.
Proof. unfold Storage.EnsureBucket. pres. Qed.
Lemma preserves_Upload p n : U n -> preserves R (Storage.Upload p n).
Proof. intros HU. unfold Storage.Upload. pres. Qed.
Lemma preserves_uploadToCloud p n : U n -> preserves R (Main.uploadToCloud p n).
Proof. intros HU. unfold Main.uploadToCloud. pres. Qed.
Hint Resolve preserves_EnsureBucket preserves_Upload preserves_uploadToCloud : pres.

Lemma preserves_Sync_backupAndUpload s p n :
  U n -> preserves R (Sync.backupAndUpload s p n).
Proof. intros HU. unfold Sync.backupAndUpload. pres. Qed.
Lemma preserves_Main_backupAndUpload cfg p :
  U (Go.Base p) -> preserves R (Main.backupAndUpload cfg p).
Proof. intros HU. unfold Main.backupAndUpload. pres. Qed.
Hint Resolve preserves_Sync_backupAndUpload preserves_Main_backupAndUpload : pres.

Lemma preserves_SyncFile s p : U (Go.Base p) -> preserves R (Sync.SyncFile s p).
Proof. intros HU. unfold Sync.SyncFile. pres. Qed.
Lemma preserves_checkCloudAndSync cfg p :
  U (Go.Base p) -> preserves R (Main.checkCloudAndSync cfg p).
Proof. intros HU. unfold Main.checkCloudAndSync. pres. Qed.
Hint Resolve preserves_SyncFile preserves_checkCloudAndSync : pres.

(** The passes store under the base names of the paths they accept. *)
Hypothesis Haccepted : forall path, Sync.shouldSyncFile path = true -> U (Go.Base path).

Lemma accepted_negb path : negb (Sync.shouldSyncFile path) = false -> U (Go.Base path).
Proof. intros E. apply Haccepted. now destruct (Sync.shouldSyncFile path). Qed.
Lemma accepted_main path : Main.shouldSyncFile path = true -> U (Go.Base path).
Proof. exact (Haccepted path). Qed.
Lemma accepted_event path b :
  Main.shouldSyncFile path && b = true -> U (Go.Base path).
Proof. intros E. apply andb_prop in E as [E _]. exact (Haccepted path E). Qed.
Hint Resolve accepted_negb accepted_main accepted_event : pres.

Lemma preserves_uploadLocalFiles s : preserves R (Sync.uploadLocalFiles s).
Proof. unfold Sync.uploadLocalFiles. pres. Qed.
Lemma preserves_localAndCloudSync cfg : preserves R (Main.localAndCloudSync cfg).
Proof. unfold Main.localAndCloudSync. pres. Qed.
Hint Resolve preserves_uploadLocalFiles preserves_localAndCloudSync : pres.

Lemma preserves_InitialSync s : preserves R (Sync.InitialSync s).
Proof. unfold Sync.InitialSync. pres. Qed.
Lemma preserves_mainIteration cfg sel last : preserves R (Main.mainIteration cfg sel last).
Proof. unfold Main.mainIteration. pres. Qed.

End Passes.


(** [filepath.Base] of a base name is that name. *)
Lemma takeElem_no_separator (l : list ascii) :
  Forall (fun c => Go.IsPathSeparator c = false) (Go.takeElem l).
Proof.
  induction l as [|c t IH]; cbn; [constructor |].
  destruct (Go.IsPathSeparator c) eqn:E; constructor; assumption.
Qed.

Lemma takeElem_all (l : list ascii) :
  Forall (fun c => Go.IsPathSeparator c = false) l -> Go.takeElem l = l.
Proof.
  induction 1 as [|c t Hc _ IH]; cbn; [reflexivity |]. now rewrite Hc, IH.
Qed.

Lemma dropSeps_head (l : list ascii) :
  Forall (fun c => Go.IsPathSeparator c = false) l -> Go.dropSeps l = l.
Proof. intros [|c t Hc _]; cbn; [reflexivity |]. now rewrite Hc. Qed.

Lemma Base_of_element (l : list ascii) :
  l <> [] -> Forall (fun c => Go.IsPathSeparator c = false) l ->
  Go.Base (string_of_list_ascii l) = string_of_list_ascii l.
Proof.
  intros Hne Hall. unfold Go.Base.
  destruct (string_of_list_ascii l) eqn:E.
  { destruct l; [congruence | discriminate]. }
  rewrite <- E, list_ascii_of_string_of_list_ascii.
  assert (Forall (fun c => Go.IsPathSeparator c = false) (rev l)) as Hrev
    by now apply List.Forall_rev.
  rewrite (dropSeps_head _ Hrev), (takeElem_all _ Hrev).
  destruct (rev l) eqn:Er.
  - apply (f_equal (@rev ascii)) in Er. rewrite rev_involutive in Er. now subst l.
  - rewrite <- Er, rev_involutive. reflexivity.
Qed.

Lemma Base_idempotent (path : string) : Go.Base (Go.Base path) = Go.Base path.
Proof.
  unfold Go.Base at 2 3. destruct path as [|c t]; [reflexivity |].
  destruct (Go.takeElem _) eqn:E; [reflexivity |].
  apply Base_of_element.
  - intros Hnil. apply (f_equal (@length ascii)) in Hnil.
    rewrite length_rev in Hnil. discriminate.
  - pose proof (takeElem_no_separator
                  (Go.dropSeps (rev (list_ascii_of_string (String c t))))) as Hall.
    rewrite E in Hall. now apply List.Forall_rev.
Qed.

Lemma shouldSyncFile_Base (path : string) :
  Sync.shouldSyncFile (Go.Base path) = Sync.shouldSyncFile path.
Proof. unfold Sync.shouldSyncFile. now rewrite Base_idempotent. Qed.

(** *** The allowed effects, relation by relation *)

Lemma sameBucket_setFs f : preserves sameBucket (setFs f).
Proof. intros w. reflexivity. Qed.

Lemma objectsKept_setFs U f : preserves (objectsKept U) (setFs f).
Proof. intros w objs n o Hb Hn. cbn. eauto 6. Qed.

Lemma filesKept_setBucket X b : preserves (filesKept X) (setBucket b).
Proof. intros w q _ Hq. exact Hq. Qed.

Lemma filesKept_insert X k f : preserves (filesKept X) (setFs (insert k f)).
Proof.
  intros w q _ Hq. cbn. destruct (decide (k = q)) as [-> | Hne].
  - rewrite lookup_insert_eq. eauto.
  - now rewrite lookup_insert_ne.
Qed.

Lemma sameBucket_MkdirAll p : preserves sameBucket (os.MkdirAll p).
Proof.
  intros w. destruct (os.MkdirAll p w) as [r w'] eqn:Hrun.
  exact (proj2 (proj2 (proj2 (MkdirAll_effect p w w' r Hrun)))).
Qed.

Lemma objectsKept_MkdirAll U p : preserves (objectsKept U) (os.MkdirAll p).
Proof.
  intros w objs n o Hb Hn. destruct (os.MkdirAll p w) as [r w'] eqn:Hrun. cbn.
  rewrite (proj2 (proj2 (proj2 (MkdirAll_effect p w w' r Hrun)))). eauto 6.
Qed.

Lemma filesKept_MkdirAll X p : preserves (filesKept X) (os.MkdirAll p).
Proof.
  intros w q _ [g Hq]. destruct (os.MkdirAll p w) as [r w'] eqn:Hrun. cbn.
  exists g. exact (proj1 (MkdirAll_effect p w w' r Hrun) q g Hq).
Qed.

Lemma sameBucket_Remove p : preserves sameBucket (os.Remove p).
Proof.
  pose proof sameBucket_setFs as Hset.
  unfold os.Remove. apply preserves_external; [apply _ |]. pres.
Qed.

Lemma objectsKept_Remove U p : preserves (objectsKept U) (os.Remove p).
Proof.
  pose proof (objectsKept_setFs U) as Hset.
  unfold os.Remove. apply preserves_external; [apply _ |]. pres.
Qed.

Lemma filesKept_Remove (X : string -> Prop) p : X p -> preserves (filesKept X) (os.Remove p).
Proof.
  intros HX.
  assert (preserves (filesKept X) (setFs (delete p))) as Hdel.
  { intros w q Hq Hin. cbn. rewrite lookup_delete_ne; [exact Hin |].
    intros ->. contradiction. }
  unfold os.Remove. apply preserves_external; [apply _ |]. pres.
Qed.

Lemma objectsKept_MakeBucket U : preserves (objectsKept U) minio.MakeBucket.
Proof.
  intros w objs n o Hb Hn. unfold minio.MakeBucket. io_unfold. cbn.
  destruct (faults w (steps w)); cbn; rewrite ?Hb; cbn; eauto 6.
Qed.

Lemma objectsKept_FPutObject (U : string -> Prop) n p m :
  U n -> preserves (objectsKept U) (minio.FPutObject n p m).
Proof.
  intros HU w objs k o Hb Hk. unfold minio.FPutObject. io_unfold. cbn.
  destruct (faults w (steps w)); cbn; [eauto 6 |].
  destruct (fs w !! p) as [f|]; cbn; [| eauto 6].
  destruct (isDir f); cbn; [eauto 6 |].
  rewrite Hb. cbn. destruct (decide (n = k)) as [<- | Hne].
  - eexists _, _. split; [reflexivity |]. split; [apply lookup_insert_eq |].
    intros HnU. contradiction.
  - eexists _, o. split; [reflexivity |]. split; [| reflexivity].
    now rewrite lookup_insert_ne.
Qed.

Lemma filesKept_MakeBucket X : preserves (filesKept X) minio.MakeBucket.
Proof.
  pose proof (filesKept_setBucket X) as Hset.
  unfold minio.MakeBucket. apply preserves_external; [apply _ |]. pres.
Qed.

Lemma filesKept_FPutObject X n p m : preserves (filesKept X) (minio.FPutObject n p m).
Proof.
  pose proof (filesKept_setBucket X) as Hset.
  unfold minio.FPutObject. apply preserves_external; [apply _ |]. pres.
Qed.

Section Frames.
Context `{Platform}.

(** X10.  The download side never writes to the bucket: a pass over the cloud
    files ([downloadCloudFiles], [syncFromCloud]), a single download and
    replacement, and the listing and stat calls leave the bucket exactly as
    it was, whatever fails on the way. *)
Theorem downloads_leave_the_bucket (s : Sync.Syncer) (cfg : Main.Config) (w : World) :
  bucket (snd (Sync.downloadCloudFiles s w)) = bucket w /\
  bucket (snd (Main.syncFromCloud cfg w)) = bucket w /\
  (forall n p t, bucket (snd (Sync.downloadAndReplace s n p t w)) = bucket w) /\
  (forall p q, bucket (snd (Main.backupAndReplace cfg p q w)) = bucket w) /\
  bucket (snd (Storage.List w)) = bucket w /\
  (forall n, bucket (snd (Storage.Stat n w)) = bucket w) /\
  (forall n p, bucket (snd (Storage.Download n p w)) = bucket w).
Proof.
  pose proof sameBucket_setFs as Hset.
  pose proof sameBucket_MkdirAll as Hmk.
  pose proof sameBucket_Remove as Hrm.
  repeat split; intros.
  - apply (preserves_downloadCloudFiles sameBucket); auto.
  - apply (preserves_syncFromCloud sameBucket); auto.
  - apply (preserves_downloadAndReplace sameBucket); auto.
  - apply (preserves_backupAndReplace sameBucket); auto.
  - apply (preserves_Storage_List sameBucket); auto.
  - apply (preserves_Storage_Stat sameBucket); auto.
  - apply (preserves_Storage_Download sameBucket); auto.
Qed.

(** X11.  Syncing one file touches one object: after [SyncFile] or
    [checkCloudAndSync] of a path, every object that was in the bucket is
    still there, and all but the one named by the base name of the path are
    exactly as they were. *)
Theorem sync_of_a_file_touches_one_object (s : Sync.Syncer) (cfg : Main.Config)
    (p : string) (w w' : World) (objs : gmap string Object) (n : string) (o : Object) :
  bucket w = Some objs -> objs !! n = Some o ->
  w' = snd (Sync.SyncFile s p w) \/ w' = snd (Main.checkCloudAndSync cfg p w) ->
  exists objs' o', bucket w' = Some objs' /\ objs' !! n = Some o' /\
                   (n <> Go.Base p -> o' = o).
Proof.
  intros Hb Hn Hw'.
  set (U := fun k : string => k = Go.Base p).
  assert (objectsKept U w w') as Hkept.
  { destruct Hw' as [-> | ->].
    - apply (preserves_SyncFile (objectsKept U)) with (U := U);
        auto using objectsKept_setFs, objectsKept_MkdirAll, objectsKept_Remove,
                   objectsKept_FPutObject.
      reflexivity.
    - apply (preserves_checkCloudAndSync (objectsKept U)) with (U := U);
        auto using objectsKept_setFs, objectsKept_MkdirAll, objectsKept_MakeBucket,
                   objectsKept_FPutObject.
      reflexivity. }
  exact (Hkept objs n o Hb Hn).
Qed.

(** X12.  No pass deletes or damages what it does not sync: after [InitialSync],
    [uploadLocalFiles], [localAndCloudSync] or an iteration of the main
    loop, every object that was in the bucket is still there, and every
    object whose name [shouldSyncFile] rejects is exactly as it was. *)
Theorem passes_touch_only_save_objects (s : Sync.Syncer) (cfg : Main.Config)
    (w w' : World) (objs : gmap string Object) (n : string) (o : Object) :
  bucket w = Some objs -> objs !! n = Some o ->
  w' = snd (Sync.InitialSync s w) \/
  w' = snd (Sync.uploadLocalFiles s w) \/
  w' = snd (Main.localAndCloudSync cfg w) \/
  (exists sel last, w' = snd (Main.mainIteration cfg sel last w)) ->
  exists objs' o', bucket w' = Some objs' /\ objs' !! n = Some o' /\
                   (Sync.shouldSyncFile n = false -> o' = o).
Proof.
  intros Hb Hn Hw'.
  set (U := fun k : string => Sync.shouldSyncFile k = true).
  assert (forall path, Sync.shouldSyncFile path = true -> U (Go.Base path)) as HU.
  { intros path Hp. unfold U. now rewrite shouldSyncFile_Base. }
  assert (objectsKept U w w') as Hkept.
  { destruct Hw' as [-> | [-> | [-> | (sel & last & ->)]]].
    - apply (preserves_InitialSync (objectsKept U)) with (U := U);
        auto using objectsKept_setFs, objectsKept_MkdirAll, objectsKept_Remove,
                   objectsKept_MakeBucket,
                   objectsKept_FPutObject.
    - apply (preserves_uploadLocalFiles (objectsKept U)) with (U := U);
        auto using objectsKept_setFs, objectsKept_MkdirAll, objectsKept_Remove,
                   objectsKept_MakeBucket,
                   objectsKept_FPutObject.
    - apply (preserves_localAndCloudSync (objectsKept U)) with (U := U);
        auto using objectsKept_setFs, objectsKept_MkdirAll, objectsKept_Remove,
                   objectsKept_MakeBucket,
                   objectsKept_FPutObject.
    - apply (preserves_mainIteration (objectsKept U)) with (U := U);
        auto using objectsKept_setFs, objectsKept_MkdirAll, objectsKept_Remove,
                   objectsKept_MakeBucket,
                   objectsKept_FPutObject. }
  destruct (Hkept objs n o Hb Hn) as (objs' & o' & Hb' & Hn' & Ho').
  exists objs', o'. split; [exact Hb' |]. split; [exact Hn' |].
  intros Hrej. apply Ho'. unfold U. rewrite Hrej. discriminate.
Qed.

(** X13.  Syncing never deletes a local file.  After any call of the legacy
    program ([checkCloudAndSync], [localAndCloudSync], an iteration of the
    main loop) every path that existed still exists; the syncer
    ([SyncFile], [InitialSync]) removes nothing but the temporary files of
    its downloads. *)
Theorem sync_keeps_local_paths (s : Sync.Syncer) (cfg : Main.Config)
    (w : World) (q : string) :
  is_Some (fs w !! q) ->
  (forall p, is_Some (fs (snd (Main.checkCloudAndSync cfg p w)) !! q)) /\
  is_Some (fs (snd (Main.localAndCloudSync cfg w)) !! q) /\
  (forall sel last, is_Some (fs (snd (Main.mainIteration cfg sel last w)) !! q)) /\
  ((forall n, q <> Join TempDir (n +:+ ".download")) ->
   (forall p, is_Some (fs (snd (Sync.SyncFile s p w)) !! q)) /\
   is_Some (fs (snd (Sync.InitialSync s w)) !! q)).
Proof.
  intros Hq.
  set (U := fun _ : string => True).
  set (none := fun _ : string => False).
  assert (~ none q) as Hnone by (intros []).
  split; [| split; [| split]].
  - intros p.
    apply (preserves_checkCloudAndSync (filesKept none) (filesKept_insert none)
             (filesKept_MkdirAll none) U
             (filesKept_MakeBucket none)
             (fun n p m _ => filesKept_FPutObject none n p m) cfg p I w q Hnone Hq).
  - apply (preserves_localAndCloudSync (filesKept none) (filesKept_insert none)
             (filesKept_MkdirAll none) U
             (filesKept_MakeBucket none)
             (fun n p m _ => filesKept_FPutObject none n p m)
             (fun _ _ => I) cfg w q Hnone Hq).
  - intros sel last.
    apply (preserves_mainIteration (filesKept none) (filesKept_insert none)
             (filesKept_MkdirAll none) U
             (filesKept_MakeBucket none)
             (fun n p m _ => filesKept_FPutObject none n p m)
             (fun _ _ => I) cfg sel last w q Hnone Hq).
  - intros Htemp.
    assert (~ isTempDownload q) as Hx.
    { intros [n Hn]. exact (Htemp n Hn). }
    assert (forall n, preserves (filesKept isTempDownload)
                        (os.Remove (Join TempDir (n +:+ ".download")))) as Hrm.
    { intros n. apply filesKept_Remove. now exists n. }
    split.
    + intros p.
      apply (preserves_SyncFile (filesKept isTempDownload)
               (filesKept_insert isTempDownload) (filesKept_MkdirAll isTempDownload) Hrm U
               (fun n p m _ => filesKept_FPutObject isTempDownload n p m)
               s p I w q Hx Hq).
    + apply (preserves_InitialSync (filesKept isTempDownload)
               (filesKept_insert isTempDownload) (filesKept_MkdirAll isTempDownload) Hrm U
               (filesKept_MakeBucket isTempDownload)
               (fun n p m _ => filesKept_FPutObject isTempDownload n p m)
               (fun _ _ => I) s w q Hx Hq).
Qed.

End Frames.


(** ** A second look finds nothing to do *)

Lemma Sub_same (t : Go.Time) : Go.Sub t (Go.UTC t) = 0.
Proof.
  unfold Go.Sub, Go.UTC, Go.minDuration, Go.maxDuration, Go.minInt64, Go.maxInt64.
  rewrite Z.sub_diag. reflexivity.
Qed.

Lemma transfers_quiet (t : list Event) (e : Event) :
  isTransfer e = false -> transfers (t ++ [e]) = transfers t.
Proof.
  intros He. unfold transfers. rewrite List.filter_app. cbn. rewrite He.
  apply app_nil_r.
Qed.

Lemma os_Stat_found (p : string) (w : World) (f : File) :
  faults w (steps w) = false -> fs w !! p = Some f ->
  os.Stat p w =
    (inr (infoOf p f),
     mkWorld (fs w) (bucket w) (procs w) (faults w) (clock w) (S (steps w))
             (trace w ++ [EvStat p])).
Proof.
  intros Hfault Hf. unfold os.Stat. io_unfold. cbn.
  rewrite Hfault. cbn. rewrite Hf. reflexivity.
Qed.

Lemma Storage_Stat_found (n : string) (w : World) (objs : gmap string Object) (o : Object) :
  faults w (steps w) = false -> bucket w = Some objs -> objs !! n = Some o ->
  Storage.Stat n w =
    (inr (Storage.mkFileInfo n (Storage.extractModTime (minio.infoOfObject n o))
                             (Z.of_nat (String.length (body o)))),
     mkWorld (fs w) (bucket w) (procs w) (faults w) (clock w) (S (steps w))
             (trace w ++ [EvStatObject n])).
Proof.
  intros Hfault Hb Ho. unfold Storage.Stat, minio.StatObject.
  io_unfold. cbn. rewrite Hfault. cbn. rewrite Hb, Ho. reflexivity.
Qed.

Lemma Storage_Stat_inv (n : string) (w w0 : World) (info : Storage.FileInfo) :
  Storage.Stat n w = (inr info, w0) ->
  exists objs o, bucket w = Some objs /\ objs !! n = Some o /\
    Storage.ModTime info = Storage.extractModTime (minio.infoOfObject n o) /\
    bucket w0 = bucket w.
Proof.
  unfold Storage.Stat, minio.StatObject.
  io_unfold. cbn.
  destruct (faults w (steps w)); cbn; [discriminate |].
  destruct (bucket w) as [objs|] eqn:Hb; cbn; [| discriminate].
  destruct (objs !! n) as [o|] eqn:Ho; cbn; [| discriminate].
  intros [= <- <-]. exists objs, o. cbn. auto.
Qed.

Section SecondLook.
Context `{Platform}.

(** With the local file and the stored time equal, [SyncFile] stats both
    sides and stops there. *)
Lemma SyncFile_in_step (s : Sync.Syncer) (p : string) (w : World) (f : File)
    (objs : gmap string Object) (o : Object) :
  0 <= Sync.timeTolerance s <= Go.maxDuration ->
  faults w (steps w) = false -> faults w (S (steps w)) = false ->
  fs w !! p = Some f -> isDir f = false ->
  bucket w = Some objs -> objs !! Go.Base p = Some o ->
  Storage.extractModTime (minio.infoOfObject (Go.Base p) o) = mtime f ->
  exists w2, Sync.SyncFile s p w = (None, w2) /\
             fs w2 = fs w /\ bucket w2 = bucket w /\
             transfers (trace w2) = transfers (trace w).
Proof.
  intros Htol Hf1 Hf2 Hf Hd Hb Ho Hm.
  unfold Sync.SyncFile. unfold bind at 1.
  rewrite (os_Stat_found p w f Hf1 Hf). cbn [infoOf fiIsDir fiModTime]. rewrite Hd.
  unfold bind at 1.
  rewrite (Storage_Stat_found (Go.Base p) _ objs o); [| exact Hf2 | exact Hb | exact Ho].
  cbn [Storage.ModTime]. rewrite Hm, Sub_same, (neg_tolerance _ Htol).
  destruct (Z.ltb_spec (Sync.timeTolerance s) 0) as [Hlt | _]; [lia |].
  destruct (Z.ltb_spec 0 (- Sync.timeTolerance s)) as [Hlt | _]; [lia |].
  eexists. split; [reflexivity |]. cbn [fs bucket trace].
  split; [reflexivity |]. split; [reflexivity |].
  rewrite !transfers_quiet by reflexivity. reflexivity.
Qed.

Lemma backupAndUpload_uploaded (s : Sync.Syncer) (p n : string) (w w1 : World) :
  Sync.backupAndUpload s p n w = (None, w1) ->
  exists w0 w0', Storage.Upload p n w0 = (None, w0') /\
                 fs w1 = fs w0' /\ bucket w1 = bucket w0'.
Proof.
  unfold Sync.backupAndUpload. unfold bind at 1.
  destruct (Sync.fileExists p w) as [ex wa]. unfold bind at 1.
  destruct ((if ex then Sync.createBackup s p else ret None) wa) as [[e|] wb];
    [discriminate |].
  unfold bind at 1. destruct (Storage.Upload p n wb) as [[e|] wc] eqn:Hup;
    [discriminate |].
  unfold log, emit, bind, ret. intros [= <-]. exists wb, wc. auto.
Qed.

(** X14.  Uploading settles the file: once [backupAndUpload] has stored a file
    under its base name, a [SyncFile] of the same path whose two stat calls
    go through finds the times equal, reports no error, moves no data and
    leaves files and bucket as they are. *)
Theorem upload_then_sync_is_quiet (s : Sync.Syncer) (p : string) (w w1 : World) (f : File) :
  0 <= Sync.timeTolerance s <= Go.maxDuration ->
  Sync.backupAndUpload s p (Go.Base p) w = (None, w1) ->
  fs w1 !! p = Some f ->
  Go.minInt64 <= mtime f <= Go.maxInt64 ->
  faults w1 (steps w1) = false ->
  faults w1 (S (steps w1)) = false ->
  exists w2, Sync.SyncFile s p w1 = (None, w2) /\
             fs w2 = fs w1 /\ bucket w2 = bucket w1 /\
             transfers (trace w2) = transfers (trace w1).
Proof.
  intros Htol Hrun Hf Hm Hf1 Hf2.
  destruct (backupAndUpload_uploaded s p _ w w1 Hrun) as (w0 & w0' & Hup & Hfs & Hb).
  destruct (Upload_stores _ _ _ _ Hup) as (f' & objs & t & Hf' & Hd & Hfs' & _ & Hb').
  rewrite Hfs, Hfs', Hf' in Hf. injection Hf as ->.
  rewrite <- Hb in Hb'.
  eapply (SyncFile_in_step s p w1 f); try eassumption.
  - now rewrite Hfs, Hfs'.
  - apply lookup_insert_eq.
  - now apply extractModTime_uploaded.
Qed.

Lemma downloadAndReplace_regular (s : Sync.Syncer) (n p : string) (t : Go.Time)
    (w w' : World) :
  Sync.downloadAndReplace s n p t w = (None, w') ->
  Join TempDir (n +:+ ".download") <> p ->
  exists f, fs w' !! p = Some f /\ isDir f = false.
Proof.
  intros Hrun Htemp.
  assert (p <> Join TempDir (n +:+ ".download")) as Htemp' by congruence.
  revert Hrun.
  unfold Sync.downloadAndReplace, Sync.fileExists, Storage.Download, Sync.copyFile.
  io_unfold. cbn.
  repeat (first [ rewrite lookup_insert_eq
                | rewrite lookup_delete_ne by assumption
                | rewrite lookup_insert_ne by assumption
                | destruct_match ]; cbn);
    try discriminate; intros [= <-]; cbn.
  all: repeat first [ rewrite lookup_insert_eq
                    | rewrite lookup_delete_ne by assumption
                    | rewrite lookup_insert_ne by assumption ]; cbn.
  all: eexists; split; reflexivity.
Qed.

(** X15.  Downloading settles the file too: when [downloadAndReplace] has
    replaced the local file and given it the time reported for the object,
    a [SyncFile] of the same path whose two stat calls go through reports no
    error, moves no data and leaves files and bucket as they are. *)
Theorem download_then_sync_is_quiet (s : Sync.Syncer) (p : string)
    (w w0 w1 : World) (info : Storage.FileInfo) :
  0 <= Sync.timeTolerance s <= Go.maxDuration ->
  Storage.Stat (Go.Base p) w = (inr info, w0) ->
  Sync.downloadAndReplace s (Go.Base p) p (Storage.ModTime info) w0 = (None, w1) ->
  Join TempDir (Go.Base p +:+ ".download") <> p ->
  localMtime w1 p = Some (Storage.ModTime info) ->
  faults w1 (steps w1) = false ->
  faults w1 (S (steps w1)) = false ->
  exists w2, Sync.SyncFile s p w1 = (None, w2) /\
             fs w2 = fs w1 /\ bucket w2 = bucket w1 /\
             transfers (trace w2) = transfers (trace w1).
Proof.
  intros Htol Hstat Hrun Htemp Hmt Hf1 Hf2.
  destruct (Storage_Stat_inv _ _ _ _ Hstat) as (objs & o & Hb & Ho & Hinfo & Hb0).
  destruct (downloadAndReplace_regular _ _ _ _ _ _ Hrun Htemp) as (f & Hf & Hd).
  assert (bucket w1 = bucket w0) as Hb1.
  { pose proof (preserves_downloadAndReplace sameBucket
                  (fun k f => sameBucket_setFs (insert k f)) sameBucket_MkdirAll
                  (fun n => sameBucket_Remove _) s (Go.Base p) p (Storage.ModTime info) w0) as Hk.
    rewrite Hrun in Hk. exact Hk. }
  unfold localMtime in Hmt. rewrite Hf in Hmt. injection Hmt as Hmt.
  eapply (SyncFile_in_step s p w1 f objs o); try eassumption.
  - congruence.
  - congruence.
Qed.

End SecondLook.


(** ** Passes and configuration *)

Section PassResults.
Context `{Platform}.

(** X17.  A pass fails only as a whole: [uploadLocalFiles] reports an error
    exactly when the watch directory cannot be read (the call fails, or the
    path is missing or not a directory), and [downloadCloudFiles] exactly
    when the listing fails; whatever goes wrong with a single file is
    logged and the pass goes on. *)
Theorem passes_survive_file_failures (s : Sync.Syncer) (w : World) :
  (fst (Sync.uploadLocalFiles s w) = None <->
   faults w (steps w) = false /\
   exists d, fs w !! Sync.watchPath s = Some d /\ isDir d = true) /\
  (fst (Sync.downloadCloudFiles s w) = None <->
   exists files, fst (Storage.List w) = inr files).
Proof.
  split.
  - unfold Sync.uploadLocalFiles, ReadDir. unfold external.
    unfold bind at 1. unfold bind at 1. cbn [emit fst snd].
    unfold bind at 1. cbn [step fst snd faults steps].
    destruct (faults w (steps w)); cbn.
    { split; [discriminate | intros [? _]; discriminate]. }
    unfold bind at 1. cbn.
    destruct (fs w !! Sync.watchPath s) as [d|]; cbn.
    + destruct (isDir d) eqn:Hd; cbn.
      * unfold bind at 1.
        match goal with |- context [forEach ?l ?b ?w0] => destruct (forEach l b w0) end.
        cbn. split; [eauto | reflexivity].
      * split; [discriminate | intros (_ & d' & [= <-] & Hd'); congruence].
    + split; [discriminate | intros (_ & d' & Hd' & _); discriminate].
  - unfold Sync.downloadCloudFiles. unfold bind at 1.
    destruct (Storage.List w) as [[e | files] w1]; cbn.
    + split; [discriminate | intros [? ?]; discriminate].
    + unfold bind at 1.
      match goal with |- context [forEach ?l ?b ?w0] => destruct (forEach l b w0) end.
      cbn. split; [eauto | reflexivity].
Qed.

End PassResults.

(** X18.  [Validate] accepts a configuration exactly when its watch path is not
    empty and names a directory the stat call can see; it changes neither
    the files nor the bucket. *)
Theorem Validate_accepts_directories (c : config.Config) (w : World) :
  (fst (config.Validate c w) = None <->
   config.WatchPath c <> "" /\ faults w (steps w) = false /\
   exists d, fs w !! config.WatchPath c = Some d /\ isDir d = true) /\
  fs (snd (config.Validate c w)) = fs w /\
  bucket (snd (config.Validate c w)) = bucket w.
Proof.
  unfold config.Validate.
  destruct (String.eqb_spec (config.WatchPath c) "") as [He | Hne]; cbn.
  { split; [| auto]. split; [discriminate | intros [Hc _]; contradiction]. }
  io_unfold. cbn. destruct (faults w (steps w)); cbn.
  { split; [| auto]. split; [discriminate | intros (_ & Hc & _); discriminate]. }
  destruct (fs w !! config.WatchPath c) as [d|]; cbn.
  - destruct (isDir d) eqn:Hd; cbn.
    + split; [| auto]. split; [eauto 6 | reflexivity].
    + split; [| auto].
      split; [discriminate | intros (_ & _ & d' & [= <-] & Hd'); congruence].
  - split; [| auto].
    split; [discriminate | intros (_ & _ & d' & Hd' & _); discriminate].
Qed.

Section Flags.
Context `{Platform}.

(** X19.  [LoadFromFlags] succeeds exactly when an access key and a secret key
    are given and not empty, the endpoint and the bucket name are not set
    to the empty string (unset, they have defaults), and a watch path is
    given or LOCALAPPDATA is set.  The configuration it returns then has
    the given or default values: the watch path falls back to the
    save-game folder under LOCALAPPDATA, the backup directory to "Backup"
    under the watch path, and SSL is on exactly for an endpoint that
    starts with "https://". *)
Theorem LoadFromFlags_requirements (given : gmap string string) (localAppData : string) :
  let flag name def := default def (given !! name) in
  ((exists c, config.LoadFromFlags given localAppData = inr c) <->
   given !! "cloud-endpoint" <> Some "" /\
   (exists a, given !! "access-key" = Some a /\ a <> "") /\
   (exists k, given !! "secret-key" = Some k /\ k <> "") /\
   given !! "bucket-name" <> Some "" /\
   (flag "watch-path" "" <> "" \/ localAppData <> "")) /\
  (forall c, config.LoadFromFlags given localAppData = inr c ->
     config.WatchPath c =
       (if String.eqb (flag "watch-path" "") ""
        then Join (Join (Join localAppData "RSDragonwilds") "Saved") "SaveGames"
        else flag "watch-path" "") /\
     config.BackupDir c =
       (if String.eqb (flag "backup-dir" "") ""
        then Join (config.WatchPath c) "Backup" else flag "backup-dir" "") /\
     config.ProcessName c = flag "process-name" "RSDragonwilds-Win64-Shipping.exe" /\
     config.Endpoint (config.S3 c) = flag "cloud-endpoint" "localhost:9000" /\
     config.BucketName (config.S3 c) = flag "bucket-name" "gamesync-dragonwilds" /\
     given !! "access-key" = Some (config.AccessKey (config.S3 c)) /\
     given !! "secret-key" = Some (config.SecretKey (config.S3 c)) /\
     config.UseSSL (config.S3 c) =
       Go.HasPrefix (config.Endpoint (config.S3 c)) "https://").
Proof.
  intros flag. unfold config.LoadFromFlags, config.getDefaultWatchPath, config.flagValue.
  subst flag. cbv beta.
  generalize (default "" (given !! "watch-path")) (default "" (given !! "backup-dir"))
             (default "RSDragonwilds-Win64-Shipping.exe" (given !! "process-name")).
  intros wp bd pn.
  assert (forall (v : option string) (def : string), def <> "" ->
            (default def v = "" <-> v = Some "")) as Hdef.
  { intros [x|] def Hd; cbn; split; congruence. }
  assert (forall v : option string,
            default "" v <> "" <-> exists a, v = Some a /\ a <> "") as Hreq.
  { intros [x|]; cbn; split.
    - eauto.
    - intros (a & [= <-] & Ha). exact Ha.
    - congruence.
    - intros (a & Ha & _). discriminate. }
  assert (forall v : option string,
            default "" v <> "" -> v = Some (default "" v)) as Hgiven.
  { intros [x|]; cbn; congruence. }
  pose proof (Hdef (given !! "cloud-endpoint") "localhost:9000" ltac:(discriminate)) as He.
  pose proof (Hdef (given !! "bucket-name") "gamesync-dragonwilds" ltac:(discriminate)) as Hb.
  pose proof (Hreq (given !! "access-key")) as Ha.
  pose proof (Hreq (given !! "secret-key")) as Hk.
  pose proof (Hgiven (given !! "access-key")) as Ha'.
  pose proof (Hgiven (given !! "secret-key")) as Hk'.
  revert He Hb Ha Hk Ha' Hk'.
  generalize (default "localhost:9000" (given !! "cloud-endpoint"))
             (default "gamesync-dragonwilds" (given !! "bucket-name"))
             (default "" (given !! "access-key"))
             (default "" (given !! "secret-key")).
  intros e b a k He Hb Ha Hk Ha' Hk'.
  destruct (String.eqb_spec e "") as [Ee | Ee]; cbn [orb].
  { split; [| discriminate].
    split; [intros [c Hc]; discriminate | intros (H1 & _)].
    exfalso. apply H1, He, Ee. }
  destruct (String.eqb_spec a "") as [Ea | Ea]; cbn [orb].
  { split; [| discriminate].
    split; [intros [c Hc]; discriminate | intros (_ & H2 & _)].
    exfalso. apply Ha in H2. contradiction. }
  destruct (String.eqb_spec k "") as [Ek | Ek]; cbn [orb].
  { split; [| discriminate].
    split; [intros [c Hc]; discriminate | intros (_ & _ & H3 & _)].
    exfalso. apply Hk in H3. contradiction. }
  destruct (String.eqb_spec b "") as [Eb | Eb]; cbn [orb].
  { split; [| discriminate].
    split; [intros [c Hc]; discriminate | intros (_ & _ & _ & H4 & _)].
    exfalso. apply H4, Hb, Eb. }
  assert (given !! "cloud-endpoint" <> Some "") as Ne by (intros E; apply Ee, He, E).
  assert (given !! "bucket-name" <> Some "") as Nb by (intros E; apply Eb, Hb, E).
  apply Ha in Ea as Ea2. apply Hk in Ek as Ek2.
  destruct (String.eqb_spec wp "") as [Ew | Ew].
  - destruct (String.eqb_spec localAppData "") as [El | El].
    + split; [| discriminate].
      split; [intros [c Hc]; discriminate | intros (_ & _ & _ & _ & [Hx | Hx])];
        contradiction.
    + split; [split; [intros _; auto 10 | eauto] |].
      intros c [= <-]. cbn. auto 10.
  - split; [split; [intros _; auto 10 | eauto] |].
    intros c [= <-]. cbn. auto 10.
Qed.

End Flags.



(** ** A download that fails *)

Section FailedDownload.
Context `{Platform}.

(** X16.  A download of the syncer that ends with an error from the backup or
    from the transfer has left the local file with the content and the time
    it had, or absent as it was: the file is replaced only once the object
    has arrived.  The local file must not itself be the place a backup of it
    would go to. *)
Theorem failed_download_keeps_local_file (s : Sync.Syncer) (n p : string) (t : Go.Time)
    (w w' : World) (r : option error) :
  Sync.downloadAndReplace s n p t w = (r, w') ->
  (forall k, Join (Join (Sync.backupDir s) (FormatStamp (clock w k))) (Go.Base p) <> p) ->
  (exists e, r = Some (Wrapf "failed to create backup: %w" e)) \/
  (exists e, r = Some (Wrapf "failed to download: %w" e)) ->
  fs w' !! p = fs w !! p /\ bucket w' = bucket w.
Proof.
  intros Hrun Hne Hshape. split.
  - revert Hrun.
    unfold Sync.downloadAndReplace, Sync.fileExists, Storage.Download, Sync.copyFile.
    io_unfold. cbn.
    repeat (destruct_match; cbn); intros [= <- <-];
      try (destruct Hshape as [[e He] | [e He]]; discriminate He); cbn;
      try reflexivity.
    all: try assumption.
    all: match goal with
         | Hb : Sync.createBackup _ _ ?w1 = (_, ?w2), Hf : _ !! _ = Some ?f |- _ =>
             let Hk := fresh in
             pose proof (createBackup_keeps_other s p p w1 f Hf Hne) as Hk;
             rewrite Hb in Hk; exact Hk
         end.
  - pose proof (preserves_downloadAndReplace sameBucket
                  (fun k f => sameBucket_setFs (insert k f)) sameBucket_MkdirAll
                  (fun n => sameBucket_Remove _) s n p t w) as Hk.
    rewrite Hrun in Hk. exact Hk.
Qed.

End FailedDownload.


(** ** The further theorems at work on the concrete runs *)

(** Copying the save beside itself. *)
Lemma copyFile_copies_witness :
  let w := start localFiles (Some ∅) (Some []) noFault in
  let w' := snd (Sync.copyFile save "/saves/copy.sav" w) in
  exists f t, fs w !! save = Some f /\ isDir f = false /\
              fs w' !! "/saves/copy.sav" = Some (mkFile (data f) t false).
Proof.
  intros w w'.
  assert (save <> "/saves/copy.sav") as Hne by (unfold save; discriminate).
  assert (fst (Sync.copyFile save "/saves/copy.sav" w) = None) as Hrun
    by (vm_compute; reflexivity).
  exact (proj1 (proj2 (copyFile_copies Sync.copyFile save "/saves/copy.sav" w w' None
                         (or_introl eq_refl) Hne (run_eta _ w None Hrun))) eq_refl).
Defined.

(** The backup root of the scenario does not exist yet: it is made. *)
Lemma ensureDir_makes_directory_witness :
  let w := start localFiles (Some ∅) (Some []) noFault in
  let w' := snd (Sync.ensureDir "/saves/Backup" w) in
  exists d, fs w' !! "/saves/Backup" = Some d /\ isDir d = true.
Proof.
  intros w w'.
  assert (fst (Sync.ensureDir "/saves/Backup" w) = None) as Hrun
    by (vm_compute; reflexivity).
  exact (proj1 (proj2 (proj2 (ensureDir_makes_directory Sync.ensureDir "/saves/Backup"
                                w w' None (or_introl eq_refl) (run_eta _ w None Hrun))))
           eq_refl).
Defined.

(** The first backup folder of the legacy program. *)
Lemma backup_folder_is_new_witness :
  let w := start localFiles (Some ∅) (Some []) noFault in
  let w' := snd (Main.createBackupTimeFolder config w) in
  let backupPath := Join "/saves/Backup" (FormatStamp (wallClock 3)) in
  fs w !! backupPath = None /\
  (exists d, fs w' !! backupPath = Some d /\ isDir d = true).
Proof.
  intros w w' backupPath.
  assert (fst (Main.createBackupTimeFolder config w) = inr backupPath) as Hrun
    by (vm_compute; reflexivity).
  pose (P := backup_folder_is_new syncer config w w' backupPath
               (or_intror (run_eta _ w (inr backupPath) Hrun))).
  exact (conj (proj1 (proj2 P)) (proj1 (proj2 (proj2 P)))).
Defined.

(** Replacing the save by a file that is not there: the save stays. *)
Lemma backupAndReplace_backs_up_first_witness :
  let w := Still.start localFiles (Some ∅) noFault in
  let w' := snd (Main.backupAndReplace config save "/tmp/none" w) in
  fs w' !! save = Some (mkFile "local bytes" T0 false) \/
  exists stamp t,
    fs w' !! Join (Join (Main.backupDir config) stamp) (Go.Base save)
      = Some (mkFile (data (mkFile "local bytes" T0 false)) t false).
Proof.
  intros w w'.
  assert (fs w !! save = Some (mkFile "local bytes" T0 false)) as Hf
    by (vm_compute; reflexivity).
  assert (forall k, Join (Join (Main.backupDir config) (FormatStamp (clock w k)))
                         (Go.Base save) <> save) as Hne
    by (intros k; vm_compute; discriminate).
  exact (backupAndReplace_backs_up_first config save "/tmp/none" w
           (mkFile "local bytes" T0 false) Hf eq_refl Hne).
Defined.

(** No bucket yet: [EnsureBucket] makes an empty one. *)
Lemma EnsureBucket_keeps_objects_witness :
  let w := start localFiles None (Some []) noFault in
  bucket (snd (Storage.EnsureBucket w)) = Some ∅.
Proof.
  intros w.
  assert (fst (Storage.EnsureBucket w) = None) as Hrun by (vm_compute; reflexivity).
  exact (proj1 (proj2 (EnsureBucket_keeps_objects w (snd (Storage.EnsureBucket w)) None
                         (run_eta _ w None Hrun))) eq_refl eq_refl).
Defined.

(** Listing the bucket of the scenario. *)
Lemma List_reports_every_object_witness :
  let w := start localFiles (Some remoteNewer) (Some []) noFault in
  length [Storage.mkFileInfo "game.sav" Still.remoteTime 12] = size remoteNewer.
Proof.
  intros w.
  assert (fst (Storage.List w) = inr [Storage.mkFileInfo "game.sav" Still.remoteTime 12])
    as Hrun by (vm_compute; reflexivity).
  exact (proj1 (proj2 (proj2 (List_reports_every_object w (snd (Storage.List w))
                                remoteNewer
                                [Storage.mkFileInfo "game.sav" Still.remoteTime 12]
                                eq_refl (run_eta _ w _ Hrun))))).
Defined.

(** Syncing the save leaves the notes in the bucket alone. *)
Lemma sync_of_a_file_touches_one_object_witness :
  let w := Still.start localFiles (Some Still.mixedBucket) noFault in
  let w' := snd (Sync.SyncFile syncer save w) in
  exists objs' o', bucket w' = Some objs' /\ objs' !! "notes.txt" = Some o' /\
                   ("notes.txt" <> Go.Base save -> o' = mkObject "notes" ∅ T0).
Proof.
  intros w w'.
  assert (Still.mixedBucket !! "notes.txt" = Some (mkObject "notes" ∅ T0)) as Hn
    by (vm_compute; reflexivity).
  assert (bucket w = Some Still.mixedBucket) as Hb by reflexivity.
  assert (w' = snd (Sync.SyncFile syncer save w) \/
          w' = snd (Main.checkCloudAndSync config save w)) as Hw by (left; reflexivity).
  exact (sync_of_a_file_touches_one_object syncer config save w w' Still.mixedBucket
           "notes.txt" (mkObject "notes" ∅ T0) Hb Hn Hw).
Defined.

(** The initial sync leaves the notes in the bucket alone. *)
Lemma passes_touch_only_save_objects_witness :
  let w := Still.start localFiles (Some Still.mixedBucket) noFault in
  let w' := snd (Sync.InitialSync syncer w) in
  exists objs' o', bucket w' = Some objs' /\ objs' !! "notes.txt" = Some o' /\
                   (Sync.shouldSyncFile "notes.txt" = false -> o' = mkObject "notes" ∅ T0).
Proof.
  intros w w'.
  assert (Still.mixedBucket !! "notes.txt" = Some (mkObject "notes" ∅ T0)) as Hn
    by (vm_compute; reflexivity).
  assert (bucket w = Some Still.mixedBucket) as Hb by reflexivity.
  assert (w' = snd (Sync.InitialSync syncer w) \/
          w' = snd (Sync.uploadLocalFiles syncer w) \/
          w' = snd (Main.localAndCloudSync config w) \/
          (exists sel last, w' = snd (Main.mainIteration config sel last w))) as Hw
    by (left; reflexivity).
  exact (passes_touch_only_save_objects syncer config w w' Still.mixedBucket
           "notes.txt" (mkObject "notes" ∅ T0) Hb Hn Hw).
Defined.

(** The save is still there after a pass of the legacy program. *)
Lemma sync_keeps_local_paths_witness :
  let w := start localFiles (Some remoteNewer) (Some []) noFault in
  is_Some (fs (snd (Main.localAndCloudSync config w)) !! save).
Proof.
  intros w.
  assert (is_Some (fs w !! save)) as Hq
    by (exists (mkFile "local bytes" T0 false); vm_compute; reflexivity).
  exact (proj1 (proj2 (sync_keeps_local_paths syncer config w save Hq))).
Defined.

(** The save uploaded to an empty bucket, then synced again. *)
Lemma upload_then_sync_is_quiet_witness :
  let w := start localFiles (Some ∅) (Some []) noFault in
  let w1 := snd (Sync.backupAndUpload syncer save (Go.Base save) w) in
  exists w2, Sync.SyncFile syncer save w1 = (None, w2) /\
             fs w2 = fs w1 /\ bucket w2 = bucket w1 /\
             transfers (trace w2) = transfers (trace w1).
Proof.
  intros w w1.
  assert (0 <= Sync.timeTolerance syncer <= Go.maxDuration) as Htol
    by (vm_compute; split; discriminate).
  assert (fst (Sync.backupAndUpload syncer save (Go.Base save) w) = None) as Hrun
    by (vm_compute; reflexivity).
  assert (fs w1 !! save = Some (mkFile "local bytes" T0 false)) as Hf
    by (vm_compute; reflexivity).
  assert (Go.minInt64 <= mtime (mkFile "local bytes" T0 false) <= Go.maxInt64) as Hm
    by (vm_compute; split; discriminate).
  assert (faults w1 (steps w1) = false) as Hf1 by (vm_compute; reflexivity).
  assert (faults w1 (S (steps w1)) = false) as Hf2 by (vm_compute; reflexivity).
  exact (upload_then_sync_is_quiet syncer save w w1 (mkFile "local bytes" T0 false)
           Htol (run_eta _ w None Hrun) Hf Hm Hf1 Hf2).
Defined.

(** The newer copy of the bucket downloaded, then the save synced again. *)
Lemma download_then_sync_is_quiet_witness :
  let w := start localFiles (Some remoteNewer) (Some []) noFault in
  let info := Storage.mkFileInfo "game.sav" Still.remoteTime 12 in
  let w0 := snd (Storage.Stat (Go.Base save) w) in
  let w1 := snd (Sync.downloadAndReplace syncer (Go.Base save) save
                   (Storage.ModTime info) w0) in
  exists w2, Sync.SyncFile syncer save w1 = (None, w2) /\
             fs w2 = fs w1 /\ bucket w2 = bucket w1 /\
             transfers (trace w2) = transfers (trace w1).
Proof.
  intros w info w0 w1.
  assert (0 <= Sync.timeTolerance syncer <= Go.maxDuration) as Htol
    by (vm_compute; split; discriminate).
  assert (fst (Storage.Stat (Go.Base save) w) = inr info) as Hstat
    by (vm_compute; reflexivity).
  assert (fst (Sync.downloadAndReplace syncer (Go.Base save) save
                 (Storage.ModTime info) w0) = None) as Hrun
    by (vm_compute; reflexivity).
  assert (Join TempDir (Go.Base save +:+ ".download") <> save) as Htemp
    by (vm_compute; discriminate).
  assert (localMtime w1 save = Some (Storage.ModTime info)) as Hmt
    by (vm_compute; reflexivity).
  assert (faults w1 (steps w1) = false) as Hf1 by (vm_compute; reflexivity).
  assert (faults w1 (S (steps w1)) = false) as Hf2 by (vm_compute; reflexivity).
  exact (download_then_sync_is_quiet syncer save w w0 w1 info Htol
           (run_eta _ w (inr info) Hstat) (run_eta _ w0 None Hrun) Htemp Hmt Hf1 Hf2).
Defined.

(** No bucket: the download fails and the save is as it was. *)
Lemma failed_download_keeps_local_file_witness :
  let w := Still.start localFiles None noFault in
  let w' := snd (Sync.downloadAndReplace syncer "game.sav" save Still.remoteTime w) in
  fs w' !! save = fs w !! save /\ bucket w' = bucket w.
Proof.
  intros w w'.
  pose (r := Some (Wrapf "failed to download: %w"
                     (Wrapf "failed to download file: %w" ENoSuchBucket))).
  assert (fst (Sync.downloadAndReplace syncer "game.sav" save Still.remoteTime w) = r)
    as Hrun by (vm_compute; reflexivity).
  assert (forall k, Join (Join (Sync.backupDir syncer) (FormatStamp (clock w k)))
                         (Go.Base save) <> save) as Hne
    by (intros k; vm_compute; discriminate).
  exact (failed_download_keeps_local_file syncer "game.sav" save Still.remoteTime w w' r
           (run_eta _ w r Hrun) Hne (or_intror (ex_intro _ _ eq_refl))).
Defined.

(** The backup of the save before a transfer. *)
Lemma Syncer_backup_guards_transfer_witness :
  let w := start localFiles (Some ∅) (Some []) noFault in
  let w1 := snd (Sync.fileExists save w) in
  let w2 := snd (Sync.createBackup syncer save w1) in
  exists stamp t',
    fs w2 !! Join (Join (Sync.backupDir syncer) stamp) (Go.Base save)
      = Some (mkFile (data (mkFile "local bytes" T0 false)) t' false).
Proof.
  intros w w1 w2.
  assert (fs w !! save = Some (mkFile "local bytes" T0 false)) as Hf
    by (vm_compute; reflexivity).
  assert (faults w (steps w) = false) as Hfault by reflexivity.
  assert (fst (Sync.createBackup syncer save w1) = None) as Hb
    by (vm_compute; reflexivity).
  exact (proj1 (proj1 (Syncer_backup_guards_transfer syncer save "game.sav" T0 w
                         (mkFile "local bytes" T0 false) Hf)
                  Hfault None w2 (run_eta _ w1 None Hb))).
Defined.

(** The newer copy of the bucket replaces the save. *)
Lemma Syncer_download_success_witness :
  let w := start localFiles (Some remoteNewer) (Some []) noFault in
  let w' := snd (Sync.downloadAndReplace syncer "game.sav" save Still.remoteTime w) in
  In (EvRemove (Join TempDir ("game.sav" +:+ ".download"))) (trace w').
Proof.
  intros w w'.
  assert (fst (Sync.downloadAndReplace syncer "game.sav" save Still.remoteTime w) = None)
    as Hrun by (vm_compute; reflexivity).
  assert (Join TempDir ("game.sav" +:+ ".download") <> save) as Htemp
    by (vm_compute; discriminate).
  exact (proj1 (proj2 (Syncer_download_success syncer "game.sav" save Still.remoteTime
                         w w' (run_eta _ w None Hrun) Htemp))).
Defined.
